(** * roastme-back: the access guard and the chat authorization engine

    A shallow embedding of the request handlers of the messaging backend
    (app/api/routes, app/services, app/main.py) over an explicit model of
    the relational store, and the properties of the handlers. *)

From Stdlib Require Import ZArith List Bool String Ascii Lia Arith.
Import ListNotations.
Open Scope string_scope.
Open Scope list_scope.
Open Scope Z_scope.

(** ** Rows of the store (app/models)

    Integer columns are Python integers ([Z]); a nullable column is an
    [option]; a DateTime column is the reading of the store's clock. *)

Module User.
  (** app/models/user.py is not among the sources; the columns are those
      that app/schemas/user.py exposes and that the handlers read. *)
Record t := mk { id : Z; username : string; is_active : bool }.
End User.

Module Chat.
Record t := mk {
    id : Z;
    name : option string;
    is_group : bool;
    created_at : Z;
    updated_at : option Z }.
End Chat.

Module UserChat.
Record t := mk {
    id : Z;
    user_id : Z;
    chat_id : Z;
    is_admin : bool;
    joined_at : Z }.
End UserChat.

Module Message.
Record t := mk {
    id : Z;
    content : string;
    sender_id : Z;
    chat_id : Z;
    is_read : bool;
    created_at : Z;
    updated_at : option Z }.
End Message.

Module AuthorizedIP.
Record t := mk {
    id : Z;
    user_id : Z;
    ip_address : string;
    description : option string;
    is_active : bool;
    created_at : Z;
    last_used_at : option Z }.
End AuthorizedIP.

(** ** Request bodies (app/schemas) *)

Module ChatCreate.
Record t := mk { name : option string; is_group : bool; user_ids : list Z }.
End ChatCreate.

Module ChatUpdate.
Record t := mk { name : option string }.
End ChatUpdate.

Module ChatAddUsers.
Record t := mk { user_ids : list Z }.
End ChatAddUsers.

Module MessageCreate.
Record t := mk { content : string; chat_id : Z }.
End MessageCreate.

Module MessageUpdate.
Record t := mk { content : option string; is_read : option bool }.
End MessageUpdate.

Module ChatDetail.
  (** The dictionary that [read_chat] builds. *)
Record t := mk {
    id : Z;
    name : option string;
    is_group : bool;
    created_at : Z;
    updated_at : option Z;
    users : list User.t;
    last_message : option Message.t }.
End ChatDetail.

Module MessageDetail.
  (** The dictionary that [read_chat_messages] builds for one message: the
      attributes of the row and [sender_username]. *)
Record t := mk {
    id : Z;
    content : string;
    sender_id : Z;
    chat_id : Z;
    is_read : bool;
    created_at : Z;
    updated_at : option Z;
    sender_username : string }.
End MessageDetail.

(** ** The store

    One list of rows per table, in insertion order, the next value of each
    table's primary-key sequence, and the store's clock ([func.now()]). *)

Record DB := mkDB {
  users : list User.t;
  chats : list Chat.t;
  users_chats : list UserChat.t;
  messages : list Message.t;
  authorized_ips : list AuthorizedIP.t;
  chats_id_seq : Z;
  users_chats_id_seq : Z;
  messages_id_seq : Z;
  authorized_ips_id_seq : Z;
  now : Z }.

Definition set_chats (l : list Chat.t) (db : DB) : DB :=
  mkDB (users db) l (users_chats db) (messages db) (authorized_ips db)
       (chats_id_seq db) (users_chats_id_seq db) (messages_id_seq db)
       (authorized_ips_id_seq db) (now db).

Definition set_users_chats (l : list UserChat.t) (db : DB) : DB :=
  mkDB (users db) (chats db) l (messages db) (authorized_ips db)
       (chats_id_seq db) (users_chats_id_seq db) (messages_id_seq db)
       (authorized_ips_id_seq db) (now db).

Definition set_messages (l : list Message.t) (db : DB) : DB :=
  mkDB (users db) (chats db) (users_chats db) l (authorized_ips db)
       (chats_id_seq db) (users_chats_id_seq db) (messages_id_seq db)
       (authorized_ips_id_seq db) (now db).

Definition set_authorized_ips (l : list AuthorizedIP.t) (db : DB) : DB :=
  mkDB (users db) (chats db) (users_chats db) (messages db) l
       (chats_id_seq db) (users_chats_id_seq db) (messages_id_seq db)
       (authorized_ips_id_seq db) (now db).

Definition set_now (t : Z) (db : DB) : DB :=
  mkDB (users db) (chats db) (users_chats db) (messages db) (authorized_ips db)
       (chats_id_seq db) (users_chats_id_seq db) (messages_id_seq db)
       (authorized_ips_id_seq db) t.

(** ** Exceptions and the handler monad

    A handler runs against the store and either returns or raises; the
    store it leaves behind is kept in both cases, so that "nothing was
    written" is a statement about the second component. *)

Inductive Exception :=
| HTTPException (status_code : Z) (detail : string)
| AttributeError (msg : string)
| StoreError (msg : string).

Definition HTTP_400_BAD_REQUEST : Z := 400.
Definition HTTP_403_FORBIDDEN : Z := 403.
Definition HTTP_404_NOT_FOUND : Z := 404.

Inductive Result (A : Type) :=
| Ok (a : A)
| Raise (e : Exception).
Arguments Ok {A} a.
Arguments Raise {A} e.

Definition M (A : Type) : Type := DB -> Result A * DB.

Definition ret {A} (a : A) : M A := fun db => (Ok a, db).

Definition raise {A} (e : Exception) : M A := fun db => (Raise e, db).

Definition bind {A B} (m : M A) (k : A -> M B) : M B :=
  fun db =>
    match m db with
    | (Ok a, db') => k a db'
    | (Raise e, db') => (Raise e, db')
    end.

(** [db.query(...)...] that only reads. *)
Definition query {A} (q : DB -> A) : M A := fun db => (Ok (q db), db).

(** A statement that writes. *)
Definition execute (f : DB -> DB) : M unit := fun db => (Ok tt, f db).

Notation "x <- m ;; k" := (bind m (fun x => k))
  (at level 61, m at next level, right associativity).
Notation "m ;; k" := (bind m (fun _ => k))
  (at level 61, right associativity).

(** [if cond: raise e] *)
Definition raise_if (cond : bool) (e : Exception) : M unit :=
  if cond then raise e else ret tt.

(** [for x in l: body(x)] *)
Fixpoint for_each {A} (l : list A) (body : A -> M unit) : M unit :=
  match l with
  | [] => ret tt
  | x :: l' => body x ;; for_each l' body
  end.

(** [x in l] on a list of integers. *)
Definition mem (x : Z) (l : list Z) : bool := existsb (Z.eqb x) l.

(** [len(l)] compared with [!=]. *)
Definition len_ne {A B} (l : list A) (l' : list B) : bool :=
  negb (Nat.eqb (List.length l) (List.length l')).

(** ** Session primitives *)

(** [db.add(Chat(name=..., is_group=...)); db.flush()]: the row gets the next
    primary key and the server-side default of [created_at]. *)
Definition add_chat (name : option string) (is_group : bool) : M Chat.t :=
  fun db =>
    let row := Chat.mk (chats_id_seq db) name is_group (now db) None in
    (Ok row,
     mkDB (users db) (chats db ++ [row]) (users_chats db) (messages db)
          (authorized_ips db) (chats_id_seq db + 1) (users_chats_id_seq db)
          (messages_id_seq db) (authorized_ips_id_seq db) (now db)).

(** [db.add(UserChat(user_id=..., chat_id=..., is_admin=...))] *)
Definition add_user_chat (user_id chat_id : Z) (is_admin : bool) : M unit :=
  fun db =>
    let row :=
      UserChat.mk (users_chats_id_seq db) user_id chat_id is_admin (now db) in
    (Ok tt,
     mkDB (users db) (chats db) (users_chats db ++ [row]) (messages db)
          (authorized_ips db) (chats_id_seq db) (users_chats_id_seq db + 1)
          (messages_id_seq db) (authorized_ips_id_seq db) (now db)).

(** [db.add(Message(content=..., sender_id=..., chat_id=...))]; [is_read]
    takes its column default, False. *)
Definition add_message (content : string) (sender_id chat_id : Z)
  : M Message.t :=
  fun db =>
    let row :=
      Message.mk (messages_id_seq db) content sender_id chat_id false
                 (now db) None in
    (Ok row,
     mkDB (users db) (chats db) (users_chats db) (messages db ++ [row])
          (authorized_ips db) (chats_id_seq db) (users_chats_id_seq db)
          (messages_id_seq db + 1) (authorized_ips_id_seq db) (now db)).

(** [db.add(AuthorizedIP(user_id=..., ip_address=..., description=...))];
    [is_active] takes its column default, True. *)
Definition add_authorized_ip_row (user_id : Z) (ip_address : string)
  (description : option string) : M AuthorizedIP.t :=
  fun db =>
    let row :=
      AuthorizedIP.mk (authorized_ips_id_seq db) user_id ip_address
                      description true (now db) None in
    (Ok row,
     mkDB (users db) (chats db) (users_chats db) (messages db)
          (authorized_ips db ++ [row]) (chats_id_seq db)
          (users_chats_id_seq db) (messages_id_seq db)
          (authorized_ips_id_seq db + 1) (now db)).

(** Modelled from the spec: app/database.py (the session factory behind
    [get_db]) is not among the sources.  The spec counts the memberships
    "after removal", so a [db.delete(row)] is visible to the queries that
    follow it in the same handler; the row is identified by its primary
    key. *)
Definition delete_user_chat (row : UserChat.t) : M unit :=
  execute (fun db =>
    set_users_chats
      (filter (fun uc => negb (UserChat.id uc =? UserChat.id row))
              (users_chats db)) db).

(** [db.delete(db_message)] *)
Definition delete_message_row (row : Message.t) : M unit :=
  execute (fun db =>
    set_messages
      (filter (fun m => negb (Message.id m =? Message.id row))
              (messages db)) db).

(** Equality of rows, column by column: the unit of work compares a loaded
    row with its current attributes to decide whether it is dirty. *)
Definition Chat_eq_dec (a b : Chat.t) : {a = b} + {a <> b}.
Proof. repeat decide equality. Defined.

Definition Message_eq_dec (a b : Message.t) : {a = b} + {a <> b}.
Proof. repeat decide equality. Defined.

Definition AuthorizedIP_eq_dec (a b : AuthorizedIP.t) : {a = b} + {a <> b}.
Proof. repeat decide equality. Defined.

(** [db.add(chat); db.commit(); db.refresh(chat)] for a loaded row [old]
    whose attributes are now [new]: an UPDATE by primary key is emitted only
    when a column changed, and then [updated_at] takes [onupdate=func.now()].
    The refreshed row is returned. *)
Definition commit_chat (old new : Chat.t) : M Chat.t :=
  if Chat_eq_dec old new then ret old
  else fun db =>
    let row := Chat.mk (Chat.id new) (Chat.name new) (Chat.is_group new)
                       (Chat.created_at new) (Some (now db)) in
    (Ok row,
     set_chats (map (fun c => if Chat.id c =? Chat.id old then row else c)
                    (chats db)) db).

(** The same for a message row. *)
Definition commit_message (old new : Message.t) : M Message.t :=
  if Message_eq_dec old new then ret old
  else fun db =>
    let row := Message.mk (Message.id new) (Message.content new)
                          (Message.sender_id new) (Message.chat_id new)
                          (Message.is_read new) (Message.created_at new)
                          (Some (now db)) in
    (Ok row,
     set_messages
       (map (fun m => if Message.id m =? Message.id old then row else m)
            (messages db)) db).

(** The same for an allow-list row; the table has no [onupdate] column. *)
Definition commit_authorized_ip (old new : AuthorizedIP.t) : M unit :=
  if AuthorizedIP_eq_dec old new then ret tt
  else execute (fun db =>
    set_authorized_ips
      (map (fun r => if AuthorizedIP.id r =? AuthorizedIP.id old
                     then new else r)
           (authorized_ips db)) db).

(** ** Queries shared by the handlers *)

(** [UserChat.user_id == user_id, UserChat.chat_id == chat_id] *)
Definition is_membership (user_id chat_id : Z) (uc : UserChat.t) : bool :=
  (UserChat.user_id uc =? user_id) && (UserChat.chat_id uc =? chat_id).

(** [..., UserChat.is_admin == True] *)
Definition is_admin_membership (user_id chat_id : Z) (uc : UserChat.t)
  : bool :=
  (UserChat.user_id uc =? user_id) && (UserChat.chat_id uc =? chat_id)
  && Bool.eqb (UserChat.is_admin uc) true.

(** [order_by(desc(Message.created_at)).first()]: a row of greatest
    [created_at]; among equal timestamps the store may return any, the
    model returns the earliest inserted. *)
Fixpoint newest_from (best : Message.t) (l : list Message.t) : Message.t :=
  match l with
  | [] => best
  | m :: l' =>
      if Message.created_at best <? Message.created_at m
      then newest_from m l' else newest_from best l'
  end.

Definition newest (l : list Message.t) : option Message.t :=
  match l with
  | [] => None
  | m :: l' => Some (newest_from m l')
  end.

(** [db.query(Message, User.username).join(User, Message.sender_id ==
    User.id).filter(Message.chat_id == chat_id)]: one row for every message
    of the chat and every user row that carries its sender's id. *)
Definition messages_with_sender (chat_id : Z) (db : DB)
  : list (Message.t * string) :=
  flat_map (fun m =>
              map (fun u => (m, User.username u))
                  (filter (fun u => Message.sender_id m =? User.id u)
                          (users db)))
           (filter (fun m => Message.chat_id m =? chat_id) (messages db)).

(** [order_by(desc(Message.created_at))] on such rows: greatest
    [created_at] first.  Among equal timestamps the store may use any
    order, and a different one for each statement; the model keeps the
    order of insertion, as [newest] does, and what is proved of a listing
    holds for every order among equal timestamps. *)
Fixpoint insert_desc (r : Message.t * string)
  (rows : list (Message.t * string)) : list (Message.t * string) :=
  match rows with
  | [] => [r]
  | x :: rows' =>
      if Message.created_at (fst r) <? Message.created_at (fst x)
      then x :: insert_desc r rows'
      else r :: x :: rows'
  end.

Definition order_by_created_at_desc (rows : list (Message.t * string))
  : list (Message.t * string) :=
  fold_right insert_desc [] rows.

(** [.offset(skip).limit(limit).all()].  The store is PostgreSQL
    (app/config.py: port 5432, user postgres), which rejects a negative
    OFFSET and a negative LIMIT when the statement runs. *)
Definition offset_limit {A} (skip limit : Z) (rows : list A) : M (list A) :=
  if skip <? 0 then raise (StoreError "OFFSET must not be negative")
  else if limit <? 0 then raise (StoreError "LIMIT must not be negative")
  else ret (firstn (Z.to_nat limit) (skipn (Z.to_nat skip) rows)).

(** [{**msg.__dict__}] without [_sa_instance_state], with
    [sender_username] added. *)
Definition msg_dict (msg : Message.t) (username : string) : MessageDetail.t :=
  MessageDetail.mk (Message.id msg) (Message.content msg)
                   (Message.sender_id msg) (Message.chat_id msg)
                   (Message.is_read msg) (Message.created_at msg)
                   (Message.updated_at msg) username.

Definition is_none {A} (o : option A) : bool :=
  match o with None => true | Some _ => false end.

(** [l[start:stop]] on a Python list: an index below zero counts from the
    end, and both are clamped to the list. *)
Definition py_slice {A} (start stop : Z) (l : list A) : list A :=
  let n := Z.of_nat (List.length l) in
  let clamp := fun i => if i <? 0 then Z.max (i + n) 0 else Z.min i n in
  firstn (Z.to_nat (clamp stop - clamp start))
         (skipn (Z.to_nat (clamp start)) l).

(** ** app/api/routes/chats.py *)

Module chats.

Definition create_chat (chat : ChatCreate.t) (current_user : User.t)
    : M Chat.t :=
    let user_ids := ChatCreate.user_ids chat in
    let user_ids :=
      if negb (mem (User.id current_user) user_ids)
      then user_ids ++ [User.id current_user]
      else user_ids in
    users <- query (fun db =>
               filter (fun u => mem (User.id u) user_ids) (users db)) ;;
    raise_if (len_ne users user_ids)
      (HTTPException HTTP_404_NOT_FOUND "One or more users not found") ;;
    db_chat <- add_chat (ChatCreate.name chat) (ChatCreate.is_group chat) ;;
    for_each user_ids (fun user_id =>
      let is_admin := user_id =? User.id current_user in
      add_user_chat user_id (Chat.id db_chat) is_admin) ;;
    ret db_chat.

  (** The loop of [read_user_chats] over [chat_ids]; [listed_chats] is the
      list [chats] that the loop appends to.  [chat.id] on a missing chat
      row is an attribute of [None]. *)
Fixpoint chat_details (chat_ids : list Z) (listed_chats : list ChatDetail.t)
    : M (list ChatDetail.t) :=
    match chat_ids with
    | [] => ret listed_chats
    | chat_id :: chat_ids' =>
        chat <- query (fun db =>
                  find (fun c => Chat.id c =? chat_id) (chats db)) ;;
        chat_users <- query (fun db =>
          filter (fun u =>
                    existsb (is_membership (User.id u) chat_id)
                            (users_chats db))
                 (users db)) ;;
        last_message <- query (fun db =>
          newest (filter (fun m => Message.chat_id m =? chat_id)
                         (messages db))) ;;
        match chat with
        | None =>
            raise (AttributeError
                     "'NoneType' object has no attribute 'id'")
        | Some chat =>
            chat_details chat_ids'
              (listed_chats
               ++ [ChatDetail.mk (Chat.id chat) (Chat.name chat)
                     (Chat.is_group chat) (Chat.created_at chat)
                     (Chat.updated_at chat) chat_users last_message])
        end
    end.

Definition read_user_chats (skip limit : Z) (current_user : User.t)
    : M (list ChatDetail.t) :=
    user_chats <- query (fun db =>
                    filter (fun uc => UserChat.user_id uc
                                      =? User.id current_user)
                           (users_chats db)) ;;
    let chat_ids := map UserChat.chat_id user_chats in
    chats <- chat_details chat_ids [] ;;
    ret (py_slice skip (skip + limit) chats).

Definition read_chat (chat_id : Z) (current_user : User.t)
    : M ChatDetail.t :=
    user_chat <- query (fun db =>
                   find (is_membership (User.id current_user) chat_id)
                        (users_chats db)) ;;
    raise_if (is_none user_chat)
      (HTTPException HTTP_403_FORBIDDEN "User is not a member of this chat") ;;
    chat <- query (fun db => find (fun c => Chat.id c =? chat_id) (chats db)) ;;
    match chat with
    | None => raise (HTTPException HTTP_404_NOT_FOUND "Chat not found")
    | Some chat =>
        chat_users <- query (fun db =>
          filter (fun u =>
                    existsb (is_membership (User.id u) chat_id)
                            (users_chats db))
                 (users db)) ;;
        last_message <- query (fun db =>
          newest (filter (fun m => Message.chat_id m =? chat_id)
                         (messages db))) ;;
        ret (ChatDetail.mk (Chat.id chat) (Chat.name chat)
                           (Chat.is_group chat) (Chat.created_at chat)
                           (Chat.updated_at chat) chat_users last_message)
    end.

Definition update_chat (chat_id : Z) (chat_update : ChatUpdate.t)
    (current_user : User.t) : M Chat.t :=
    user_chat <- query (fun db =>
                   find (is_admin_membership (User.id current_user) chat_id)
                        (users_chats db)) ;;
    raise_if (is_none user_chat)
      (HTTPException HTTP_403_FORBIDDEN "User is not an admin of this chat") ;;
    chat <- query (fun db => find (fun c => Chat.id c =? chat_id) (chats db)) ;;
    match chat with
    | None => raise (HTTPException HTTP_404_NOT_FOUND "Chat not found")
    | Some chat =>
        let chat' :=
          match ChatUpdate.name chat_update with
          | Some name =>
              Chat.mk (Chat.id chat) (Some name) (Chat.is_group chat)
                      (Chat.created_at chat) (Chat.updated_at chat)
          | None => chat
          end in
        commit_chat chat chat'
    end.

Definition add_users_to_chat (chat_id : Z) (chat_add_users : ChatAddUsers.t)
    (current_user : User.t) : M Chat.t :=
    user_chat <- query (fun db =>
                   find (is_admin_membership (User.id current_user) chat_id)
                        (users_chats db)) ;;
    raise_if (is_none user_chat)
      (HTTPException HTTP_403_FORBIDDEN "User is not an admin of this chat") ;;
    chat <- query (fun db => find (fun c => Chat.id c =? chat_id) (chats db)) ;;
    match chat with
    | None => raise (HTTPException HTTP_404_NOT_FOUND "Chat not found")
    | Some chat =>
        raise_if (negb (Chat.is_group chat))
          (HTTPException HTTP_400_BAD_REQUEST
                         "Cannot add users to individual chat") ;;
        let user_ids := ChatAddUsers.user_ids chat_add_users in
        users <- query (fun db =>
                   filter (fun u => mem (User.id u) user_ids) (users db)) ;;
        raise_if (len_ne users user_ids)
          (HTTPException HTTP_404_NOT_FOUND "One or more users not found") ;;
        existing_users <- query (fun db =>
          filter (fun uc => (UserChat.chat_id uc =? chat_id)
                            && mem (UserChat.user_id uc) user_ids)
                 (users_chats db)) ;;
        let existing_user_ids := map UserChat.user_id existing_users in
        let new_user_ids :=
          filter (fun uid => negb (mem uid existing_user_ids)) user_ids in
        for_each new_user_ids (fun user_id =>
          add_user_chat user_id chat_id false) ;;
        ret chat
    end.

Definition remove_user_from_chat (chat_id user_id : Z)
    (current_user : User.t) : M unit :=
    let is_self_removal := User.id current_user =? user_id in
    (if negb is_self_removal then
       admin_check <- query (fun db =>
         find (is_admin_membership (User.id current_user) chat_id)
              (users_chats db)) ;;
       raise_if (is_none admin_check)
         (HTTPException HTTP_403_FORBIDDEN "User is not an admin of this chat")
     else ret tt) ;;
    user_chat <- query (fun db =>
                   find (is_membership user_id chat_id) (users_chats db)) ;;
    match user_chat with
    | None => raise (HTTPException HTTP_404_NOT_FOUND "User not found in chat")
    | Some user_chat =>
        delete_user_chat user_chat ;;
        remaining_users <- query (fun db =>
          List.length (filter (fun uc => UserChat.chat_id uc =? chat_id)
                              (users_chats db))) ;;
        (if (remaining_users <=? 1)%nat then
           execute (fun db =>
             set_messages
               (filter (fun m => negb (Message.chat_id m =? chat_id))
                       (messages db)) db) ;;
           execute (fun db =>
             set_users_chats
               (filter (fun uc => negb (UserChat.chat_id uc =? chat_id))
                       (users_chats db)) db) ;;
           execute (fun db =>
             set_chats
               (filter (fun c => negb (Chat.id c =? chat_id)) (chats db)) db)
         else ret tt) ;;
        ret tt
    end.

End chats.

(** ** app/api/routes/messages.py *)

Module messages.

Definition create_message (message : MessageCreate.t)
    (current_user : User.t) : M Message.t :=
    chat <- query (fun db =>
              find (fun c => Chat.id c =? MessageCreate.chat_id message)
                   (chats db)) ;;
    raise_if (is_none chat)
      (HTTPException HTTP_404_NOT_FOUND "Chat not found") ;;
    user_chat <- query (fun db =>
      find (is_membership (User.id current_user)
                          (MessageCreate.chat_id message))
           (users_chats db)) ;;
    raise_if (is_none user_chat)
      (HTTPException HTTP_403_FORBIDDEN "User is not a member of this chat") ;;
    add_message (MessageCreate.content message) (User.id current_user)
                (MessageCreate.chat_id message).

Definition update_message (message_id : Z) (message_update : MessageUpdate.t)
    (current_user : User.t) : M Message.t :=
    db_message <- query (fun db =>
                    find (fun m => Message.id m =? message_id) (messages db)) ;;
    match db_message with
    | None => raise (HTTPException HTTP_404_NOT_FOUND "Message not found")
    | Some db_message =>
        raise_if (negb (Message.sender_id db_message =? User.id current_user))
          (HTTPException HTTP_403_FORBIDDEN
                         "Cannot update messages from other users") ;;
        let db_message' :=
          match MessageUpdate.content message_update with
          | Some content =>
              Message.mk (Message.id db_message) content
                         (Message.sender_id db_message)
                         (Message.chat_id db_message)
                         (Message.is_read db_message)
                         (Message.created_at db_message)
                         (Message.updated_at db_message)
          | None => db_message
          end in
        commit_message db_message db_message'
    end.

Definition delete_message (message_id : Z) (current_user : User.t)
    : M unit :=
    db_message <- query (fun db =>
                    find (fun m => Message.id m =? message_id) (messages db)) ;;
    match db_message with
    | None => raise (HTTPException HTTP_404_NOT_FOUND "Message not found")
    | Some db_message =>
        raise_if (negb (Message.sender_id db_message =? User.id current_user))
          (HTTPException HTTP_403_FORBIDDEN
                         "Cannot delete messages from other users") ;;
        delete_message_row db_message
    end.

Definition mark_message_as_read (message_id : Z) (current_user : User.t)
    : M Message.t :=
    db_message <- query (fun db =>
                    find (fun m => Message.id m =? message_id) (messages db)) ;;
    match db_message with
    | None => raise (HTTPException HTTP_404_NOT_FOUND "Message not found")
    | Some db_message =>
        user_chat <- query (fun db =>
          find (is_membership (User.id current_user)
                              (Message.chat_id db_message))
               (users_chats db)) ;;
        raise_if (is_none user_chat)
          (HTTPException HTTP_403_FORBIDDEN
                         "User is not a member of this chat") ;;
        let db_message' :=
          Message.mk (Message.id db_message) (Message.content db_message)
                     (Message.sender_id db_message)
                     (Message.chat_id db_message) true
                     (Message.created_at db_message)
                     (Message.updated_at db_message) in
        commit_message db_message db_message'
    end.

Definition read_chat_messages (chat_id skip limit : Z)
    (current_user : User.t) : M (list MessageDetail.t) :=
    user_chat <- query (fun db =>
                   find (is_membership (User.id current_user) chat_id)
                        (users_chats db)) ;;
    raise_if (is_none user_chat)
      (HTTPException HTTP_403_FORBIDDEN "User is not a member of this chat") ;;
    rows <- query (fun db =>
              order_by_created_at_desc (messages_with_sender chat_id db)) ;;
    messages <- offset_limit skip limit rows ;;
    ret (map (fun row => msg_dict (fst row) (snd row)) messages).

End messages.

(** ** app/services/message_service.py *)

(** [s.startswith(prefix)] *)
Definition startswith (prefix s : string) : bool := String.prefix prefix s.

(** [s[n:]] for a literal [n >= 0]: the string without its first [n]
    characters, empty when it has no more than [n]. *)
Fixpoint slice_from (n : nat) (s : string) : string :=
  match n, s with
  | O, _ => s
  | S _, EmptyString => EmptyString
  | S n', String _ s' => slice_from n' s'
  end.

(** A Python [dict] with integer keys, in insertion order:
    [d[k] = v] overwrites in place or appends. *)
Definition Dict : Type := list (Z * nat).

Fixpoint dict_set (k : Z) (v : nat) (d : Dict) : Dict :=
  match d with
  | [] => [(k, v)]
  | (k', v') :: d' =>
      if k' =? k then (k', v) :: d' else (k', v') :: dict_set k v d'
  end.

Fixpoint dict_get (k : Z) (d : Dict) : option nat :=
  match d with
  | [] => None
  | (k', v') :: d' => if k' =? k then Some v' else dict_get k d'
  end.

Module message_service.

  (** The loop body's query: unread messages of the chat that the user did
      not send. *)
Definition unread_count (db : DB) (user_id chat_id : Z) : nat :=
    List.length
      (filter (fun m => (Message.chat_id m =? chat_id)
                        && Bool.eqb (Message.is_read m) false
                        && negb (Message.sender_id m =? user_id))
              (messages db)).

Definition get_unread_message_count (user_id : Z) : M Dict :=
    user_chats <- query (fun db =>
                    filter (fun uc => UserChat.user_id uc =? user_id)
                           (users_chats db)) ;;
    let chat_ids := map UserChat.chat_id user_chats in
    query (fun db =>
      fold_left (fun result chat_id =>
                   dict_set chat_id (unread_count db user_id chat_id) result)
                chat_ids []).

Definition get_chat_messages (chat_id user_id skip limit : Z)
    : M (list MessageDetail.t) :=
    user_chat <- query (fun db =>
                   find (is_membership user_id chat_id) (users_chats db)) ;;
    raise_if (is_none user_chat)
      (HTTPException HTTP_403_FORBIDDEN "User is not a member of this chat") ;;
    rows <- query (fun db =>
              order_by_created_at_desc (messages_with_sender chat_id db)) ;;
    messages_with_sender <- offset_limit skip limit rows ;;
    ret (map (fun row => msg_dict (fst row) (snd row)) messages_with_sender).

Definition get_message (message_id : Z) : M Message.t :=
    message <- query (fun db =>
                 find (fun m => Message.id m =? message_id) (messages db)) ;;
    match message with
    | None => raise (HTTPException HTTP_404_NOT_FOUND "Message not found")
    | Some message => ret message
    end.

Definition create_message (message : MessageCreate.t) (user_id : Z)
    : M Message.t :=
    chat <- query (fun db =>
              find (fun c => Chat.id c =? MessageCreate.chat_id message)
                   (chats db)) ;;
    raise_if (is_none chat)
      (HTTPException HTTP_404_NOT_FOUND "Chat not found") ;;
    user_chat <- query (fun db =>
      find (is_membership user_id (MessageCreate.chat_id message))
           (users_chats db)) ;;
    raise_if (is_none user_chat)
      (HTTPException HTTP_403_FORBIDDEN "User is not a member of this chat") ;;
    add_message (MessageCreate.content message) user_id
                (MessageCreate.chat_id message).

Definition update_message (message_id : Z) (message_update : MessageUpdate.t)
    (user_id : Z) : M Message.t :=
    db_message <- get_message message_id ;;
    raise_if (negb (Message.sender_id db_message =? user_id))
      (HTTPException HTTP_403_FORBIDDEN
                     "Cannot update messages from other users") ;;
    let with_content :=
      match MessageUpdate.content message_update with
      | Some content =>
          Message.mk (Message.id db_message) content
                     (Message.sender_id db_message)
                     (Message.chat_id db_message)
                     (Message.is_read db_message)
                     (Message.created_at db_message)
                     (Message.updated_at db_message)
      | None => db_message
      end in
    let with_is_read :=
      match MessageUpdate.is_read message_update with
      | Some is_read =>
          Message.mk (Message.id with_content) (Message.content with_content)
                     (Message.sender_id with_content)
                     (Message.chat_id with_content) is_read
                     (Message.created_at with_content)
                     (Message.updated_at with_content)
      | None => with_content
      end in
    commit_message db_message with_is_read.

Definition delete_message (message_id user_id : Z) : M unit :=
    db_message <- get_message message_id ;;
    raise_if (negb (Message.sender_id db_message =? user_id))
      (HTTPException HTTP_403_FORBIDDEN
                     "Cannot delete messages from other users") ;;
    delete_message_row db_message.

Definition mark_message_as_read (message_id user_id : Z) : M Message.t :=
    db_message <- get_message message_id ;;
    user_chat <- query (fun db =>
      find (is_membership user_id (Message.chat_id db_message))
           (users_chats db)) ;;
    raise_if (is_none user_chat)
      (HTTPException HTTP_403_FORBIDDEN "User is not a member of this chat") ;;
    if negb (Message.is_read db_message) then
      commit_message db_message
        (Message.mk (Message.id db_message) (Message.content db_message)
                    (Message.sender_id db_message)
                    (Message.chat_id db_message) true
                    (Message.created_at db_message)
                    (Message.updated_at db_message))
    else ret db_message.

  (** Characters are modelled as [ascii]; the prefix has ten of them. *)
Definition encrypt_message_content (content : string) : string :=
    String.append "ENCRYPTED:" content.

Definition decrypt_message_content (encrypted_content : string) : string :=
    if startswith "ENCRYPTED:" encrypted_content
    then slice_from 10 encrypted_content
    else encrypted_content.

End message_service.

(** ** app/services/user_service.py *)

(** [a or b] on optional strings: [None] and the empty string are falsy. *)
Definition str_or (a b : option string) : option string :=
  match a with
  | Some EmptyString => b
  | Some _ => a
  | None => b
  end.

Module user_service.

Definition check_ip_authorization (user_id : Z) (ip_address : string)
    : M bool :=
    if String.eqb ip_address "127.0.0.1" || String.eqb ip_address "::1"
       || String.prefix "192.168." ip_address
    then ret true
    else
      authorized_ip <- query (fun db =>
        find (fun r => (AuthorizedIP.user_id r =? user_id)
                       && String.eqb (AuthorizedIP.ip_address r) ip_address
                       && Bool.eqb (AuthorizedIP.is_active r) true)
             (authorized_ips db)) ;;
      match authorized_ip with
      | Some authorized_ip =>
          t <- query now ;;
          commit_authorized_ip authorized_ip
            (AuthorizedIP.mk (AuthorizedIP.id authorized_ip)
                             (AuthorizedIP.user_id authorized_ip)
                             (AuthorizedIP.ip_address authorized_ip)
                             (AuthorizedIP.description authorized_ip)
                             (AuthorizedIP.is_active authorized_ip)
                             (AuthorizedIP.created_at authorized_ip)
                             (Some t)) ;;
          ret true
      | None => ret false
      end.

Definition register_authorized_ip (user_id : Z) (ip_address : string)
    (description : option string) : M unit :=
    existing_ip <- query (fun db =>
      find (fun r => (AuthorizedIP.user_id r =? user_id)
                     && String.eqb (AuthorizedIP.ip_address r) ip_address)
           (authorized_ips db)) ;;
    match existing_ip with
    | Some existing_ip =>
        if negb (AuthorizedIP.is_active existing_ip) then
          commit_authorized_ip existing_ip
            (AuthorizedIP.mk (AuthorizedIP.id existing_ip)
                             (AuthorizedIP.user_id existing_ip)
                             (AuthorizedIP.ip_address existing_ip)
                             (str_or description
                                     (AuthorizedIP.description existing_ip))
                             true
                             (AuthorizedIP.created_at existing_ip)
                             (AuthorizedIP.last_used_at existing_ip))
        else ret tt
    | None =>
        add_authorized_ip_row user_id ip_address description ;;
        ret tt
    end.

Definition get_authorized_ips (user_id : Z) : M (list AuthorizedIP.t) :=
    query (fun db =>
      filter (fun r => (AuthorizedIP.user_id r =? user_id)
                       && Bool.eqb (AuthorizedIP.is_active r) true)
             (authorized_ips db)).

Definition deactivate_authorized_ip (user_id : Z) (ip_address : string)
    : M bool :=
    authorized_ip <- query (fun db =>
      find (fun r => (AuthorizedIP.user_id r =? user_id)
                     && String.eqb (AuthorizedIP.ip_address r) ip_address
                     && Bool.eqb (AuthorizedIP.is_active r) true)
           (authorized_ips db)) ;;
    match authorized_ip with
    | Some authorized_ip =>
        commit_authorized_ip authorized_ip
          (AuthorizedIP.mk (AuthorizedIP.id authorized_ip)
                           (AuthorizedIP.user_id authorized_ip)
                           (AuthorizedIP.ip_address authorized_ip)
                           (AuthorizedIP.description authorized_ip)
                           false
                           (AuthorizedIP.created_at authorized_ip)
                           (AuthorizedIP.last_used_at authorized_ip)) ;;
        ret true
    | None => ret false
    end.

Definition get_user (user_id : Z) : M User.t :=
  user <- query (fun db => find (fun u => User.id u =? user_id) (users db)) ;;
  match user with
  | None => raise (HTTPException HTTP_404_NOT_FOUND "User not found")
  | Some user => ret user
  end.

Definition get_user_by_username (username : string) : M (option User.t) :=
  query (fun db =>
    find (fun u => String.eqb (User.username u) username) (users db)).

Section Passwords.

  (** app/models/user.py and app/api/deps.py are not among the sources: the
      column [hashed_password] and [verify_password] are parameters. *)
Variable hashed_password : User.t -> string.
Variable verify_password : string -> string -> bool.

Definition authenticate_user (username password : string)
  : M (option User.t) :=
  user <- get_user_by_username username ;;
  match user with
  | None => ret None
  | Some user =>
      if negb (verify_password password (hashed_password user))
      then ret None
      else ret (Some user)
  end.

End Passwords.

End user_service.

(** ** The request as the framework hands it over *)

Module Request.
Record t := mk {
    path : string;                   (* request.url.path *)
    method : string;                 (* request.method *)
    client_host : string;            (* request.client.host *)
    authorization : option string }. (* request.headers.get("Authorization") *)
End Request.

(** ** app/api/routes/users.py: the allow-list removal endpoint *)

Module UserLogin.
Record t := mk { username : string; password : string }.
End UserLogin.

Module Token.
Record t := mk { access_token : string; token_type : string }.
End Token.

Definition HTTP_401_UNAUTHORIZED : Z := 401.

Module AuthorizedIPCreate.
Record t := mk { ip_address : string; description : option string }.
End AuthorizedIPCreate.

Module users.

Definition read_authorized_ips (current_user : User.t)
  : M (list AuthorizedIP.t) :=
  user_service.get_authorized_ips (User.id current_user).

Definition add_authorized_ip (ip_data : AuthorizedIPCreate.t)
  (current_user : User.t) : M AuthorizedIP.t :=
  existing_ip <- query (fun db =>
    find (fun r => (AuthorizedIP.user_id r =? User.id current_user)
                   && String.eqb (AuthorizedIP.ip_address r)
                                 (AuthorizedIPCreate.ip_address ip_data))
         (authorized_ips db)) ;;
  match existing_ip with
  | Some existing_ip =>
      if AuthorizedIP.is_active existing_ip then
        raise (HTTPException HTTP_400_BAD_REQUEST
                             "IP address already authorized")
      else
        let existing_ip' :=
          AuthorizedIP.mk (AuthorizedIP.id existing_ip)
                          (AuthorizedIP.user_id existing_ip)
                          (AuthorizedIP.ip_address existing_ip)
                          (AuthorizedIPCreate.description ip_data) true
                          (AuthorizedIP.created_at existing_ip)
                          (AuthorizedIP.last_used_at existing_ip) in
        commit_authorized_ip existing_ip existing_ip' ;;
        ret existing_ip'
  | None =>
      add_authorized_ip_row (User.id current_user)
        (AuthorizedIPCreate.ip_address ip_data)
        (AuthorizedIPCreate.description ip_data)
  end.

Section Credentials.

(** What the login endpoint takes from files that are not among the
    sources: the column [hashed_password] of the user row
    (app/models/user.py), [verify_password] and [create_access_token]
    (app/api/deps.py), and the configured lifetime of a token. *)
Variable hashed_password : User.t -> string.
Variable verify_password : string -> string -> bool.
Variable create_access_token : string -> Z -> string.
Variable ACCESS_TOKEN_EXPIRE_MINUTES : Z.

(** The 401 carries the header [WWW-Authenticate: Bearer], which
    [Exception] has no place for. *)
Definition login_for_access_token (user_login : UserLogin.t)
  (request : Request.t) : M Token.t :=
  user <- query (fun db =>
            find (fun u => String.eqb (User.username u)
                                      (UserLogin.username user_login))
                 (users db)) ;;
  match user with
  | Some user =>
      if negb (verify_password (UserLogin.password user_login)
                               (hashed_password user))
      then raise (HTTPException HTTP_401_UNAUTHORIZED
                                "Incorrect username or password")
      else
        let client_ip := Request.client_host request in
        user_service.register_authorized_ip (User.id user) client_ip
          (Some "IP used for login") ;;
        let access_token :=
          create_access_token (User.username user)
                              ACCESS_TOKEN_EXPIRE_MINUTES in
        ret (Token.mk access_token "bearer")
  | None =>
      raise (HTTPException HTTP_401_UNAUTHORIZED
                           "Incorrect username or password")
  end.

End Credentials.

Section RequestClass.

  (** The handler does not receive the request; it reads the attribute
      [scope] of the class [Request] itself.  [Request_scope] is that class
      attribute: [None] when the class has no such attribute, otherwise the
      mapping found there. *)
Variable Request_scope : option (list (string * Request.t)).

  (** [d.get(key)] *)
Fixpoint scope_get (key : string) (d : list (string * Request.t))
    : option Request.t :=
    match d with
    | [] => None
    | (k, v) :: d' => if String.eqb k key then Some v else scope_get key d'
    end.

Definition remove_authorized_ip (ip_address : string)
    (current_user : User.t) : M unit :=
    match Request_scope with
    | None =>
        raise (AttributeError "type object 'Request' has no attribute 'scope'")
    | Some scope =>
        match scope_get "fastapi_aio_request" scope with
        | None =>
            raise (AttributeError
                     "'NoneType' object has no attribute 'client'")
        | Some request =>
            let client_ip := Request.client_host request in
            raise_if (String.eqb client_ip ip_address)
              (HTTPException HTTP_400_BAD_REQUEST
                 "Cannot remove the IP address you are currently using") ;;
            success <- user_service.deactivate_authorized_ip
                         (User.id current_user) ip_address ;;
            raise_if (negb success)
              (HTTPException HTTP_404_NOT_FOUND
                 "IP address not found or already deactivated") ;;
            ret tt
        end
    end.

End RequestClass.
End users.

(** ** app/main.py: the access guard *)

(** [s.replace(old, new)] for a non-empty [old]: the occurrences are taken
    from left to right and do not overlap; [skip] counts the characters of
    the occurrence being replaced that are still to be dropped. *)
Fixpoint replace_from (skip : nat) (old new s : string) : string :=
  match s with
  | EmptyString => EmptyString
  | String c s' =>
      match skip with
      | S k => replace_from k old new s'
      | O =>
          if String.prefix old s
          then String.append new
                 (replace_from (Nat.pred (String.length old)) old new s')
          else String c (replace_from O old new s')
      end
  end.

Definition replace (old new s : string) : string := replace_from O old new s.

(** [try: body finally: cleanup], where [body] may end by returning a value:
    [cleanup] always runs, and an exception it raises replaces the outcome
    of [body]. *)
Definition try_finally {A} (body : M A) (cleanup : M unit) : M A :=
  fun db =>
    let (r, db1) := body db in
    match cleanup db1 with
    | (Ok _, db2) => (r, db2)
    | (Raise e, db2) => (Raise e, db2)
    end.

Inductive Response (H : Type) :=
| JSONResponse (status_code : Z) (content : list (string * string))
| FromHandler (r : H).
Arguments JSONResponse {H} status_code content.
Arguments FromHandler {H} r.

Module main.

Definition public_routes : list (string * string) :=
    [ ("/users/", "POST");
      ("/users/token", "POST");
      ("/", "GET");
      ("/health", "GET");
      ("/health/db", "GET");
      ("/docs", "GET");
      ("/openapi.json", "GET") ].

Definition is_public (request : Request.t) : bool :=
    existsb (fun route =>
               String.eqb (Request.path request) (fst route)
               && String.eqb (Request.method request) (snd route))
            public_routes.

Section Middleware.

  (** What the module imports and is handed.  app/api/deps.py and
      app/database.py are not among the sources, so [get_current_user] and
      the session generator are parameters; [check_ip_authorization] is the
      service function as run against a store that may be unavailable, so
      it is a parameter too; [call_next] is the rest of the application. *)
Variable H : Type.
Variable call_next : Request.t -> DB -> H * DB.
Variable get_db_next : M unit.
Variable get_db_close : M unit.
Variable get_current_user : string -> M User.t.
Variable check_ip_authorization : Z -> string -> M bool.

  (** The body of the [try] block; [Some response] is the [return] inside
      it, [None] is falling out of it. *)
Definition ip_check (request : Request.t) : M (option (Response H)) :=
    let client_ip := Request.client_host request in
    match Request.authorization request with
    | Some auth_header =>
        if negb (String.eqb auth_header "")
           && String.prefix "Bearer " auth_header
        then
          let token := replace "Bearer " "" auth_header in
          get_db_next ;;
          try_finally
            (user <- get_current_user token ;;
             authorized <- check_ip_authorization (User.id user) client_ip ;;
             if negb authorized then
               ret (Some (JSONResponse HTTP_403_FORBIDDEN
                            [ ("detail",
                               "IP address not authorized for this user");
                              ("client_ip", client_ip) ]))
             else ret None)
            get_db_close
        else ret None
    | None => ret None
    end.

Definition validate_ip (request : Request.t) (db : DB) : Response H * DB :=
    if is_public request then
      let (r, db') := call_next request db in (FromHandler r, db')
    else
      match ip_check request db with
      | (Ok (Some response), db') => (response, db')
      | (Ok None, db') | (Raise _, db') =>
          let (r, db'') := call_next request db' in (FromHandler r, db'')
      end.

End Middleware.
End main.

(** * Vocabulary of the properties *)

(** The rows that [User.id.in_(user_ids)] selects. *)
Definition users_in (user_ids : list Z) (db : DB) : list User.t :=
  filter (fun u => mem (User.id u) user_ids) (users db).

(** The member ids that [create_chat] works with: the creator is appended
    when the request does not list them. *)
Definition create_chat_ids (chat : ChatCreate.t) (current_user : User.t)
  : list Z :=
  if negb (mem (User.id current_user) (ChatCreate.user_ids chat))
  then ChatCreate.user_ids chat ++ [User.id current_user]
  else ChatCreate.user_ids chat.

(** The membership rows a loop of [add_user_chat] inserts for [ids], the
    first with primary key [seq]. *)
Fixpoint membership_rows (seq chat_id : Z) (is_admin : Z -> bool) (t : Z)
  (ids : list Z) : list UserChat.t :=
  match ids with
  | [] => []
  | uid :: ids' =>
      UserChat.mk seq uid chat_id (is_admin uid) t
      :: membership_rows (seq + 1) chat_id is_admin t ids'
  end.

Definition chat_exists (db : DB) (chat_id : Z) : Prop :=
  exists c, In c (chats db) /\ Chat.id c = chat_id.

Definition memberships_of (db : DB) (chat_id : Z) : list UserChat.t :=
  filter (fun uc => UserChat.chat_id uc =? chat_id) (users_chats db).

Definition member_count (db : DB) (chat_id : Z) : nat :=
  List.length (memberships_of db chat_id).

Definition messages_of (db : DB) (chat_id : Z) : list Message.t :=
  filter (fun m => Message.chat_id m =? chat_id) (messages db).

Definition is_member (db : DB) (user_id chat_id : Z) : Prop :=
  exists uc, In uc (users_chats db)
             /\ UserChat.user_id uc = user_id
             /\ UserChat.chat_id uc = chat_id.

Definition is_admin_member (db : DB) (user_id chat_id : Z) : Prop :=
  exists uc, In uc (users_chats db)
             /\ UserChat.user_id uc = user_id
             /\ UserChat.chat_id uc = chat_id
             /\ UserChat.is_admin uc = true.

(** [id] is the primary key of [users]. *)
Definition users_pk (db : DB) : Prop := NoDup (map User.id (users db)).

(** The chat row that [Chat.id == chat_id ... .first()] returns. *)
Definition lookup_chat (db : DB) (chat_id : Z) : option Chat.t :=
  find (fun c => Chat.id c =? chat_id) (chats db).

(** The message row that [Message.id == message_id ... .first()] returns. *)
Definition lookup_message (db : DB) (message_id : Z) : option Message.t :=
  find (fun m => Message.id m =? message_id) (messages db).

(** The ids that [add_users_to_chat] inserts memberships for: the requested
    ones that have no membership in the chat yet. *)
Definition new_user_ids (db : DB) (chat_id : Z) (user_ids : list Z) : list Z :=
  filter (fun uid =>
            negb (mem uid
                    (map UserChat.user_id
                       (filter (fun uc => (UserChat.chat_id uc =? chat_id)
                                          && mem (UserChat.user_id uc) user_ids)
                               (users_chats db)))))
         user_ids.

(** Some id occurs more than once in the list. *)
Definition has_duplicate (ids : list Z) : Prop :=
  exists x, (2 <= count_occ Z.eq_dec ids x)%nat.

(** ** Requests and runs

    The routers ([app.include_router]) map a request to its handler; a call
    is a request to one of the chat, message or allow-list operations, made
    by an authenticated user. *)

Inductive Call :=
| CreateChat (chat : ChatCreate.t)
| UpdateChat (chat_id : Z) (chat_update : ChatUpdate.t)
| AddUsers (chat_id : Z) (chat_add_users : ChatAddUsers.t)
| RemoveUser (chat_id user_id : Z)
| CreateMessage (message : MessageCreate.t)
| UpdateMessage (message_id : Z) (message_update : MessageUpdate.t)
| DeleteMessage (message_id : Z)
| MarkRead (message_id : Z)
| RegisterIP (ip_address : string) (description : option string)
| CheckIP (ip_address : string)
| DeactivateIP (ip_address : string).

(** The store a call leaves behind. *)
Definition handle (call : Call) (current_user : User.t) (db : DB) : DB :=
  match call with
  | CreateChat chat => snd (chats.create_chat chat current_user db)
  | UpdateChat chat_id chat_update =>
      snd (chats.update_chat chat_id chat_update current_user db)
  | AddUsers chat_id chat_add_users =>
      snd (chats.add_users_to_chat chat_id chat_add_users current_user db)
  | RemoveUser chat_id user_id =>
      snd (chats.remove_user_from_chat chat_id user_id current_user db)
  | CreateMessage message =>
      snd (messages.create_message message current_user db)
  | UpdateMessage message_id message_update =>
      snd (messages.update_message message_id message_update current_user db)
  | DeleteMessage message_id =>
      snd (messages.delete_message message_id current_user db)
  | MarkRead message_id =>
      snd (messages.mark_message_as_read message_id current_user db)
  | RegisterIP ip_address description =>
      snd (user_service.register_authorized_ip (User.id current_user)
             ip_address description db)
  | CheckIP ip_address =>
      snd (user_service.check_ip_authorization (User.id current_user)
             ip_address db)
  | DeactivateIP ip_address =>
      snd (user_service.deactivate_authorized_ip (User.id current_user)
             ip_address db)
  end.

(** A store with users only: no chat, membership or message yet. *)
Definition no_chats_yet (db : DB) : Prop :=
  chats db = [] /\ users_chats db = [] /\ messages db = [].

(** The stores that calls satisfying [allowed] lead to from a store without
    chats, with the clock moving freely between calls. *)
Inductive reachable (allowed : Call -> User.t -> Prop) : DB -> Prop :=
| reach_start db :
    no_chats_yet db -> reachable allowed db
| reach_call db call current_user :
    reachable allowed db ->
    allowed call current_user ->
    reachable allowed (handle call current_user db)
| reach_tick db t :
    reachable allowed db -> reachable allowed (set_now t db).

Definition any_call (call : Call) (current_user : User.t) : Prop := True.

(** Calls in which a chat is only created with [n] members or more, the
    creator included. *)
Definition creates_at_least (n : nat) (call : Call) (current_user : User.t)
  : Prop :=
  match call with
  | CreateChat chat =>
      (n <= List.length (create_chat_ids chat current_user))%nat
  | _ => True
  end.

(** [id] is the primary key of [users_chats], below the sequence. *)
Definition users_chats_pk (db : DB) : Prop :=
  NoDup (map UserChat.id (users_chats db))
  /\ forall uc, In uc (users_chats db) ->
                UserChat.id uc < users_chats_id_seq db.

(** A call that leaves the memberships, the chat ids and the membership
    sequence as they were. *)
Definition same_memberships (db db' : DB) : Prop :=
  users_chats db' = users_chats db
  /\ map Chat.id (chats db') = map Chat.id (chats db)
  /\ users_chats_id_seq db' = users_chats_id_seq db.

(** Every chat row has [n] memberships or more. *)
Definition chats_have (n : nat) (db : DB) : Prop :=
  forall c, In c (chats db) -> (n <= member_count db (Chat.id c))%nat.

(** ** The unread-count scenario

    [a] creates a group chat with [a], [b] and [c]; [b] sends a message;
    [a] marks it read.  The run returns the chat id and the unread counts
    read for [c] before the marking and for [a] and [c] after it. *)
Definition group_chat_scenario (a b c : User.t) (name : option string)
  (content : string) : M (Z * Dict * Dict * Dict) :=
  chat <- chats.create_chat
            (ChatCreate.mk name true [User.id a; User.id b; User.id c]) a ;;
  message <- messages.create_message
               (MessageCreate.mk content (Chat.id chat)) b ;;
  before_c <- message_service.get_unread_message_count (User.id c) ;;
  messages.mark_message_as_read (Message.id message) a ;;
  after_a <- message_service.get_unread_message_count (User.id a) ;;
  after_c <- message_service.get_unread_message_count (User.id c) ;;
  ret (Chat.id chat, before_c, after_a, after_c).

(** No message row carries the next chat id or the next message id: the
    sequences have not handed them out yet. *)
Definition next_ids_unused (db : DB) : Prop :=
  forall m, In m (messages db) ->
            Message.chat_id m <> chats_id_seq db
            /\ Message.id m <> messages_id_seq db.

(** ** The allow-list *)

(** [AuthorizedIP.user_id == user_id, AuthorizedIP.ip_address == ip_address] *)
Definition is_entry (user_id : Z) (ip_address : string) (r : AuthorizedIP.t)
  : bool :=
  (AuthorizedIP.user_id r =? user_id)
  && String.eqb (AuthorizedIP.ip_address r) ip_address.

(** The entry that [register_authorized_ip] finds, if any. *)
Definition lookup_ip (db : DB) (user_id : Z) (ip_address : string)
  : option AuthorizedIP.t :=
  find (is_entry user_id ip_address) (authorized_ips db).

(** The active entries of a user for an address. *)
Definition active_entries (db : DB) (user_id : Z) (ip_address : string)
  : list AuthorizedIP.t :=
  filter (fun r => is_entry user_id ip_address r && AuthorizedIP.is_active r)
         (authorized_ips db).

Definition ip_key (r : AuthorizedIP.t) : Z * string :=
  (AuthorizedIP.user_id r, AuthorizedIP.ip_address r).

(** [id] is the primary key of [authorized_ips], below the sequence, and
    a user has one entry per address at most. *)
Definition allow_list_wf (db : DB) : Prop :=
  NoDup (map AuthorizedIP.id (authorized_ips db))
  /\ NoDup (map ip_key (authorized_ips db))
  /\ forall r, In r (authorized_ips db) ->
               AuthorizedIP.id r < authorized_ips_id_seq db.

(** An entry as [register_authorized_ip] reactivates it. *)
Definition reactivated (description : option string) (r : AuthorizedIP.t)
  : AuthorizedIP.t :=
  AuthorizedIP.mk (AuthorizedIP.id r) (AuthorizedIP.user_id r)
                  (AuthorizedIP.ip_address r)
                  (str_or description (AuthorizedIP.description r)) true
                  (AuthorizedIP.created_at r) (AuthorizedIP.last_used_at r).

(** An entry as [deactivate_authorized_ip] leaves it. *)
Definition deactivated (r : AuthorizedIP.t) : AuthorizedIP.t :=
  AuthorizedIP.mk (AuthorizedIP.id r) (AuthorizedIP.user_id r)
                  (AuthorizedIP.ip_address r) (AuthorizedIP.description r)
                  false (AuthorizedIP.created_at r)
                  (AuthorizedIP.last_used_at r).

(** The UPDATE by primary key of the row [old] to [new]. *)
Definition update_ip_rows (old new : AuthorizedIP.t)
  (rows : list AuthorizedIP.t) : list AuthorizedIP.t :=
  map (fun r => if AuthorizedIP.id r =? AuthorizedIP.id old then new else r)
      rows.

(** ** The access guard *)

(** [auth_header and auth_header.startswith("Bearer ")] *)
Definition bearer_header (auth_header : string) : bool :=
  negb (String.eqb auth_header "") && String.prefix "Bearer " auth_header.

(** The request carries a bearer token. *)
Definition has_bearer (request : Request.t) : bool :=
  match Request.authorization request with
  | Some auth_header => bearer_header auth_header
  | None => false
  end.

(** The token the guard resolves. *)
Definition bearer_token (request : Request.t) : string :=
  match Request.authorization request with
  | Some auth_header => replace "Bearer " "" auth_header
  | None => ""
  end.

(** The request is handed to the rest of the application, which runs on
    the store [db]. *)
Definition forwarded {H : Type} (call_next : Request.t -> DB -> H * DB)
  (request : Request.t) (db : DB) : Response H * DB :=
  let (r, db') := call_next request db in (FromHandler r, db').

(** The 403 answer of the guard. *)
Definition rejection {H : Type} (client_ip : string) : Response H :=
  JSONResponse HTTP_403_FORBIDDEN
    [ ("detail", "IP address not authorized for this user");
      ("client_ip", client_ip) ].

(** Every message id and chat id in use was handed out by its sequence. *)
Definition ids_below_seq (db : DB) : Prop :=
  (forall m, In m (messages db) ->
             Message.id m < messages_id_seq db
             /\ Message.chat_id m < chats_id_seq db)
  /\ (forall c, In c (chats db) -> Chat.id c < chats_id_seq db).

(** The addresses [check_ip_authorization] lets through without looking at
    the allow-list. *)
Definition bypassed (ip_address : string) : bool :=
  String.eqb ip_address "127.0.0.1" || String.eqb ip_address "::1"
  || String.prefix "192.168." ip_address.

(** An entry as [check_ip_authorization] stamps it at time [t]. *)
Definition touched (t : Z) (r : AuthorizedIP.t) : AuthorizedIP.t :=
  AuthorizedIP.mk (AuthorizedIP.id r) (AuthorizedIP.user_id r)
                  (AuthorizedIP.ip_address r) (AuthorizedIP.description r)
                  (AuthorizedIP.is_active r) (AuthorizedIP.created_at r)
                  (Some t).

(** The active entry that the check and the deactivation look up. *)
Definition lookup_active_ip (db : DB) (user_id : Z) (ip_address : string)
  : option AuthorizedIP.t :=
  find (fun r => is_entry user_id ip_address r
                 && Bool.eqb (AuthorizedIP.is_active r) true)
       (authorized_ips db).

(** The user row that [User.username == username ... .first()] returns. *)
Definition user_by_username (db : DB) (username : string) : option User.t :=
  find (fun u => String.eqb (User.username u) username) (users db).

(** [id] is the primary key of [messages], below the sequence. *)
Definition messages_pk (db : DB) : Prop :=
  NoDup (map Message.id (messages db))
  /\ forall m, In m (messages db) -> Message.id m < messages_id_seq db.

(** What a call by [current_user] may do to the messages table: nothing,
    delete rows, insert one row with the next id, or update one row by
    primary key, keeping its sender, chat and creation time. *)
Inductive messages_step (call : Call) (current_user : User.t) (db db' : DB)
  : Prop :=
| step_same :
    messages db' = messages db ->
    messages_id_seq db' = messages_id_seq db ->
    messages_step call current_user db db'
| step_delete (keep : Message.t -> bool) :
    messages db' = filter keep (messages db) ->
    messages_id_seq db' = messages_id_seq db ->
    messages_step call current_user db db'
| step_insert (row : Message.t) :
    messages db' = messages db ++ [row] ->
    Message.id row = messages_id_seq db ->
    messages_id_seq db' = messages_id_seq db + 1 ->
    messages_step call current_user db db'
| step_update (old row : Message.t) :
    In old (messages db) ->
    messages db'
    = map (fun x => if Message.id x =? Message.id old then row else x)
          (messages db) ->
    messages_id_seq db' = messages_id_seq db ->
    Message.id row = Message.id old ->
    Message.sender_id row = Message.sender_id old ->
    Message.chat_id row = Message.chat_id old ->
    Message.created_at row = Message.created_at old ->
    (Message.content row <> Message.content old ->
     Message.sender_id old = User.id current_user
     /\ exists message_update,
          call = UpdateMessage (Message.id old) message_update
          /\ MessageUpdate.content message_update
             = Some (Message.content row)) ->
    (Message.is_read row <> Message.is_read old ->
     call = MarkRead (Message.id old)
     /\ Message.is_read row = true
     /\ is_member db (User.id current_user) (Message.chat_id old)) ->
    messages_step call current_user db db'.

(** Newest first: no entry is older than one that follows it. *)
Fixpoint newest_first (rows : list MessageDetail.t) : Prop :=
  match rows with
  | [] => True
  | d :: rest =>
      (forall d', In d' rest ->
                  MessageDetail.created_at d' <= MessageDetail.created_at d)
      /\ newest_first rest
  end.

(** The entry that the listing shows for message [m] sent by user [u]. *)
Definition listed (db : DB) (chat_id : Z) (d : MessageDetail.t) : Prop :=
  exists m u,
    In m (messages db) /\ In u (users db)
    /\ Message.chat_id m = chat_id
    /\ User.id u = Message.sender_id m
    /\ d = msg_dict m (User.username u).

(** Every membership row belongs to a chat row. *)
Definition memberships_have_chat (db : DB) : Prop :=
  forall uc, In uc (users_chats db) ->
             In (UserChat.chat_id uc) (map Chat.id (chats db)).

(** The entry that [read_user_chats] builds for [chat_id]. *)
Definition chat_detail (db : DB) (chat_id : Z) : option ChatDetail.t :=
  match lookup_chat db chat_id with
  | None => None
  | Some chat =>
      Some (ChatDetail.mk (Chat.id chat) (Chat.name chat)
              (Chat.is_group chat) (Chat.created_at chat)
              (Chat.updated_at chat)
              (filter (fun u =>
                         existsb (is_membership (User.id u) chat_id)
                                 (users_chats db))
                      (users db))
              (newest (messages_of db chat_id)))
  end.

(** The chat ids of the user's membership rows, in the order of the rows. *)
Definition chat_ids_of (db : DB) (user_id : Z) : list Z :=
  map UserChat.chat_id
      (filter (fun uc => UserChat.user_id uc =? user_id) (users_chats db)).

(** The entries for a list of chat ids, in its order. *)
Definition chat_details_of (db : DB) (chat_ids : list Z)
  : list ChatDetail.t :=
  flat_map (fun chat_id =>
              match chat_detail db chat_id with
              | Some d => [d]
              | None => []
              end)
           chat_ids.

(** The chat that a call creates with its creator as only member: its id,
    in a list that is empty for every other call and for a [create_chat]
    that fails or has two members or more. *)
Definition created_alone (call : Call) (current_user : User.t) (db : DB)
  : list Z :=
  match call with
  | CreateChat chat =>
      match chats.create_chat chat current_user db with
      | (Ok row, _) =>
          if Nat.ltb (List.length (create_chat_ids chat current_user)) 2
          then [Chat.id row] else []
      | (Raise _, _) => []
      end
  | _ => []
  end.

(** The reachable stores, together with the ids of the chats that the
    calls of the run created with the creator as only member. *)
Inductive reachable_solo : list Z -> DB -> Prop :=
| solo_start db :
    no_chats_yet db -> reachable_solo [] db
| solo_call solo db call current_user :
    reachable_solo solo db ->
    reachable_solo (created_alone call current_user db ++ solo)
                   (handle call current_user db)
| solo_tick solo db t :
    reachable_solo solo db -> reachable_solo solo (set_now t db).

(** ** Sample data *)

Definition alice : User.t := User.mk 1 "alice" true.
Definition bob : User.t := User.mk 2 "bob" true.
Definition carol : User.t := User.mk 3 "carol" true.
Definition dave : User.t := User.mk 4 "dave" true.

(** Four registered users and nothing else; the sequences start at 1. *)
Definition db_users : DB :=
  mkDB [alice; bob; carol; dave] [] [] [] [] 1 1 1 1 1000.

(** The store after alice has created the group chat "trio" with bob and
    carol: chat 1 with memberships bob, carol, alice (admin). *)
Definition db_trio : DB :=
  snd (chats.create_chat (ChatCreate.mk (Some "trio") true [2; 3]) alice
                         db_users).

(** The store after alice, alone, has asked for a chat without naming any
    other member. *)
Definition db_alone : DB :=
  handle (CreateChat (ChatCreate.mk None false [])) alice db_users.

(** [db_trio] after bob has sent "hi" to the chat: message 1, unread. *)
Definition db_trio_hi : DB :=
  handle (CreateMessage (MessageCreate.mk "hi" 1)) bob db_trio.

(** Alice's allow-list holds one entry, for 10.0.0.5, described "home" and
    deactivated. *)
Definition db_ip_inactive : DB :=
  mkDB [alice; bob; carol; dave] [] [] []
       [AuthorizedIP.mk 1 1 "10.0.0.5" (Some "home") false 900 None]
       1 1 1 2 1000.

(** Alice's allow-list holds one active entry, for 10.0.0.5. *)
Definition db_ip_active : DB :=
  mkDB [alice; bob; carol; dave] [] [] []
       [AuthorizedIP.mk 1 1 "10.0.0.5" (Some "home") true 900 None]
       1 1 1 2 1000.

(** The store after alice has created a chat alone and then the group chat
    "trio" with bob and carol: chat 1 with one member, chat 2 with three. *)
Definition db_mixed : DB :=
  handle (CreateChat (ChatCreate.mk (Some "trio") true [2; 3])) alice
         db_alone.

(** * Properties *)

(** ** Lists of rows *)

Lemma mem_In (x : Z) (l : list Z) : mem x l = true <-> In x l.
Proof.
  unfold mem. rewrite existsb_exists. split.
  - intros [y [Hy Heq]]. apply Z.eqb_eq in Heq. now subst.
  - intros Hin. exists x. split; [assumption | apply Z.eqb_refl].
Qed.

Lemma mem_false (x : Z) (l : list Z) : mem x l = false <-> ~ In x l.
Proof.
  rewrite <- mem_In. destruct (mem x l); split; congruence.
Qed.

Lemma NoDup_map_filter {Row Key} (key : Row -> Key) (keep : Row -> bool)
  (rows : list Row) (Hpk : NoDup (map key rows)) :
  NoDup (map key (filter keep rows)).
Proof.
  induction rows as [|r rows IH]; simpl in *; [constructor|].
  inversion Hpk as [|? ? Hfresh Hpk']; subst.
  destruct (keep r); simpl; [constructor|]; auto.
  intros Hin. apply Hfresh. apply in_map_iff in Hin.
  destruct Hin as [r' [Hkey Hin]]. apply filter_In in Hin.
  apply in_map_iff. exists r'. tauto.
Qed.

Lemma nodup_length_le (l : list Z) :
  (List.length (nodup Z.eq_dec l) <= List.length l)%nat.
Proof.
  induction l as [|a l IH]; simpl; [lia|].
  destruct (in_dec Z.eq_dec a l); simpl; lia.
Qed.

Lemma nodup_length_lt (l : list Z) :
  ~ NoDup l -> (List.length (nodup Z.eq_dec l) < List.length l)%nat.
Proof.
  induction l as [|a l IH]; simpl; intros Hdup.
  - exfalso. apply Hdup. constructor.
  - pose proof (nodup_length_le l) as Hle.
    destruct (in_dec Z.eq_dec a l) as [Hin|Hin]; simpl; [lia|].
    assert (~ NoDup l) as Hl.
    { intros Hnd. apply Hdup. now constructor. }
    specialize (IH Hl). lia.
Qed.

Lemma users_in_incl (user_ids : list Z) (db : DB) :
  incl (map User.id (users_in user_ids db)) (nodup Z.eq_dec user_ids).
Proof.
  intros x Hin. apply in_map_iff in Hin. destruct Hin as [u [Hu Hin]].
  apply filter_In in Hin. destruct Hin as [_ Hmem].
  apply nodup_In. apply mem_In in Hmem. now subst.
Qed.

Lemma users_in_length_le (user_ids : list Z) (db : DB) :
  NoDup (map User.id (users db)) ->
  (List.length (users_in user_ids db)
   <= List.length (nodup Z.eq_dec user_ids))%nat.
Proof.
  intros Hpk.
  rewrite <- (length_map User.id (users_in user_ids db)).
  apply NoDup_incl_length.
  - unfold users_in. now apply NoDup_map_filter.
  - apply users_in_incl.
Qed.

(** A repeated id makes the fetched rows fewer than the requested ids. *)
Lemma users_in_length_dup (user_ids : list Z) (db : DB) :
  NoDup (map User.id (users db)) ->
  ~ NoDup user_ids ->
  (List.length (users_in user_ids db) < List.length user_ids)%nat.
Proof.
  intros Hpk Hdup.
  pose proof (users_in_length_le user_ids db Hpk).
  pose proof (nodup_length_lt user_ids Hdup). lia.
Qed.

(** So does an id that no user row carries. *)
Lemma users_in_length_missing (user_ids : list Z) (db : DB) (x : Z) :
  NoDup (map User.id (users db)) ->
  In x user_ids -> ~ In x (map User.id (users db)) ->
  (List.length (users_in user_ids db) < List.length user_ids)%nat.
Proof.
  intros Hpk Hin Hmiss.
  rewrite <- (length_map User.id (users_in user_ids db)).
  apply Nat.le_lt_trans
    with (List.length (remove Z.eq_dec x (nodup Z.eq_dec user_ids))).
  - apply NoDup_incl_length.
    + unfold users_in. now apply NoDup_map_filter.
    + intros y Hy. apply in_in_remove.
      * intros ->. apply Hmiss. apply in_map_iff in Hy.
        destruct Hy as [u [Hu Hy]]. apply filter_In in Hy.
        apply in_map_iff. exists u. tauto.
      * now apply (users_in_incl user_ids db).
  - apply Nat.lt_le_trans with (List.length (nodup Z.eq_dec user_ids)).
    + apply remove_length_lt. now apply nodup_In.
    + apply nodup_length_le.
Qed.

(** Distinct ids that all exist are all fetched. *)
Lemma users_in_length_all (user_ids : list Z) (db : DB) :
  NoDup (map User.id (users db)) ->
  NoDup user_ids ->
  (forall x, In x user_ids -> In x (map User.id (users db))) ->
  List.length (users_in user_ids db) = List.length user_ids.
Proof.
  intros Hpk Hnd Hall. apply Nat.le_antisymm.
  - pose proof (users_in_length_le user_ids db Hpk).
    pose proof (nodup_length_le user_ids). lia.
  - rewrite <- (length_map User.id (users_in user_ids db)).
    apply NoDup_incl_length; [assumption|].
    intros x Hx. specialize (Hall x Hx). apply in_map_iff in Hall.
    destruct Hall as [u [Hu Hin]]. apply in_map_iff. exists u.
    split; [assumption|]. apply filter_In. split; [assumption|].
    apply mem_In. now subst.
Qed.

Lemma len_ne_true {A B} (l : list A) (l' : list B) :
  len_ne l l' = true <-> List.length l <> List.length l'.
Proof.
  unfold len_ne. rewrite negb_true_iff, Nat.eqb_neq. tauto.
Qed.

Lemma len_ne_false {A B} (l : list A) (l' : list B) :
  len_ne l l' = false <-> List.length l = List.length l'.
Proof.
  unfold len_ne. rewrite negb_false_iff, Nat.eqb_eq. tauto.
Qed.

(** ** Running the handlers *)

Ltac run :=
  cbv [bind ret raise raise_if query execute is_none delete_user_chat
       delete_message_row]; simpl.

Lemma db_eta (db : DB) :
  mkDB (users db) (chats db) (users_chats db) (messages db)
       (authorized_ips db) (chats_id_seq db) (users_chats_id_seq db)
       (messages_id_seq db) (authorized_ips_id_seq db) (now db) = db.
Proof. now destruct db. Qed.

Lemma for_each_add_user_chat (ids : list Z) (chat_id : Z) (f : Z -> bool)
  (db : DB) :
  for_each ids (fun user_id => add_user_chat user_id chat_id (f user_id)) db
  = (Ok tt,
     mkDB (users db) (chats db)
          (users_chats db
           ++ membership_rows (users_chats_id_seq db) chat_id f (now db) ids)
          (messages db) (authorized_ips db) (chats_id_seq db)
          (users_chats_id_seq db + Z.of_nat (List.length ids))
          (messages_id_seq db) (authorized_ips_id_seq db) (now db)).
Proof.
  revert db. induction ids as [|uid ids IH]; intros db.
  - simpl. unfold ret. rewrite app_nil_r, Z.add_0_r. now rewrite db_eta.
  - cbn [for_each]. unfold bind at 1. unfold add_user_chat at 1.
    rewrite IH. cbn [users chats users_chats messages authorized_ips
                     chats_id_seq users_chats_id_seq messages_id_seq
                     authorized_ips_id_seq now membership_rows List.length].
    rewrite <- app_assoc. cbn [app].
    do 2 f_equal. lia.
Qed.

Lemma create_chat_run (chat : ChatCreate.t) (current_user : User.t)
  (db : DB) :
  chats.create_chat chat current_user db =
  let ids := create_chat_ids chat current_user in
  if len_ne (users_in ids db) ids
  then (Raise (HTTPException HTTP_404_NOT_FOUND
                             "One or more users not found"), db)
  else
    let row := Chat.mk (chats_id_seq db) (ChatCreate.name chat)
                       (ChatCreate.is_group chat) (now db) None in
    (Ok row,
     mkDB (users db) (chats db ++ [row])
          (users_chats db
           ++ membership_rows (users_chats_id_seq db) (chats_id_seq db)
                (fun uid => uid =? User.id current_user) (now db) ids)
          (messages db) (authorized_ips db) (chats_id_seq db + 1)
          (users_chats_id_seq db + Z.of_nat (List.length ids))
          (messages_id_seq db) (authorized_ips_id_seq db) (now db)).
Proof.
  unfold chats.create_chat. fold (create_chat_ids chat current_user).
  cbv zeta. unfold bind at 1, query at 1. fold (users_in (create_chat_ids chat current_user) db).
  unfold bind at 1, raise_if.
  destruct (len_ne _ _); [reflexivity|].
  unfold ret at 1. unfold bind at 1, add_chat at 1.
  unfold bind at 1. rewrite for_each_add_user_chat. reflexivity.
Qed.

Lemma create_chat_ids_In (chat : ChatCreate.t) (current_user : User.t)
  (x : Z) :
  In x (create_chat_ids chat current_user)
  <-> In x (ChatCreate.user_ids chat) \/ x = User.id current_user.
Proof.
  unfold create_chat_ids.
  destruct (mem (User.id current_user) (ChatCreate.user_ids chat)) eqn:Hmem;
    simpl.
  - apply mem_In in Hmem. split; [tauto|]. intros [H| ->]; assumption.
  - rewrite in_app_iff. simpl. intuition congruence.
Qed.

Lemma membership_rows_user_ids (seq chat_id : Z) (f : Z -> bool) (t : Z)
  (ids : list Z) :
  map UserChat.user_id (membership_rows seq chat_id f t ids) = ids.
Proof.
  revert seq. induction ids as [|uid ids IH]; intros seq; simpl;
    [reflexivity | now rewrite IH].
Qed.

Lemma membership_rows_In (seq chat_id : Z) (f : Z -> bool) (t : Z)
  (ids : list Z) (uc : UserChat.t) :
  In uc (membership_rows seq chat_id f t ids) ->
  UserChat.chat_id uc = chat_id
  /\ UserChat.is_admin uc = f (UserChat.user_id uc)
  /\ In (UserChat.user_id uc) ids
  /\ seq <= UserChat.id uc < seq + Z.of_nat (List.length ids).
Proof.
  revert seq. induction ids as [|uid ids IH]; intros seq; simpl;
    [tauto|].
  intros [<- | Hin]; simpl.
  - repeat split; auto; lia.
  - destruct (IH _ Hin) as (H1 & H2 & H3 & H4). repeat split; auto; lia.
Qed.

Lemma membership_rows_length (seq chat_id : Z) (f : Z -> bool) (t : Z)
  (ids : list Z) :
  List.length (membership_rows seq chat_id f t ids) = List.length ids.
Proof.
  rewrite <- (membership_rows_user_ids seq chat_id f t ids) at 2.
  now rewrite length_map.
Qed.

(** ** C3: what [create_chat] writes *)

(** C3.  [create_chat] works with the requested ids plus the creator; when
    one of them is no user's id it raises 404 and leaves the store as it
    was; when they are distinct ids of users it succeeds; and when it
    succeeds it appends the chat row and exactly one membership row per id,
    each for the new chat, the creator's with [is_admin = true] and every
    other with [is_admin = false]. *)
Theorem create_chat_memberships (chat : ChatCreate.t) (current_user : User.t)
  (db : DB) :
  users_pk db ->
  let ids := create_chat_ids chat current_user in
  In (User.id current_user) ids
  /\ (forall x, In x (ChatCreate.user_ids chat) -> In x ids)
  /\ ((exists x, In x ids /\ ~ In x (map User.id (users db))) ->
      chats.create_chat chat current_user db
      = (Raise (HTTPException HTTP_404_NOT_FOUND
                              "One or more users not found"), db))
  /\ (NoDup ids -> (forall x, In x ids -> In x (map User.id (users db))) ->
      exists row db', chats.create_chat chat current_user db = (Ok row, db'))
  /\ (forall row db',
        chats.create_chat chat current_user db = (Ok row, db') ->
        exists rows,
          chats db' = chats db ++ [row]
          /\ users_chats db' = users_chats db ++ rows
          /\ map UserChat.user_id rows = ids
          /\ (forall uc, In uc rows ->
                UserChat.chat_id uc = Chat.id row
                /\ (UserChat.user_id uc = User.id current_user ->
                    UserChat.is_admin uc = true)
                /\ (UserChat.user_id uc <> User.id current_user ->
                    UserChat.is_admin uc = false))).
Proof.
  intros Hpk ids.
  assert (Hcreator : In (User.id current_user) ids).
  { apply create_chat_ids_In. now right. }
  split; [exact Hcreator|].
  split; [intros x Hx; apply create_chat_ids_In; now left|].
  rewrite create_chat_run. fold ids. cbv zeta.
  split; [|split].
  - intros [x [Hin Hmiss]].
    pose proof (users_in_length_missing ids db x Hpk Hin Hmiss) as Hlt.
    assert (len_ne (users_in ids db) ids = true) as ->
      by (apply len_ne_true; lia).
    reflexivity.
  - intros Hnd Hall.
    pose proof (users_in_length_all ids db Hpk Hnd Hall) as Heq.
    apply len_ne_false in Heq. rewrite Heq. eauto.
  - intros row db'. destruct (len_ne (users_in ids db) ids); [discriminate|].
    intros Heq. injection Heq as <- <-. cbn [chats users_chats Chat.id].
    eexists. split; [reflexivity|]. split; [reflexivity|].
    split; [apply membership_rows_user_ids|].
    intros uc Huc. apply membership_rows_In in Huc.
    destruct Huc as (Hc & Ha & _ & _). split; [assumption|].
    rewrite Ha. split.
    + intros ->. apply Z.eqb_refl.
    + intros Hne. now apply Z.eqb_neq.
Qed.

(** The theorem at a request by alice for a chat with bob and carol. *)
Lemma create_chat_memberships_witness :
  users_pk db_users
  /\ exists row db',
       chats.create_chat (ChatCreate.mk (Some "trio") true [2; 3]) alice
                         db_users = (Ok row, db')
       /\ exists rows,
            users_chats db' = users_chats db_users ++ rows
            /\ map UserChat.user_id rows = [2; 3; 1].
Proof.
  assert (Hpk : users_pk db_users).
  { unfold users_pk. simpl.
    repeat (constructor; [simpl; intuition discriminate|]). constructor. }
  split; [exact Hpk|].
  destruct (create_chat_memberships (ChatCreate.mk (Some "trio") true [2; 3])
              alice db_users Hpk) as (_ & _ & _ & Hok & Hrows).
  destruct Hok as (row & db' & Hrun).
  - repeat (constructor; [simpl; intuition discriminate|]). constructor.
  - simpl. intuition.
  - exists row, db'. split; [exact Hrun|].
    destruct (Hrows row db' Hrun) as (rows & _ & Huc & Hids & _).
    exists rows. split; assumption.
Defined.

(** ** C10: a repeated id in the request *)

Lemma has_duplicate_not_NoDup (ids : list Z) :
  has_duplicate ids -> ~ NoDup ids.
Proof.
  intros [x Hx] Hnd.
  apply (proj1 (NoDup_count_occ Z.eq_dec ids)) with (x := x) in Hnd. lia.
Qed.

Lemma is_admin_member_find (db : DB) (user_id chat_id : Z) :
  is_admin_member db user_id chat_id
  <-> find (is_admin_membership user_id chat_id) (users_chats db) <> None.
Proof.
  unfold is_admin_member, is_admin_membership. split.
  - intros (uc & Hin & Hu & Hc & Ha) Hnone.
    apply (find_none _ _ Hnone) in Hin.
    rewrite Hu, Hc, Ha, !Z.eqb_refl in Hin. discriminate.
  - destruct (find _ _) as [uc|] eqn:Hfind; [intros _ | congruence].
    apply find_some in Hfind. destruct Hfind as [Hin Hp].
    apply andb_true_iff in Hp. destruct Hp as [Hp Ha].
    apply andb_true_iff in Hp. destruct Hp as [Hu Hc].
    exists uc. apply Z.eqb_eq in Hu, Hc. apply eqb_prop in Ha. auto.
Qed.

Lemma is_member_find (db : DB) (user_id chat_id : Z) :
  is_member db user_id chat_id
  <-> find (is_membership user_id chat_id) (users_chats db) <> None.
Proof.
  unfold is_member, is_membership. split.
  - intros (uc & Hin & Hu & Hc) Hnone.
    apply (find_none _ _ Hnone) in Hin.
    rewrite Hu, Hc, !Z.eqb_refl in Hin. discriminate.
  - destruct (find _ _) as [uc|] eqn:Hfind; [intros _ | congruence].
    apply find_some in Hfind. destruct Hfind as [Hin Hp].
    apply andb_true_iff in Hp. destruct Hp as [Hu Hc].
    exists uc. apply Z.eqb_eq in Hu, Hc. auto.
Qed.

Lemma add_users_to_chat_run (chat_id : Z) (chat_add_users : ChatAddUsers.t)
  (current_user : User.t) (db : DB) :
  chats.add_users_to_chat chat_id chat_add_users current_user db =
  match find (is_admin_membership (User.id current_user) chat_id)
             (users_chats db) with
  | None =>
      (Raise (HTTPException HTTP_403_FORBIDDEN
                            "User is not an admin of this chat"), db)
  | Some _ =>
      match lookup_chat db chat_id with
      | None =>
          (Raise (HTTPException HTTP_404_NOT_FOUND "Chat not found"), db)
      | Some chat =>
          if negb (Chat.is_group chat) then
            (Raise (HTTPException HTTP_400_BAD_REQUEST
                                  "Cannot add users to individual chat"), db)
          else
            let ids := ChatAddUsers.user_ids chat_add_users in
            if len_ne (users_in ids db) ids then
              (Raise (HTTPException HTTP_404_NOT_FOUND
                                    "One or more users not found"), db)
            else
              (Ok chat,
               mkDB (users db) (chats db)
                    (users_chats db
                     ++ membership_rows (users_chats_id_seq db) chat_id
                          (fun _ => false) (now db)
                          (new_user_ids db chat_id ids))
                    (messages db) (authorized_ips db) (chats_id_seq db)
                    (users_chats_id_seq db
                     + Z.of_nat (List.length (new_user_ids db chat_id ids)))
                    (messages_id_seq db) (authorized_ips_id_seq db) (now db))
      end
  end.
Proof.
  unfold chats.add_users_to_chat, lookup_chat.
  unfold bind at 1, query at 1.
  destruct (find (is_admin_membership _ _) _); run; [|reflexivity].
  destruct (find (fun c => Chat.id c =? chat_id) (chats db)) as [chat|];
    [|reflexivity].
  destruct (Chat.is_group chat); simpl; [|reflexivity].
  fold (users_in (ChatAddUsers.user_ids chat_add_users) db).
  destruct (len_ne _ _); simpl; [reflexivity|].
  fold (new_user_ids db chat_id (ChatAddUsers.user_ids chat_add_users)).
  rewrite for_each_add_user_chat. reflexivity.
Qed.

(** C10 as stated fails for [add_users_to_chat]: bob is a member of chat 1
    but not an admin of it, dave exists, and bob's request to add dave
    twice is answered 403, not 404. *)
Lemma add_users_duplicate_forbidden_first :
  has_duplicate [4; 4]
  /\ In 4 (map User.id (users db_trio))
  /\ chats.add_users_to_chat 1 (ChatAddUsers.mk [4; 4]) bob db_trio
     = (Raise (HTTPException HTTP_403_FORBIDDEN
                             "User is not an admin of this chat"), db_trio).
Proof.
  split; [exists 4; simpl; lia|].
  split; [simpl; tauto|].
  vm_compute. reflexivity.
Qed.

(** C10, amended.  With a repeated id in the request, [create_chat] raises
    404 "One or more users not found" and [add_users_to_chat] raises too,
    both leaving the store as it was, whether or not the ids are those of
    users.  [add_users_to_chat] raises the error of the first check that
    fails: 403 "User is not an admin of this chat" when the requester has
    no admin membership in the chat; else 404 "Chat not found" when the
    chat row is missing; else 400 "Cannot add users to individual chat"
    when the chat is not a group; else, all these checks passed, the 404
    "One or more users not found".  So it raises that 404 exactly when the
    requester is an admin of the chat and the chat row exists and is a
    group chat. *)
Theorem duplicate_ids_rejected (db : DB) :
  users_pk db ->
  (forall chat current_user,
      has_duplicate (ChatCreate.user_ids chat) ->
      chats.create_chat chat current_user db
      = (Raise (HTTPException HTTP_404_NOT_FOUND
                              "One or more users not found"), db))
  /\ (forall chat_id chat_add_users current_user,
        has_duplicate (ChatAddUsers.user_ids chat_add_users) ->
        let run :=
          chats.add_users_to_chat chat_id chat_add_users current_user db in
        (~ is_admin_member db (User.id current_user) chat_id ->
         run = (Raise (HTTPException HTTP_403_FORBIDDEN
                                     "User is not an admin of this chat"),
                db))
        /\ (is_admin_member db (User.id current_user) chat_id ->
            lookup_chat db chat_id = None ->
            run = (Raise (HTTPException HTTP_404_NOT_FOUND "Chat not found"),
                   db))
        /\ (forall chat,
              is_admin_member db (User.id current_user) chat_id ->
              lookup_chat db chat_id = Some chat ->
              Chat.is_group chat = false ->
              run = (Raise (HTTPException HTTP_400_BAD_REQUEST
                              "Cannot add users to individual chat"), db))
        /\ (forall chat,
              is_admin_member db (User.id current_user) chat_id ->
              lookup_chat db chat_id = Some chat ->
              Chat.is_group chat = true ->
              run = (Raise (HTTPException HTTP_404_NOT_FOUND
                                          "One or more users not found"),
                     db))
        /\ exists e,
             run = (Raise e, db)
             /\ (e = HTTPException HTTP_404_NOT_FOUND
                                   "One or more users not found"
                 <-> is_admin_member db (User.id current_user) chat_id
                     /\ exists chat, lookup_chat db chat_id = Some chat
                                     /\ Chat.is_group chat = true)).
Proof.
  intros Hpk. split.
  - intros chat current_user Hdup. rewrite create_chat_run. cbv zeta.
    assert (~ NoDup (create_chat_ids chat current_user)) as Hnd.
    { unfold create_chat_ids. apply has_duplicate_not_NoDup in Hdup.
      destruct (negb _); [|assumption].
      intros Hnd. apply Hdup. now apply NoDup_app_remove_r in Hnd. }
    pose proof (users_in_length_dup _ db Hpk Hnd) as Hlt.
    assert (len_ne (users_in (create_chat_ids chat current_user) db)
                   (create_chat_ids chat current_user) = true) as ->
      by (apply len_ne_true; lia).
    reflexivity.
  - intros chat_id chat_add_users current_user Hdup. cbv zeta.
    rewrite add_users_to_chat_run.
    pose proof (is_admin_member_find db (User.id current_user) chat_id)
      as Hadmin.
    apply has_duplicate_not_NoDup in Hdup.
    pose proof (users_in_length_dup _ db Hpk Hdup) as Hlt.
    assert (Hlen : len_ne (users_in (ChatAddUsers.user_ids chat_add_users)
                                    db)
                          (ChatAddUsers.user_ids chat_add_users) = true)
      by (apply len_ne_true; lia).
    destruct (find (is_admin_membership _ _) _) as [uc|].
    2:{ assert (Hno : ~ is_admin_member db (User.id current_user) chat_id)
          by (intros Habs; apply Hadmin in Habs; now elim Habs).
        split; [reflexivity|].
        split; [intros Habs; contradiction|].
        split; [intros chat Habs; contradiction|].
        split; [intros chat Habs; contradiction|].
        eexists. split; [reflexivity|]. split; [discriminate|].
        intros [Habs _]. contradiction. }
    assert (Hyes : is_admin_member db (User.id current_user) chat_id)
      by (apply Hadmin; discriminate).
    split; [intros Habs; contradiction|].
    destruct (lookup_chat db chat_id) as [chat|].
    2:{ split; [reflexivity|].
        split; [discriminate|]. split; [discriminate|].
        eexists. split; [reflexivity|]. split; [discriminate|].
        intros [_ [chat [Habs _]]]. discriminate. }
    split; [discriminate|].
    destruct (Chat.is_group chat) eqn:Hgroup; simpl.
    2:{ split; [intros chat' _ Heq _; reflexivity|].
        split; [intros chat' _ Heq Hg; congruence|].
        eexists. split; [reflexivity|]. split; [discriminate|].
        intros [_ [chat' [Heq Hg]]]. congruence. }
    cbv zeta. rewrite Hlen.
    split; [intros chat' _ Heq Hg; congruence|].
    split; [reflexivity|].
    eexists. split; [reflexivity|]. split; [intros _|reflexivity].
    split; [exact Hyes|]. exists chat. auto.
Qed.

(** The amended claim at alice's requests on [db_trio]: a new chat with bob
    named twice, and dave added twice to chat 1, of which she is the admin;
    and dave added twice by bob, who is no admin. *)
Lemma duplicate_ids_rejected_witness :
  users_pk db_trio
  /\ has_duplicate [2; 2]
  /\ has_duplicate [4; 4]
  /\ chats.create_chat (ChatCreate.mk None false [2; 2]) alice db_trio
     = (Raise (HTTPException HTTP_404_NOT_FOUND
                             "One or more users not found"), db_trio)
  /\ chats.add_users_to_chat 1 (ChatAddUsers.mk [4; 4]) alice db_trio
     = (Raise (HTTPException HTTP_404_NOT_FOUND
                             "One or more users not found"), db_trio)
  /\ exists e,
       chats.add_users_to_chat 1 (ChatAddUsers.mk [4; 4]) bob db_trio
       = (Raise e, db_trio).
Proof.
  assert (Hpk : users_pk db_trio).
  { unfold users_pk. simpl.
    repeat (constructor; [simpl; intuition discriminate|]). constructor. }
  assert (H2 : has_duplicate [2; 2]) by (exists 2; simpl; lia).
  assert (H4 : has_duplicate [4; 4]) by (exists 4; simpl; lia).
  assert (Hadmin : is_admin_member db_trio (User.id alice) 1).
  { exists (UserChat.mk 3 1 1 true 1000). simpl. tauto. }
  destruct (duplicate_ids_rejected db_trio Hpk) as [Hcreate Hadd].
  split; [exact Hpk|]. split; [exact H2|]. split; [exact H4|]. split.
  - exact (Hcreate (ChatCreate.mk None false [2; 2]) alice H2).
  - split.
    + destruct (Hadd 1 (ChatAddUsers.mk [4; 4]) alice H4)
        as (_ & _ & _ & Hgroup & _).
      exact (Hgroup (Chat.mk 1 (Some "trio") true 1000 None) Hadmin eq_refl
               eq_refl).
    + destruct (Hadd 1 (ChatAddUsers.mk [4; 4]) bob H4)
        as (_ & _ & _ & _ & e & He & _).
      exists e. exact He.
Defined.

(** ** Removing a member *)

Lemma filter_all_false {Row} (keep : Row -> bool) (rows : list Row) :
  (forall r, In r rows -> keep r = false) -> filter keep rows = [].
Proof.
  induction rows as [|r rows IH]; simpl; intros Hall; [reflexivity|].
  rewrite (Hall r) by now left. apply IH. intros r' Hin. apply Hall.
  now right.
Qed.

Lemma remove_user_from_chat_run (chat_id user_id : Z) (current_user : User.t)
  (db : DB) :
  chats.remove_user_from_chat chat_id user_id current_user db =
  if negb (User.id current_user =? user_id)
     && is_none (find (is_admin_membership (User.id current_user) chat_id)
                      (users_chats db))
  then (Raise (HTTPException HTTP_403_FORBIDDEN
                             "User is not an admin of this chat"), db)
  else
    match find (is_membership user_id chat_id) (users_chats db) with
    | None =>
        (Raise (HTTPException HTTP_404_NOT_FOUND "User not found in chat"),
         db)
    | Some user_chat =>
        let rest :=
          filter (fun uc => negb (UserChat.id uc =? UserChat.id user_chat))
                 (users_chats db) in
        if Nat.leb (List.length
                      (filter (fun uc => UserChat.chat_id uc =? chat_id) rest))
                   1
        then
          (Ok tt,
           mkDB (users db)
                (filter (fun c => negb (Chat.id c =? chat_id)) (chats db))
                (filter (fun uc => negb (UserChat.chat_id uc =? chat_id)) rest)
                (filter (fun m => negb (Message.chat_id m =? chat_id))
                        (messages db))
                (authorized_ips db) (chats_id_seq db) (users_chats_id_seq db)
                (messages_id_seq db) (authorized_ips_id_seq db) (now db))
        else (Ok tt, set_users_chats rest db)
    end.
Proof.
  unfold chats.remove_user_from_chat. cbv zeta.
  destruct (User.id current_user =? user_id); run.
  - destruct (find (is_membership user_id chat_id) (users_chats db));
      [|reflexivity].
    destruct (Nat.leb _ 1); reflexivity.
  - destruct (find (is_admin_membership _ _) (users_chats db)); simpl;
      [|reflexivity].
    destruct (find (is_membership user_id chat_id) (users_chats db));
      [|reflexivity].
    destruct (Nat.leb _ 1); reflexivity.
Qed.

(** What a successful removal leaves of the chat: two memberships or more,
    or nothing at all. *)
Lemma remove_user_from_chat_cascade (chat_id user_id : Z)
  (current_user : User.t) (db db' : DB) :
  chats.remove_user_from_chat chat_id user_id current_user db = (Ok tt, db') ->
  (2 <= member_count db' chat_id)%nat
  \/ (~ chat_exists db' chat_id
      /\ messages_of db' chat_id = []
      /\ memberships_of db' chat_id = []).
Proof.
  rewrite remove_user_from_chat_run.
  destruct (_ && _); [discriminate|].
  destruct (find _ _) as [user_chat|]; [|discriminate]. cbv zeta.
  destruct (Nat.leb _ 1) eqn:Hcount; intros Heq; injection Heq as <-.
  - right. unfold chat_exists, messages_of, memberships_of. simpl.
    split; [|split].
    + intros (c & Hin & Hid). apply filter_In in Hin.
      destruct Hin as [_ Hne]. rewrite Hid, Z.eqb_refl in Hne. discriminate.
    + apply filter_all_false. intros m Hin. apply filter_In in Hin.
      now apply negb_true_iff.
    + apply filter_all_false. intros uc Hin. apply filter_In in Hin.
      now apply negb_true_iff.
  - left. unfold member_count, memberships_of. simpl.
    apply Nat.leb_gt in Hcount. lia.
Qed.

(** ** Handlers that do not touch the memberships *)

Ltac break_match :=
  match goal with
  | |- context [match ?x with _ => _ end] =>
      lazymatch x with
      | context [match _ with _ => _ end] => fail
      | _ => destruct x eqn:?
      end
  end.

Ltac frame :=
  unfold same_memberships; run; repeat (break_match; simpl);
  repeat split; reflexivity.

Lemma commit_chat_ids (old new : Chat.t) (db : DB) :
  Chat.id new = Chat.id old ->
  same_memberships db (snd (commit_chat old new db)).
Proof.
  intros Hid. unfold commit_chat, same_memberships.
  destruct (Chat_eq_dec old new); simpl; [auto|].
  repeat split. induction (chats db) as [|c l IH]; simpl; [reflexivity|].
  rewrite IH. f_equal.
  destruct (Chat.id c =? Chat.id old) eqn:Heq; [|reflexivity].
  simpl. apply Z.eqb_eq in Heq. congruence.
Qed.

Lemma update_chat_frame (chat_id : Z) (chat_update : ChatUpdate.t)
  (current_user : User.t) (db : DB) :
  same_memberships db
    (snd (chats.update_chat chat_id chat_update current_user db)).
Proof.
  unfold chats.update_chat. run.
  destruct (find _ (users_chats db)); simpl; [|frame].
  destruct (find _ (chats db)) as [chat|]; [|frame].
  apply commit_chat_ids. now destruct (ChatUpdate.name chat_update).
Qed.

Lemma create_message_frame (message : MessageCreate.t) (current_user : User.t)
  (db : DB) :
  same_memberships db (snd (messages.create_message message current_user db)).
Proof. unfold messages.create_message, add_message. frame. Qed.

Lemma update_message_frame (message_id : Z) (message_update : MessageUpdate.t)
  (current_user : User.t) (db : DB) :
  same_memberships db
    (snd (messages.update_message message_id message_update current_user db)).
Proof. unfold messages.update_message, commit_message. frame. Qed.

Lemma delete_message_frame (message_id : Z) (current_user : User.t) (db : DB) :
  same_memberships db (snd (messages.delete_message message_id current_user db)).
Proof. unfold messages.delete_message. frame. Qed.

Lemma mark_message_as_read_frame (message_id : Z) (current_user : User.t)
  (db : DB) :
  same_memberships db
    (snd (messages.mark_message_as_read message_id current_user db)).
Proof. unfold messages.mark_message_as_read, commit_message. frame. Qed.

Lemma register_authorized_ip_frame (user_id : Z) (ip_address : string)
  (description : option string) (db : DB) :
  same_memberships db
    (snd (user_service.register_authorized_ip user_id ip_address description
            db)).
Proof.
  unfold user_service.register_authorized_ip, commit_authorized_ip,
    add_authorized_ip_row. frame.
Qed.

Lemma check_ip_authorization_frame (user_id : Z) (ip_address : string)
  (db : DB) :
  same_memberships db
    (snd (user_service.check_ip_authorization user_id ip_address db)).
Proof.
  unfold user_service.check_ip_authorization, commit_authorized_ip. frame.
Qed.

Lemma deactivate_authorized_ip_frame (user_id : Z) (ip_address : string)
  (db : DB) :
  same_memberships db
    (snd (user_service.deactivate_authorized_ip user_id ip_address db)).
Proof.
  unfold user_service.deactivate_authorized_ip, commit_authorized_ip. frame.
Qed.

(** ** The membership table under the handlers *)

Lemma pk_unique {Row} (key : Row -> Z) (rows : list Row) (a b : Row) :
  NoDup (map key rows) -> In a rows -> In b rows -> key a = key b -> a = b.
Proof.
  induction rows as [|r rows IH]; simpl; [tauto|].
  intros Hnd Ha Hb Hkey. inversion Hnd as [|? ? Hfresh Hnd']; subst.
  destruct Ha as [-> | Ha], Hb as [-> | Hb]; auto.
  - exfalso. apply Hfresh. rewrite Hkey. now apply in_map.
  - exfalso. apply Hfresh. rewrite <- Hkey. now apply in_map.
Qed.

Lemma filter_filter_implied {Row} (q p : Row -> bool) (rows : list Row) :
  (forall r, In r rows -> q r = true -> p r = true) ->
  filter q (filter p rows) = filter q rows.
Proof.
  induction rows as [|r rows IH]; simpl; intros Himp; [reflexivity|].
  assert (IH' : filter q (filter p rows) = filter q rows).
  { apply IH. intros r' Hin. apply Himp. now right. }
  destruct (p r) eqn:Hp; simpl.
  - now rewrite IH'.
  - destruct (q r) eqn:Hq; [|exact IH'].
    rewrite (Himp r) in Hp by auto. discriminate.
Qed.

Lemma membership_rows_same_chat (seq chat_id : Z) (f : Z -> bool) (t : Z)
  (ids : list Z) :
  filter (fun uc => UserChat.chat_id uc =? chat_id)
         (membership_rows seq chat_id f t ids)
  = membership_rows seq chat_id f t ids.
Proof.
  revert seq. induction ids as [|uid ids IH]; intros seq; simpl;
    [reflexivity|]. rewrite Z.eqb_refl. now rewrite IH.
Qed.

Lemma membership_rows_pk (seq chat_id : Z) (f : Z -> bool) (t : Z)
  (ids : list Z) :
  NoDup (map UserChat.id (membership_rows seq chat_id f t ids)).
Proof.
  revert seq. induction ids as [|uid ids IH]; intros seq; simpl;
    constructor; [|apply IH].
  intros Hin. apply in_map_iff in Hin. destruct Hin as [uc [Hid Hin]].
  apply membership_rows_In in Hin. lia.
Qed.

Lemma users_chats_pk_append (db db' : DB) (chat_id : Z) (f : Z -> bool)
  (t : Z) (ids : list Z) :
  users_chats_pk db ->
  users_chats db'
  = users_chats db
    ++ membership_rows (users_chats_id_seq db) chat_id f t ids ->
  users_chats_id_seq db'
  = users_chats_id_seq db + Z.of_nat (List.length ids) ->
  users_chats_pk db'.
Proof.
  intros [Hnd Hlt] Hrows Hseq. unfold users_chats_pk.
  rewrite Hrows, Hseq, map_app. split.
  - apply NoDup_app; [assumption | apply membership_rows_pk|].
    intros k Hold Hnew. apply in_map_iff in Hold, Hnew.
    destruct Hold as [uc [<- Huc]], Hnew as [uc' [Heq Huc']].
    apply Hlt in Huc. apply membership_rows_In in Huc'. lia.
  - intros uc Hin. apply in_app_iff in Hin. destruct Hin as [Hin|Hin].
    + apply Hlt in Hin. lia.
    + apply membership_rows_In in Hin. lia.
Qed.

Lemma member_count_append (db db' : DB) (rows : list UserChat.t)
  (chat_id : Z) :
  users_chats db' = users_chats db ++ rows ->
  member_count db' chat_id
  = Nat.add (member_count db chat_id)
      (List.length (filter (fun uc => UserChat.chat_id uc =? chat_id) rows)).
Proof.
  intros Hrows. unfold member_count, memberships_of.
  now rewrite Hrows, filter_app, length_app.
Qed.

(** ** C1: chats and their member counts *)

Lemma member_count_same (db db' : DB) (chat_id : Z) :
  users_chats db' = users_chats db ->
  member_count db' chat_id = member_count db chat_id.
Proof. unfold member_count, memberships_of. now intros ->. Qed.

Lemma same_memberships_paired (n : nat) (db db' : DB) :
  same_memberships db db' ->
  chats_have n db /\ users_chats_pk db ->
  chats_have n db' /\ users_chats_pk db'.
Proof.
  intros (Huc & Hids & Hseq) [Hpaired Hpk]. split.
  - intros c Hin. rewrite (member_count_same db db') by assumption.
    apply (in_map Chat.id) in Hin. rewrite Hids in Hin.
    apply in_map_iff in Hin. destruct Hin as [c0 [<- Hin0]]. auto.
  - unfold users_chats_pk. now rewrite Huc, Hseq.
Qed.

Lemma create_chat_paired (n : nat) (chat : ChatCreate.t)
  (current_user : User.t) (db : DB) :
  (n <= List.length (create_chat_ids chat current_user))%nat ->
  chats_have n db /\ users_chats_pk db ->
  chats_have n (snd (chats.create_chat chat current_user db))
  /\ users_chats_pk (snd (chats.create_chat chat current_user db)).
Proof.
  intros Htwo [Hpaired Hpk]. rewrite create_chat_run. cbv zeta.
  destruct (len_ne _ _); simpl; [auto|].
  set (rows := membership_rows _ _ _ _ _).
  set (db' := mkDB _ _ _ _ _ _ _ _ _ _).
  split.
  - intros c Hin.
    rewrite (member_count_append db db' rows) by reflexivity.
    apply in_app_iff in Hin. destruct Hin as [Hin | [<- | []]].
    + specialize (Hpaired c Hin). lia.
    + simpl. unfold rows. rewrite membership_rows_same_chat,
        membership_rows_length. lia.
  - now apply (users_chats_pk_append db db' (chats_id_seq db)
                 (fun uid => uid =? User.id current_user) (now db)
                 (create_chat_ids chat current_user)).
Qed.

Lemma add_users_to_chat_paired (n : nat) (chat_id : Z)
  (chat_add_users : ChatAddUsers.t) (current_user : User.t) (db : DB) :
  chats_have n db /\ users_chats_pk db ->
  chats_have n
    (snd (chats.add_users_to_chat chat_id chat_add_users current_user db))
  /\ users_chats_pk
       (snd (chats.add_users_to_chat chat_id chat_add_users current_user db)).
Proof.
  intros [Hpaired Hpk]. rewrite add_users_to_chat_run.
  destruct (find _ _); [|auto].
  destruct (lookup_chat db chat_id); [|auto].
  destruct (negb _); [auto|]. cbv zeta.
  destruct (len_ne _ _); simpl; [auto|].
  set (rows := membership_rows _ _ _ _ _).
  set (db' := mkDB _ _ _ _ _ _ _ _ _ _).
  split.
  - intros c Hin.
    rewrite (member_count_append db db' rows) by reflexivity.
    specialize (Hpaired c Hin). lia.
  - now apply (users_chats_pk_append db db' chat_id (fun _ => false) (now db)
                 (new_user_ids db chat_id
                    (ChatAddUsers.user_ids chat_add_users))).
Qed.

Lemma users_chats_pk_filter (db db' : DB) (keep : UserChat.t -> bool) :
  users_chats_pk db ->
  users_chats db' = filter keep (users_chats db) ->
  users_chats_id_seq db' = users_chats_id_seq db ->
  users_chats_pk db'.
Proof.
  intros [Hnd Hlt] Hrows Hseq. unfold users_chats_pk. rewrite Hrows, Hseq.
  split; [now apply NoDup_map_filter|].
  intros uc Hin. apply filter_In in Hin. now apply Hlt.
Qed.

(** Deleting one membership row does not change the count of another chat. *)
Lemma member_count_other_chat (db : DB) (user_chat : UserChat.t)
  (chat_id : Z) :
  users_chats_pk db ->
  In user_chat (users_chats db) ->
  UserChat.chat_id user_chat <> chat_id ->
  filter (fun uc => UserChat.chat_id uc =? chat_id)
         (filter (fun uc => negb (UserChat.id uc =? UserChat.id user_chat))
                 (users_chats db))
  = memberships_of db chat_id.
Proof.
  intros [Hnd _] Hin Hother. unfold memberships_of.
  apply filter_filter_implied. intros r Hr Hchat.
  apply negb_true_iff. apply Z.eqb_neq. intros Hid.
  apply (pk_unique UserChat.id _ r user_chat Hnd Hr Hin) in Hid.
  subst r. apply Z.eqb_eq in Hchat. contradiction.
Qed.

Lemma remove_user_from_chat_paired (n : nat) (chat_id user_id : Z)
  (current_user : User.t) (db : DB) :
  (n <= 2)%nat ->
  chats_have n db /\ users_chats_pk db ->
  chats_have n
    (snd (chats.remove_user_from_chat chat_id user_id current_user db))
  /\ users_chats_pk
       (snd (chats.remove_user_from_chat chat_id user_id current_user db)).
Proof.
  intros Hn [Hpaired Hpk]. rewrite remove_user_from_chat_run.
  destruct (_ && _); [auto|].
  destruct (find _ _) as [user_chat|] eqn:Hfind; [|auto].
  apply find_some in Hfind. destruct Hfind as [Hin Hmember].
  apply andb_true_iff in Hmember. destruct Hmember as [_ Hchat].
  apply Z.eqb_eq in Hchat. cbv zeta.
  set (rest := filter _ (users_chats db)).
  assert (Hrest : forall c, Chat.id c <> chat_id ->
            filter (fun uc => UserChat.chat_id uc =? Chat.id c) rest
            = memberships_of db (Chat.id c)).
  { intros c Hne. apply member_count_other_chat; congruence. }
  destruct (Nat.leb _ 1) eqn:Hcount; simpl.
  - split.
    + intros c Hc. apply filter_In in Hc. destruct Hc as [Hc Hne].
      apply negb_true_iff, Z.eqb_neq in Hne.
      unfold member_count, memberships_of. simpl.
      rewrite filter_filter_implied.
      * rewrite Hrest by assumption. now apply Hpaired.
      * intros r _ Hr. apply Z.eqb_eq in Hr. apply negb_true_iff, Z.eqb_neq.
        congruence.
    + unfold users_chats_pk. simpl. destruct Hpk as [Hnd Hlt]. split.
      * unfold rest. now do 2 apply NoDup_map_filter.
      * intros uc Huc. apply filter_In in Huc. destruct Huc as [Huc _].
        apply filter_In in Huc. now apply Hlt.
  - apply Nat.leb_gt in Hcount. split.
    + intros c Hc. simpl in Hc. unfold member_count, memberships_of. simpl.
      destruct (Z.eq_dec (Chat.id c) chat_id) as [-> | Hne].
      * lia.
      * rewrite Hrest by assumption. now apply Hpaired.
    + now apply (users_chats_pk_filter db _
                   (fun uc => negb (UserChat.id uc =? UserChat.id user_chat))).
Qed.

Lemma handle_paired (n : nat) (call : Call) (current_user : User.t)
  (db : DB) :
  (n <= 2)%nat ->
  creates_at_least n call current_user ->
  chats_have n db /\ users_chats_pk db ->
  chats_have n (handle call current_user db)
  /\ users_chats_pk (handle call current_user db).
Proof.
  intros Hn Hallowed Hinv. destruct call; simpl.
  - now apply create_chat_paired.
  - eapply same_memberships_paired; [apply update_chat_frame | assumption].
  - now apply add_users_to_chat_paired.
  - now apply remove_user_from_chat_paired.
  - eapply same_memberships_paired; [apply create_message_frame | assumption].
  - eapply same_memberships_paired; [apply update_message_frame | assumption].
  - eapply same_memberships_paired; [apply delete_message_frame | assumption].
  - eapply same_memberships_paired;
      [apply mark_message_as_read_frame | assumption].
  - eapply same_memberships_paired;
      [apply register_authorized_ip_frame | assumption].
  - eapply same_memberships_paired;
      [apply check_ip_authorization_frame | assumption].
  - eapply same_memberships_paired;
      [apply deactivate_authorized_ip_frame | assumption].
Qed.

Lemma reachable_paired (n : nat) (db : DB) :
  (n <= 2)%nat ->
  reachable (creates_at_least n) db -> chats_have n db /\ users_chats_pk db.
Proof.
  intros Hn. induction 1 as [db (Hc & Huc & _) | db call current_user _ IH Hallowed
                  | db t _ IH].
  - split.
    + intros c Hin. rewrite Hc in Hin. destruct Hin.
    + unfold users_chats_pk. rewrite Huc. split; [constructor|].
      intros uc [].
  - now apply handle_paired.
  - exact IH.
Qed.

Lemma reachable_mono (P Q : Call -> User.t -> Prop) (db : DB) :
  (forall call current_user, P call current_user -> Q call current_user) ->
  reachable P db -> reachable Q db.
Proof.
  intros Himp. induction 1 as [db Hstart | db call current_user _ IH Hp
                               | db t _ IH].
  - now apply reach_start.
  - apply reach_call; auto.
  - now apply reach_tick.
Qed.

Lemma creates_at_least_one (call : Call) (current_user : User.t) :
  creates_at_least 1 call current_user.
Proof.
  destruct call; simpl; trivial.
  assert (Hin : In (User.id current_user) (create_chat_ids chat current_user))
    by (apply create_chat_ids_In; now right).
  destruct (create_chat_ids chat current_user); [destruct Hin | simpl; lia].
Qed.

(** ** C8: the creator's membership *)



Lemma is_admin_member_append (db db' : DB) (rows : list UserChat.t)
  (user_id chat_id : Z) :
  users_chats db' = users_chats db ++ rows ->
  is_admin_member db user_id chat_id -> is_admin_member db' user_id chat_id.
Proof.
  intros Hrows (uc & Hin & Hrest). exists uc. rewrite Hrows.
  split; [apply in_app_iff; now left | exact Hrest].
Qed.






(** ** C5: reading a chat *)

Lemma read_chat_run (chat_id : Z) (current_user : User.t) (db : DB) :
  chats.read_chat chat_id current_user db =
  match find (is_membership (User.id current_user) chat_id)
             (users_chats db) with
  | None =>
      (Raise (HTTPException HTTP_403_FORBIDDEN
                            "User is not a member of this chat"), db)
  | Some _ =>
      match lookup_chat db chat_id with
      | None =>
          (Raise (HTTPException HTTP_404_NOT_FOUND "Chat not found"), db)
      | Some chat =>
          (Ok (ChatDetail.mk (Chat.id chat) (Chat.name chat)
                 (Chat.is_group chat) (Chat.created_at chat)
                 (Chat.updated_at chat)
                 (filter (fun u =>
                            existsb (is_membership (User.id u) chat_id)
                                    (users_chats db))
                         (users db))
                 (newest (messages_of db chat_id))),
           db)
      end
  end.
Proof.
  unfold chats.read_chat, lookup_chat, messages_of. run.
  destruct (find _ (users_chats db)); simpl; [|reflexivity].
  destruct (find _ (chats db)); reflexivity.
Qed.

Lemma newest_from_spec (l : list Message.t) (best : Message.t) :
  In (newest_from best l) (best :: l)
  /\ forall m, In m (best :: l) ->
               Message.created_at m
               <= Message.created_at (newest_from best l).
Proof.
  revert best. induction l as [|m0 l IH]; intros best; simpl.
  - split; [now left|]. intros m [<- | []]. lia.
  - destruct (Message.created_at best <? Message.created_at m0) eqn:Hlt.
    + apply Z.ltb_lt in Hlt. destruct (IH m0) as [Hin Hmax]. split.
      * simpl in Hin. tauto.
      * intros m [<- | Hm]; [|now apply Hmax].
        specialize (Hmax m0 (or_introl eq_refl)). lia.
    + apply Z.ltb_ge in Hlt. destruct (IH best) as [Hin Hmax]. split.
      * simpl in Hin. tauto.
      * intros m [<- | [<- | Hm]].
        -- apply Hmax. now left.
        -- specialize (Hmax best (or_introl eq_refl)). lia.
        -- apply Hmax. now right.
Qed.

(** [newest] returns nothing for no rows, and otherwise one of the rows,
    created no earlier than any other. *)
Lemma newest_spec (l : list Message.t) :
  match newest l with
  | None => l = []
  | Some m =>
      In m l
      /\ forall m', In m' l -> Message.created_at m' <= Message.created_at m
  end.
Proof.
  destruct l as [|m0 l]; simpl; [reflexivity|]. apply newest_from_spec.
Qed.

Lemma chat_users_spec (db : DB) (chat_id : Z) (u : User.t) :
  In u (filter (fun u => existsb (is_membership (User.id u) chat_id)
                                 (users_chats db))
               (users db))
  <-> In u (users db) /\ is_member db (User.id u) chat_id.
Proof.
  rewrite filter_In, existsb_exists. unfold is_member, is_membership.
  split; intros [Hu (uc & Hin & Hp)]; (split; [assumption|]); exists uc.
  - apply andb_true_iff in Hp. destruct Hp as [H1 H2].
    apply Z.eqb_eq in H1, H2. auto.
  - destruct Hp as [-> ->]. rewrite !Z.eqb_refl. auto.
Qed.

(** C5.  [read_chat] looks for the requester's membership row first: a
    requester without one gets 403 whether or not the chat row exists; 404
    goes only to a requester who has a membership row for a chat id without
    chat row; a member of an existing chat gets the chat's columns, the
    users that have a membership in it, and a message of the chat created
    no earlier than any other (none when the chat has no message).  The
    store is left as it was. *)
Theorem read_chat_membership_first (chat_id : Z) (current_user : User.t)
  (db : DB) :
  (~ is_member db (User.id current_user) chat_id ->
   chats.read_chat chat_id current_user db
   = (Raise (HTTPException HTTP_403_FORBIDDEN
                           "User is not a member of this chat"), db))
  /\ (forall detail db',
        chats.read_chat chat_id current_user db
        = (Raise (HTTPException HTTP_404_NOT_FOUND detail), db') ->
        is_member db (User.id current_user) chat_id
        /\ lookup_chat db chat_id = None)
  /\ (is_member db (User.id current_user) chat_id ->
      lookup_chat db chat_id = None ->
      chats.read_chat chat_id current_user db
      = (Raise (HTTPException HTTP_404_NOT_FOUND "Chat not found"), db))
  /\ (is_member db (User.id current_user) chat_id ->
      forall chat, lookup_chat db chat_id = Some chat ->
      exists detail,
        chats.read_chat chat_id current_user db = (Ok detail, db)
        /\ ChatDetail.id detail = Chat.id chat
        /\ ChatDetail.name detail = Chat.name chat
        /\ ChatDetail.is_group detail = Chat.is_group chat
        /\ ChatDetail.created_at detail = Chat.created_at chat
        /\ ChatDetail.updated_at detail = Chat.updated_at chat
        /\ (forall u, In u (ChatDetail.users detail)
                      <-> In u (users db)
                          /\ is_member db (User.id u) chat_id)
        /\ match ChatDetail.last_message detail with
           | None => messages_of db chat_id = []
           | Some m =>
               In m (messages_of db chat_id)
               /\ forall m', In m' (messages_of db chat_id) ->
                             Message.created_at m' <= Message.created_at m
           end).
Proof.
  rewrite read_chat_run.
  pose proof (is_member_find db (User.id current_user) chat_id) as Hmember.
  destruct (find _ (users_chats db)) as [uc|].
  - assert (Hyes : is_member db (User.id current_user) chat_id)
      by (apply Hmember; discriminate).
    split; [intros Hno; contradiction|].
    destruct (lookup_chat db chat_id) as [chat|].
    + split; [intros detail db' Heq; discriminate|].
      split; [intros _ Heq; discriminate|].
      intros _ chat' Heq. injection Heq as <-.
      eexists. split; [reflexivity|]. simpl.
      repeat (split; [reflexivity|]).
      split; [intros u; apply chat_users_spec | apply newest_spec].
    + split; [intros detail db' _; auto|].
      split; [reflexivity|]. intros _ chat Heq. discriminate.
  - split; [reflexivity|].
    assert (Hno : ~ is_member db (User.id current_user) chat_id)
      by (intros Hyes; apply Hmember in Hyes; now apply Hyes).
    split; [intros detail db' Heq; discriminate|].
    split; intros Hyes; contradiction.
Qed.

(** The theorem on [db_trio_hi]: alice reads chat 1 and gets the three
    users and bob's message; dave, no member, gets 403 for chat 1 and for a
    chat id that does not exist. *)
Lemma read_chat_membership_first_witness :
  is_member db_trio_hi 1 1
  /\ (exists detail,
        chats.read_chat 1 alice db_trio_hi = (Ok detail, db_trio_hi)
        /\ ChatDetail.name detail = Some "trio")
  /\ ~ is_member db_trio_hi 4 99
  /\ chats.read_chat 99 dave db_trio_hi
     = (Raise (HTTPException HTTP_403_FORBIDDEN
                             "User is not a member of this chat"),
        db_trio_hi).
Proof.
  assert (Hyes : is_member db_trio_hi 1 1).
  { exists (UserChat.mk 3 1 1 true 1000). simpl. tauto. }
  assert (Hno : ~ is_member db_trio_hi 4 99).
  { intros Hm. apply is_member_find in Hm. now apply Hm. }
  split; [exact Hyes|]. split.
  - destruct (read_chat_membership_first 1 alice db_trio_hi)
      as (_ & _ & _ & Hdetail).
    destruct (Hdetail Hyes (Chat.mk 1 (Some "trio") true 1000 None)
                eq_refl) as (detail & Hrun & _ & Hname & _).
    exists detail. split; [exact Hrun | exact Hname].
  - split; [exact Hno|].
    destruct (read_chat_membership_first 99 dave db_trio_hi) as (H403 & _).
    exact (H403 Hno).
Defined.

(** ** C4: who may change a message *)

Lemma lookup_message_id (db : DB) (message_id : Z) (m : Message.t) :
  lookup_message db message_id = Some m -> Message.id m = message_id.
Proof.
  unfold lookup_message. intros Hfind. apply find_some in Hfind.
  now apply Z.eqb_eq.
Qed.

(** After the UPDATE by primary key, the lookup returns the updated row. *)
Lemma lookup_message_updated (rows : list Message.t) (m row : Message.t) :
  find (fun x => Message.id x =? Message.id m) rows = Some m ->
  Message.id row = Message.id m ->
  find (fun x => Message.id x =? Message.id m)
       (map (fun x => if Message.id x =? Message.id m then row else x) rows)
  = Some row.
Proof.
  intros Hfind Hid. induction rows as [|x rows IH]; simpl in *;
    [discriminate|].
  destruct (Message.id x =? Message.id m) eqn:Hx; simpl.
  - now rewrite Hid, Z.eqb_refl.
  - rewrite Hx. now apply IH.
Qed.

Lemma update_message_run (message_id : Z) (message_update : MessageUpdate.t)
  (current_user : User.t) (db : DB) :
  messages.update_message message_id message_update current_user db =
  match lookup_message db message_id with
  | None => (Raise (HTTPException HTTP_404_NOT_FOUND "Message not found"), db)
  | Some m =>
      if negb (Message.sender_id m =? User.id current_user) then
        (Raise (HTTPException HTTP_403_FORBIDDEN
                              "Cannot update messages from other users"), db)
      else
        commit_message m
          match MessageUpdate.content message_update with
          | Some content =>
              Message.mk (Message.id m) content (Message.sender_id m)
                         (Message.chat_id m) (Message.is_read m)
                         (Message.created_at m) (Message.updated_at m)
          | None => m
          end db
  end.
Proof.
  unfold messages.update_message, lookup_message. run.
  destruct (find _ (messages db)) as [m|]; [|reflexivity].
  destruct (Message.sender_id m =? User.id current_user); reflexivity.
Qed.

Lemma delete_message_run (message_id : Z) (current_user : User.t) (db : DB) :
  messages.delete_message message_id current_user db =
  match lookup_message db message_id with
  | None => (Raise (HTTPException HTTP_404_NOT_FOUND "Message not found"), db)
  | Some m =>
      if negb (Message.sender_id m =? User.id current_user) then
        (Raise (HTTPException HTTP_403_FORBIDDEN
                              "Cannot delete messages from other users"), db)
      else
        (Ok tt,
         set_messages
           (filter (fun x => negb (Message.id x =? Message.id m))
                   (messages db)) db)
  end.
Proof.
  unfold messages.delete_message, lookup_message. run.
  destruct (find _ (messages db)) as [m|]; [|reflexivity].
  destruct (Message.sender_id m =? User.id current_user); reflexivity.
Qed.

Lemma mark_message_as_read_run (message_id : Z) (current_user : User.t)
  (db : DB) :
  messages.mark_message_as_read message_id current_user db =
  match lookup_message db message_id with
  | None => (Raise (HTTPException HTTP_404_NOT_FOUND "Message not found"), db)
  | Some m =>
      match find (is_membership (User.id current_user) (Message.chat_id m))
                 (users_chats db) with
      | None =>
          (Raise (HTTPException HTTP_403_FORBIDDEN
                                "User is not a member of this chat"), db)
      | Some _ =>
          commit_message m
            (Message.mk (Message.id m) (Message.content m)
                        (Message.sender_id m) (Message.chat_id m) true
                        (Message.created_at m) (Message.updated_at m)) db
      end
  end.
Proof.
  unfold messages.mark_message_as_read, lookup_message. run.
  destruct (find _ (messages db)) as [m|]; [|reflexivity].
  destruct (find _ (users_chats db)); reflexivity.
Qed.

(** What [commit_message] returns and writes. *)
Lemma commit_message_spec (old new : Message.t) (db : DB) :
  exists row db',
    commit_message old new db = (Ok row, db')
    /\ Message.id row = Message.id new
    /\ Message.content row = Message.content new
    /\ Message.sender_id row = Message.sender_id new
    /\ Message.chat_id row = Message.chat_id new
    /\ Message.is_read row = Message.is_read new
    /\ Message.created_at row = Message.created_at new
    /\ (old = new -> row = old /\ db' = db)
    /\ (old <> new ->
        messages db'
        = map (fun x => if Message.id x =? Message.id old then row else x)
              (messages db)).
Proof.
  unfold commit_message. destruct (Message_eq_dec old new) as [<- | Hne].
  - exists old, db. unfold ret. repeat split; tauto.
  - eexists. eexists. split; [reflexivity|]. simpl.
    repeat split; tauto.
Qed.

Lemma find_all_false {Row} (p : Row -> bool) (rows : list Row) :
  (forall r, In r rows -> p r = false) -> find p rows = None.
Proof.
  induction rows as [|r rows IH]; simpl; intros Hall; [reflexivity|].
  rewrite (Hall r) by now left. apply IH. intros r' Hin. apply Hall.
  now right.
Qed.

(** C4.  For a message [m] and an actor: when the actor is not the sender,
    update and delete raise 403 and write nothing, whatever the actor's
    memberships and admin flags are; when the actor is the sender, both
    succeed; marking as read succeeds for every member of the message's
    chat, sender or not, returns the message with [is_read] set, and for a
    message already read returns it unchanged and writes nothing; a
    non-member gets 403. *)
Theorem message_rights (message_id : Z) (current_user : User.t) (db : DB)
  (m : Message.t) :
  lookup_message db message_id = Some m ->
  (Message.sender_id m <> User.id current_user ->
   (forall message_update,
       messages.update_message message_id message_update current_user db
       = (Raise (HTTPException HTTP_403_FORBIDDEN
                               "Cannot update messages from other users"),
          db))
   /\ messages.delete_message message_id current_user db
      = (Raise (HTTPException HTTP_403_FORBIDDEN
                              "Cannot delete messages from other users"), db))
  /\ (Message.sender_id m = User.id current_user ->
      (forall message_update,
          exists row db',
            messages.update_message message_id message_update current_user db
            = (Ok row, db')
            /\ Message.content row
               = match MessageUpdate.content message_update with
                 | Some content => content
                 | None => Message.content m
                 end)
      /\ exists db',
           messages.delete_message message_id current_user db = (Ok tt, db')
           /\ lookup_message db' message_id = None)
  /\ (is_member db (User.id current_user) (Message.chat_id m) ->
      exists row db',
        messages.mark_message_as_read message_id current_user db
        = (Ok row, db')
        /\ Message.is_read row = true
        /\ Message.id row = Message.id m
        /\ Message.content row = Message.content m
        /\ Message.sender_id row = Message.sender_id m
        /\ Message.chat_id row = Message.chat_id m
        /\ lookup_message db' message_id = Some row
        /\ (Message.is_read m = true -> row = m /\ db' = db))
  /\ (~ is_member db (User.id current_user) (Message.chat_id m) ->
      messages.mark_message_as_read message_id current_user db
      = (Raise (HTTPException HTTP_403_FORBIDDEN
                              "User is not a member of this chat"), db)).
Proof.
  intros Hlookup. pose proof (lookup_message_id _ _ _ Hlookup) as Hid.
  split; [|split; [|split]].
  - intros Hother. apply Z.eqb_neq in Hother. split.
    + intros message_update. rewrite update_message_run, Hlookup, Hother.
      reflexivity.
    + rewrite delete_message_run, Hlookup, Hother. reflexivity.
  - intros Hsender. apply Z.eqb_eq in Hsender. split.
    + intros message_update. rewrite update_message_run, Hlookup, Hsender.
      simpl.
      destruct (commit_message_spec m
                  match MessageUpdate.content message_update with
                  | Some content =>
                      Message.mk (Message.id m) content (Message.sender_id m)
                        (Message.chat_id m) (Message.is_read m)
                        (Message.created_at m) (Message.updated_at m)
                  | None => m
                  end db) as (row & db' & Hrun & _ & Hcontent & _).
      exists row, db'. split; [exact Hrun|]. rewrite Hcontent.
      now destruct (MessageUpdate.content message_update).
    + rewrite delete_message_run, Hlookup, Hsender. simpl.
      eexists. split; [reflexivity|]. unfold lookup_message. simpl.
      apply find_all_false. intros x Hin. apply filter_In in Hin.
      destruct Hin as [_ Hne]. apply negb_true_iff in Hne. congruence.
  - intros Hmember. apply is_member_find in Hmember.
    rewrite mark_message_as_read_run, Hlookup.
    destruct (find _ (users_chats db)); [|congruence].
    set (new := Message.mk _ _ _ _ true _ _).
    destruct (commit_message_spec m new db)
      as (row & db' & Hrun & H1 & H2 & H3 & H4 & H5 & _ & Hsame & Hdiff).
    exists row, db'. split; [exact Hrun|].
    repeat (split; [assumption|]).
    assert (Hread : Message.is_read m = true -> m = new).
    { intros Hr. unfold new. rewrite <- Hr. now destruct m. }
    split.
    + destruct (Message_eq_dec m new) as [Heq | Hne].
      * destruct (Hsame Heq) as [-> ->]. exact Hlookup.
      * unfold lookup_message. rewrite (Hdiff Hne), <- Hid.
        apply lookup_message_updated; [|exact H1].
        rewrite Hid. exact Hlookup.
    + intros Hr. apply Hsame. now apply Hread.
  - intros Hno. rewrite mark_message_as_read_run, Hlookup.
    destruct (find _ (users_chats db)) eqn:Hfind; [|reflexivity].
    exfalso. apply Hno. apply is_member_find. congruence.
Qed.

(** The theorem on [db_trio_hi] for bob's message and alice, the admin of
    the chat: she may not update the message, and she may mark it read. *)
Lemma message_rights_witness :
  exists m,
    lookup_message db_trio_hi 1 = Some m
    /\ Message.sender_id m = 2
    /\ is_admin_member db_trio_hi (User.id alice) (Message.chat_id m)
    /\ messages.update_message 1 (MessageUpdate.mk (Some "edited") None)
                               alice db_trio_hi
       = (Raise (HTTPException HTTP_403_FORBIDDEN
                               "Cannot update messages from other users"),
          db_trio_hi)
    /\ exists row db',
         messages.mark_message_as_read 1 alice db_trio_hi = (Ok row, db')
         /\ Message.is_read row = true.
Proof.
  exists (Message.mk 1 "hi" 2 1 false 1000 None).
  assert (Hlookup : lookup_message db_trio_hi 1
                    = Some (Message.mk 1 "hi" 2 1 false 1000 None))
    by reflexivity.
  destruct (message_rights 1 alice db_trio_hi _ Hlookup)
    as (Hother & _ & Hmark & _).
  assert (Hadmin : is_admin_member db_trio_hi 1 1).
  { exists (UserChat.mk 3 1 1 true 1000). simpl. tauto. }
  split; [exact Hlookup|]. split; [reflexivity|]. split; [exact Hadmin|].
  split.
  - destruct Hother as [Hupdate _]; [simpl; discriminate|]. apply Hupdate.
  - destruct Hmark as (row & db' & Hrun & Hread & _).
    + destruct Hadmin as (uc & H1 & H2 & H3 & _). exists uc. auto.
    + exists row, db'. auto.
Defined.

(** ** C7: unread counts *)

Lemma dict_get_set (k k' : Z) (v : nat) (d : Dict) :
  dict_get k (dict_set k' v d) = if k' =? k then Some v else dict_get k d.
Proof.
  induction d as [|[k0 v0] d IH]; simpl.
  - reflexivity.
  - destruct (k0 =? k') eqn:H0; simpl.
    + apply Z.eqb_eq in H0. subst k0. now destruct (k' =? k).
    + rewrite IH. destruct (k0 =? k) eqn:Hk; [|reflexivity].
      apply Z.eqb_eq in Hk. subst k0. now rewrite Z.eqb_sym, H0.
Qed.

(** The dictionary built by the loop maps each of the keys to its count. *)
Lemma dict_get_fold (count : Z -> nat) (keys : list Z) (k : Z) (acc : Dict) :
  dict_get k (fold_left (fun result key => dict_set key (count key) result)
                        keys acc)
  = if mem k keys then Some (count k) else dict_get k acc.
Proof.
  revert acc. induction keys as [|key keys IH]; intros acc; simpl;
    [reflexivity|].
  rewrite IH, dict_get_set. unfold mem at 2. simpl. fold (mem k keys).
  destruct (mem k keys); [now rewrite orb_true_r|]. rewrite orb_false_r.
  rewrite (Z.eqb_sym k key). destruct (key =? k) eqn:Hk; [|reflexivity].
  apply Z.eqb_eq in Hk. now subst.
Qed.

Lemma get_unread_message_count_run (user_id : Z) (db : DB) :
  exists result,
    message_service.get_unread_message_count user_id db = (Ok result, db)
    /\ forall chat_id,
         is_member db user_id chat_id ->
         dict_get chat_id result
         = Some (message_service.unread_count db user_id chat_id).
Proof.
  unfold message_service.get_unread_message_count. run.
  eexists. split; [reflexivity|]. intros chat_id (uc & Hin & Hu & Hc).
  rewrite dict_get_fold.
  assert (mem chat_id
            (map UserChat.chat_id
               (filter (fun uc => UserChat.user_id uc =? user_id)
                       (users_chats db))) = true) as ->; [|reflexivity].
  apply mem_In, in_map_iff. exists uc. split; [assumption|].
  apply filter_In. split; [assumption|]. now apply Z.eqb_eq.
Qed.

Lemma create_message_run (message : MessageCreate.t) (current_user : User.t)
  (db : DB) :
  messages.create_message message current_user db =
  match lookup_chat db (MessageCreate.chat_id message) with
  | None => (Raise (HTTPException HTTP_404_NOT_FOUND "Chat not found"), db)
  | Some _ =>
      match find (is_membership (User.id current_user)
                                (MessageCreate.chat_id message))
                 (users_chats db) with
      | None =>
          (Raise (HTTPException HTTP_403_FORBIDDEN
                                "User is not a member of this chat"), db)
      | Some _ =>
          add_message (MessageCreate.content message) (User.id current_user)
                      (MessageCreate.chat_id message) db
      end
  end.
Proof.
  unfold messages.create_message, lookup_chat. run.
  destruct (find _ (chats db)); simpl; [|reflexivity].
  destruct (find _ (users_chats db)); reflexivity.
Qed.

Lemma find_app_last {Row} (p : Row -> bool) (rows : list Row) (r : Row) :
  p r = true -> find p (rows ++ [r]) <> None.
Proof.
  intros Hp. induction rows as [|x rows IH]; simpl.
  - now rewrite Hp.
  - destruct (p x); [discriminate | exact IH].
Qed.

Lemma find_app_fresh {Row} (p : Row -> bool) (rows : list Row) (r : Row) :
  (forall x, In x rows -> p x = false) -> p r = true ->
  find p (rows ++ [r]) = Some r.
Proof.
  intros Hfresh Hp. induction rows as [|x rows IH]; simpl.
  - now rewrite Hp.
  - rewrite (Hfresh x) by now left. apply IH. intros y Hy. apply Hfresh.
    now right.
Qed.

Lemma is_member_same (db db' : DB) (user_id chat_id : Z) :
  users_chats db' = users_chats db ->
  is_member db user_id chat_id -> is_member db' user_id chat_id.
Proof. unfold is_member. now intros ->. Qed.

(** The creation step of the scenario. *)
Lemma scenario_create (a b c : User.t) (name : option string) (db : DB) :
  users_pk db ->
  In a (users db) -> In b (users db) -> In c (users db) ->
  NoDup [User.id a; User.id b; User.id c] ->
  exists row db1,
    chats.create_chat
      (ChatCreate.mk name true [User.id a; User.id b; User.id c]) a db
    = (Ok row, db1)
    /\ Chat.id row = chats_id_seq db
    /\ messages db1 = messages db
    /\ messages_id_seq db1 = messages_id_seq db
    /\ lookup_chat db1 (chats_id_seq db) <> None
    /\ is_member db1 (User.id a) (chats_id_seq db)
    /\ is_member db1 (User.id b) (chats_id_seq db)
    /\ is_member db1 (User.id c) (chats_id_seq db).
Proof.
  intros Hpk Ha Hb Hc Hnd. rewrite create_chat_run.
  assert (Hids : create_chat_ids
                   (ChatCreate.mk name true [User.id a; User.id b; User.id c])
                   a
                 = [User.id a; User.id b; User.id c]).
  { unfold create_chat_ids, mem. simpl. now rewrite Z.eqb_refl. }
  rewrite Hids. cbv zeta.
  assert (len_ne (users_in [User.id a; User.id b; User.id c] db)
                 [User.id a; User.id b; User.id c] = false) as ->.
  { apply len_ne_false. apply users_in_length_all; try assumption.
    intros x [<- | [<- | [<- | []]]]; now apply in_map. }
  eexists. eexists. split; [reflexivity|]. simpl.
  split; [reflexivity|]. split; [reflexivity|]. split; [reflexivity|].
  split.
  { unfold lookup_chat. simpl. apply find_app_last. simpl.
    apply Z.eqb_refl. }
  unfold is_member. simpl.
  split; [|split]; eexists; (split; [apply in_app_iff; right|]).
  - left. reflexivity.
  - simpl. auto.
  - right. left. reflexivity.
  - simpl. auto.
  - right. right. left. reflexivity.
  - simpl. auto.
Qed.

(** The sending step: the new message is appended, unread. *)
Lemma scenario_send (b : User.t) (content : string) (chat_id : Z) (db1 : DB) :
  lookup_chat db1 chat_id <> None ->
  is_member db1 (User.id b) chat_id ->
  let message := Message.mk (messages_id_seq db1) content (User.id b) chat_id
                            false (now db1) None in
  exists db2,
    messages.create_message (MessageCreate.mk content chat_id) b db1
    = (Ok message, db2)
    /\ messages db2 = messages db1 ++ [message]
    /\ users_chats db2 = users_chats db1.
Proof.
  intros Hchat Hmember message. rewrite create_message_run. simpl.
  destruct (lookup_chat db1 chat_id); [|congruence].
  apply is_member_find in Hmember.
  destruct (find _ (users_chats db1)); [|congruence].
  eexists. split; [reflexivity|]. simpl. auto.
Qed.

(** The marking step: the last message, not read yet, is replaced by
    itself with [is_read] set. *)
Lemma scenario_mark (a : User.t) (message : Message.t)
  (old : list Message.t) (db2 : DB) :
  messages db2 = old ++ [message] ->
  (forall m, In m old -> Message.id m <> Message.id message) ->
  Message.is_read message = false ->
  is_member db2 (User.id a) (Message.chat_id message) ->
  exists row db3,
    messages.mark_message_as_read (Message.id message) a db2 = (Ok row, db3)
    /\ messages db3 = old ++ [row]
    /\ Message.is_read row = true
    /\ Message.chat_id row = Message.chat_id message
    /\ users_chats db3 = users_chats db2.
Proof.
  intros Hrows Hfresh Hunread Hmember.
  rewrite mark_message_as_read_run. unfold lookup_message. rewrite Hrows.
  rewrite find_app_fresh.
  2:{ intros m Hm. apply Z.eqb_neq. now apply Hfresh. }
  2:{ apply Z.eqb_refl. }
  apply is_member_find in Hmember.
  destruct (find _ (users_chats db2)); [|congruence].
  unfold commit_message.
  destruct (Message_eq_dec _ _) as [Heq | _].
  { rewrite Heq in Hunread. discriminate. }
  eexists. eexists. split; [reflexivity|]. simpl.
  split; [|auto]. rewrite Hrows, map_app. simpl. rewrite Z.eqb_refl.
  f_equal. rewrite <- (map_id old) at 2. apply map_ext_in.
  intros m Hm. apply Hfresh in Hm. apply Z.eqb_neq in Hm. now rewrite Hm.
Qed.

(** The unread count of a chat whose only message is the last row. *)
Lemma unread_count_last (db : DB) (old : list Message.t) (m : Message.t)
  (user_id chat_id : Z) :
  messages db = old ++ [m] ->
  (forall x, In x old -> Message.chat_id x <> chat_id) ->
  Message.chat_id m = chat_id ->
  message_service.unread_count db user_id chat_id
  = if Bool.eqb (Message.is_read m) false
       && negb (Message.sender_id m =? user_id)
    then 1%nat else 0%nat.
Proof.
  intros Hrows Hfresh Hchat. unfold message_service.unread_count.
  rewrite Hrows, filter_app, length_app. rewrite filter_all_false.
  - simpl. rewrite Hchat, Z.eqb_refl. simpl. now destruct (_ && _).
  - intros x Hx. apply Hfresh in Hx. apply Z.eqb_neq in Hx. now rewrite Hx.
Qed.

(** C7 as stated fails: the read flag is a column of the message, shared
    by all members, so once alice has marked bob's message read, carol's
    unread count for the chat is 0 as well, not 1. *)
Lemma unread_count_shared_flag :
  exists before_c after_a after_c db',
    group_chat_scenario alice bob carol (Some "trio") "hi" db_users
    = (Ok (1, before_c, after_a, after_c), db')
    /\ dict_get 1 after_a = Some 0%nat
    /\ dict_get 1 after_c = Some 0%nat
    /\ dict_get 1 after_c <> Some 1%nat.
Proof.
  do 4 eexists. split; [vm_compute; reflexivity|].
  split; [reflexivity|]. split; [reflexivity|]. discriminate.
Qed.

(** C7, amended.  In the scenario (a creates a group chat with a, b and c;
    b sends a message; a marks it read) the unread counts, which count the
    chat's messages with [is_read = false] and another sender, are 1 for c
    before the marking and 0 for a and for c after it: marking sets the one
    flag of the message, for every member. *)
Theorem unread_counts_after_marking (a b c : User.t) (name : option string)
  (content : string) (db : DB) :
  users_pk db ->
  In a (users db) -> In b (users db) -> In c (users db) ->
  NoDup [User.id a; User.id b; User.id c] ->
  next_ids_unused db ->
  exists before_c after_a after_c db',
    group_chat_scenario a b c name content db
    = (Ok (chats_id_seq db, before_c, after_a, after_c), db')
    /\ dict_get (chats_id_seq db) before_c = Some 1%nat
    /\ dict_get (chats_id_seq db) after_a = Some 0%nat
    /\ dict_get (chats_id_seq db) after_c = Some 0%nat.
Proof.
  intros Hpk Ha Hb Hc Hnd Hunused.
  assert (Hbc : User.id b <> User.id c).
  { inversion Hnd as [|? ? _ Hnd']. inversion Hnd' as [|? ? Hb' _].
    intros Heq. apply Hb'. now left. }
  destruct (scenario_create a b c name db Hpk Ha Hb Hc Hnd)
    as (row & db1 & Hrun1 & Hid & Hmsgs1 & Hseq1 & Hchat & Hma & Hmb & Hmc).
  destruct (scenario_send b content (chats_id_seq db) db1 Hchat Hmb)
    as (db2 & Hrun2 & Hmsgs2 & Huc2).
  set (message := Message.mk (messages_id_seq db1) content (User.id b)
                             (chats_id_seq db) false (now db1) None) in *.
  rewrite Hmsgs1 in Hmsgs2.
  assert (Hfresh_id : forall m, In m (messages db) ->
                                Message.id m <> Message.id message).
  { intros m Hm. simpl. rewrite Hseq1. now apply Hunused. }
  assert (Hfresh_chat : forall m, In m (messages db) ->
                                  Message.chat_id m <> chats_id_seq db).
  { intros m Hm. now apply Hunused. }
  destruct (scenario_mark a message (messages db) db2 Hmsgs2 Hfresh_id
              eq_refl)
    as (read & db3 & Hrun3 & Hmsgs3 & Hread & Hchat3 & Huc3).
  { simpl. now apply (is_member_same db1). }
  destruct (get_unread_message_count_run (User.id c) db2)
    as (before_c & Hrun_c2 & Hget_c2).
  destruct (get_unread_message_count_run (User.id a) db3)
    as (after_a & Hrun_a3 & Hget_a3).
  destruct (get_unread_message_count_run (User.id c) db3)
    as (after_c & Hrun_c3 & Hget_c3).
  exists before_c, after_a, after_c, db3. split.
  - unfold group_chat_scenario.
    unfold bind at 1. rewrite Hrun1. cbv beta iota. rewrite Hid.
    unfold bind at 1. rewrite Hrun2. cbv beta iota.
    unfold bind at 1. rewrite Hrun_c2. cbv beta iota.
    unfold bind at 1. rewrite Hrun3. cbv beta iota.
    unfold bind at 1. rewrite Hrun_a3. cbv beta iota.
    unfold bind at 1. rewrite Hrun_c3. cbv beta iota.
    reflexivity.
  - assert (Hmc2 : is_member db2 (User.id c) (chats_id_seq db))
      by now apply (is_member_same db1).
    assert (Hma3 : is_member db3 (User.id a) (chats_id_seq db)).
    { apply (is_member_same db2); [assumption|].
      now apply (is_member_same db1). }
    assert (Hmc3 : is_member db3 (User.id c) (chats_id_seq db))
      by now apply (is_member_same db2).
    rewrite (Hget_c2 _ Hmc2), (Hget_a3 _ Hma3), (Hget_c3 _ Hmc3).
    rewrite (unread_count_last db2 (messages db) message)
      by (assumption || reflexivity).
    rewrite !(unread_count_last db3 (messages db) read)
      by (assumption || reflexivity).
    rewrite Hread. simpl.
    apply Z.eqb_neq in Hbc. rewrite Hbc. auto.
Qed.

(** The amended claim for alice, bob and carol on [db_users]. *)
Lemma unread_counts_after_marking_witness :
  users_pk db_users
  /\ next_ids_unused db_users
  /\ exists before_c after_a after_c db',
       group_chat_scenario alice bob carol (Some "trio") "hi" db_users
       = (Ok (1, before_c, after_a, after_c), db')
       /\ dict_get 1 before_c = Some 1%nat
       /\ dict_get 1 after_a = Some 0%nat
       /\ dict_get 1 after_c = Some 0%nat.
Proof.
  assert (Hpk : users_pk db_users).
  { unfold users_pk. simpl.
    repeat (constructor; [simpl; intuition discriminate|]). constructor. }
  assert (Hunused : next_ids_unused db_users) by (intros m []).
  split; [exact Hpk|]. split; [exact Hunused|].
  apply (unread_counts_after_marking alice bob carol (Some "trio") "hi"
           db_users Hpk); simpl; auto.
  repeat (constructor; [simpl; intuition discriminate|]). constructor.
Defined.

(** ** C6: registering an address *)

Lemma register_authorized_ip_run (user_id : Z) (ip_address : string)
  (description : option string) (db : DB) :
  user_service.register_authorized_ip user_id ip_address description db =
  match lookup_ip db user_id ip_address with
  | Some existing_ip =>
      if AuthorizedIP.is_active existing_ip then (Ok tt, db)
      else
        (Ok tt,
         set_authorized_ips
           (update_ip_rows existing_ip (reactivated description existing_ip)
                           (authorized_ips db)) db)
  | None =>
      (Ok tt,
       mkDB (users db) (chats db) (users_chats db) (messages db)
            (authorized_ips db
             ++ [AuthorizedIP.mk (authorized_ips_id_seq db) user_id ip_address
                                 description true (now db) None])
            (chats_id_seq db) (users_chats_id_seq db) (messages_id_seq db)
            (authorized_ips_id_seq db + 1) (now db))
  end.
Proof.
  unfold user_service.register_authorized_ip, lookup_ip. run.
  fold (is_entry user_id ip_address).
  destruct (find _ (authorized_ips db)) as [r|]; [|reflexivity].
  destruct (AuthorizedIP.is_active r) eqn:Hactive; simpl; [reflexivity|].
  unfold commit_authorized_ip. fold (reactivated description r).
  destruct (AuthorizedIP_eq_dec r (reactivated description r)) as [Heq|_].
  - rewrite Heq in Hactive. discriminate.
  - reflexivity.
Qed.

Lemma is_entry_key (user_id : Z) (ip_address : string) (r : AuthorizedIP.t) :
  is_entry user_id ip_address r = true <-> ip_key r = (user_id, ip_address).
Proof.
  unfold is_entry, ip_key. rewrite andb_true_iff, Z.eqb_eq, String.eqb_eq.
  split; [intros [-> ->]; reflexivity | intros Heq; now injection Heq].
Qed.

(** With one entry per user and address, at most one of them is active. *)
Lemma active_entries_le_1 (db : DB) (user_id : Z) (ip_address : string) :
  NoDup (map ip_key (authorized_ips db)) ->
  (List.length (active_entries db user_id ip_address) <= 1)%nat.
Proof.
  unfold active_entries. induction (authorized_ips db) as [|r rows IH];
    simpl; intros Hnd; [lia|].
  inversion Hnd as [|? ? Hfresh Hnd']; subst. specialize (IH Hnd').
  destruct (is_entry user_id ip_address r) eqn:Hr; simpl; [|exact IH].
  destruct (AuthorizedIP.is_active r); simpl; [|exact IH].
  rewrite filter_all_false; [simpl; lia|].
  intros x Hx. destruct (is_entry user_id ip_address x) eqn:Hxe;
    [|reflexivity].
  exfalso. apply Hfresh. apply is_entry_key in Hr, Hxe.
  rewrite Hr, <- Hxe. now apply in_map.
Qed.

Lemma lookup_ip_updated (p : AuthorizedIP.t -> bool)
  (rows : list AuthorizedIP.t) (r r' : AuthorizedIP.t) :
  find p rows = Some r -> p r' = true ->
  find p (update_ip_rows r r' rows) = Some r'.
Proof.
  intros Hfind Hp. induction rows as [|x rows IH]; simpl in *;
    [discriminate|].
  destruct (p x) eqn:Hx.
  - injection Hfind as ->. now rewrite Z.eqb_refl, Hp.
  - destruct (AuthorizedIP.id x =? AuthorizedIP.id r); [now rewrite Hp|].
    rewrite Hx. now apply IH.
Qed.

Lemma update_ip_rows_ids (r r' : AuthorizedIP.t) (rows : list AuthorizedIP.t) :
  AuthorizedIP.id r' = AuthorizedIP.id r ->
  map AuthorizedIP.id (update_ip_rows r r' rows) = map AuthorizedIP.id rows.
Proof.
  intros Hid. unfold update_ip_rows. rewrite map_map. apply map_ext.
  intros x. destruct (AuthorizedIP.id x =? AuthorizedIP.id r) eqn:Hx;
    [|reflexivity].
  apply Z.eqb_eq in Hx. congruence.
Qed.

Lemma update_ip_rows_keys (r r' : AuthorizedIP.t) (rows : list AuthorizedIP.t) :
  NoDup (map AuthorizedIP.id rows) -> In r rows ->
  ip_key r' = ip_key r ->
  map ip_key (update_ip_rows r r' rows) = map ip_key rows.
Proof.
  intros Hnd Hin Hkey. unfold update_ip_rows. rewrite map_map.
  apply map_ext_in. intros x Hx.
  destruct (AuthorizedIP.id x =? AuthorizedIP.id r) eqn:Hid; [|reflexivity].
  apply Z.eqb_eq in Hid.
  apply (pk_unique AuthorizedIP.id rows x r Hnd Hx Hin) in Hid. congruence.
Qed.

Lemma update_ip_rows_In (r r' x : AuthorizedIP.t)
  (rows : list AuthorizedIP.t) :
  In x (update_ip_rows r r' rows) -> x = r' \/ In x rows.
Proof.
  unfold update_ip_rows. rewrite in_map_iff. intros [y [Hy Hin]].
  destruct (AuthorizedIP.id y =? AuthorizedIP.id r); subst; auto.
Qed.

(** After the call the entry is there and active. *)
Lemma register_authorized_ip_active (user_id : Z) (ip_address : string)
  (description : option string) (db : DB) :
  exists r,
    lookup_ip
      (snd (user_service.register_authorized_ip user_id ip_address
              description db)) user_id ip_address = Some r
    /\ AuthorizedIP.is_active r = true.
Proof.
  rewrite register_authorized_ip_run.
  destruct (lookup_ip db user_id ip_address) as [r|] eqn:Hlookup.
  - destruct (AuthorizedIP.is_active r) eqn:Hactive; simpl.
    + exists r. auto.
    + exists (reactivated description r). split; [|reflexivity].
      unfold lookup_ip. simpl. apply lookup_ip_updated; [exact Hlookup|].
      apply find_some in Hlookup. exact (proj2 Hlookup).
  - eexists. unfold lookup_ip. simpl. split.
    + apply find_app_fresh.
      * apply find_none. exact Hlookup.
      * unfold is_entry. simpl. now rewrite Z.eqb_refl, String.eqb_refl.
    + reflexivity.
Qed.

Lemma register_authorized_ip_wf (user_id : Z) (ip_address : string)
  (description : option string) (db : DB) :
  allow_list_wf db ->
  allow_list_wf
    (snd (user_service.register_authorized_ip user_id ip_address description
            db)).
Proof.
  intros (Hids & Hkeys & Hlt). rewrite register_authorized_ip_run.
  destruct (lookup_ip db user_id ip_address) as [r|] eqn:Hlookup.
  - destruct (AuthorizedIP.is_active r); simpl; [now repeat split|].
    apply find_some in Hlookup. destruct Hlookup as [Hin _].
    unfold allow_list_wf. simpl.
    rewrite update_ip_rows_ids, update_ip_rows_keys by auto.
    repeat split; try assumption.
    intros x Hx. apply update_ip_rows_In in Hx.
    destruct Hx as [-> | Hx]; [apply (Hlt r Hin) | now apply Hlt].
  - unfold allow_list_wf. simpl. rewrite !map_app. simpl.
    pose proof (find_none _ _ Hlookup) as Hnone.
    repeat split.
    + apply NoDup_app; [assumption | repeat constructor; intros [] |].
      intros k Hk [<- | []]. apply in_map_iff in Hk.
      destruct Hk as [x [Hid Hx]]. apply Hlt in Hx. lia.
    + apply NoDup_app; [assumption | repeat constructor; intros [] |].
      intros k Hk [<- | []]. apply in_map_iff in Hk.
      destruct Hk as [x [Hkey Hx]].
      apply (proj2 (is_entry_key user_id ip_address x)) in Hkey.
      rewrite (Hnone x Hx) in Hkey. discriminate.
    + intros x Hx. apply in_app_iff in Hx.
      destruct Hx as [Hx | [<- | []]]; [apply Hlt in Hx; lia | simpl; lia].
Qed.

(** C6 as stated fails: registering 10.0.0.5 for alice without a
    description (the parameter's default) reactivates her entry and keeps
    its description "home". *)
Lemma register_keeps_description :
  lookup_ip db_ip_inactive 1 "10.0.0.5"
  = Some (AuthorizedIP.mk 1 1 "10.0.0.5" (Some "home") false 900 None)
  /\ user_service.register_authorized_ip 1 "10.0.0.5" None db_ip_inactive
     = (Ok tt,
        set_authorized_ips
          [AuthorizedIP.mk 1 1 "10.0.0.5" (Some "home") true 900 None]
          db_ip_inactive).
Proof. split; reflexivity. Qed.

(** C6, amended.  [register_authorized_ip] never raises and has three
    branches: an active entry is left alone (nothing is written); an
    inactive one is reactivated, and its description is replaced by the
    given one when that is a non-empty string and kept otherwise; without
    an entry, a new active one is appended.  A second call with the same
    arguments changes nothing.  On an allow-list with one entry per user
    and address the call keeps it so, leaves exactly one active entry for
    the pair and at most one for every pair. *)
Theorem register_authorized_ip_upsert (user_id : Z) (ip_address : string)
  (description : option string) (db : DB) :
  let register :=
    user_service.register_authorized_ip user_id ip_address description in
  let db' := snd (register db) in
  fst (register db) = Ok tt
  /\ (forall r, lookup_ip db user_id ip_address = Some r ->
                AuthorizedIP.is_active r = true -> db' = db)
  /\ (forall r, lookup_ip db user_id ip_address = Some r ->
                AuthorizedIP.is_active r = false ->
                authorized_ips db'
                = update_ip_rows r (reactivated description r)
                                 (authorized_ips db)
                /\ AuthorizedIP.is_active (reactivated description r) = true
                /\ (forall s, description = Some s -> s <> "" ->
                      AuthorizedIP.description (reactivated description r)
                      = Some s)
                /\ (description = None \/ description = Some "" ->
                    AuthorizedIP.description (reactivated description r)
                    = AuthorizedIP.description r))
  /\ (lookup_ip db user_id ip_address = None ->
      authorized_ips db'
      = authorized_ips db
        ++ [AuthorizedIP.mk (authorized_ips_id_seq db) user_id ip_address
                            description true (now db) None])
  /\ register db' = (Ok tt, db')
  /\ (allow_list_wf db ->
      allow_list_wf db'
      /\ List.length (active_entries db' user_id ip_address) = 1%nat
      /\ forall u a, (List.length (active_entries db' u a) <= 1)%nat).
Proof.
  cbv zeta.
  pose proof (register_authorized_ip_active user_id ip_address description db)
    as (r' & Hlookup' & Hactive').
  pose proof (register_authorized_ip_wf user_id ip_address description db)
    as Hwf.
  set (db' := snd (user_service.register_authorized_ip user_id ip_address
                     description db)) in *.
  assert (Hfst : fst (user_service.register_authorized_ip user_id ip_address
                        description db) = Ok tt
                 /\ (forall r, lookup_ip db user_id ip_address = Some r ->
                       AuthorizedIP.is_active r = true -> db' = db)
                 /\ (forall r, lookup_ip db user_id ip_address = Some r ->
                       AuthorizedIP.is_active r = false ->
                       authorized_ips db'
                       = update_ip_rows r (reactivated description r)
                                        (authorized_ips db))
                 /\ (lookup_ip db user_id ip_address = None ->
                     authorized_ips db'
                     = authorized_ips db
                       ++ [AuthorizedIP.mk (authorized_ips_id_seq db) user_id
                             ip_address description true (now db) None])).
  { subst db'. rewrite register_authorized_ip_run.
    destruct (lookup_ip db user_id ip_address) as [r|].
    - destruct (AuthorizedIP.is_active r) eqn:Hactive; simpl.
      + repeat split; try reflexivity; try discriminate.
        intros r0 Heq. injection Heq as <-. congruence.
      + repeat split; try reflexivity; try discriminate.
        * intros r0 Heq. injection Heq as <-. congruence.
        * intros r0 Heq _. now injection Heq as <-.
    - simpl. repeat split; try reflexivity; discriminate. }
  destruct Hfst as (Hok & Hnoop & Hupdate & Hinsert).
  split; [exact Hok|]. split; [exact Hnoop|]. split.
  { intros r Hr Hinactive. split; [now apply Hupdate|].
    split; [reflexivity|]. split.
    - intros s -> Hs. simpl. destruct s; [now elim Hs | reflexivity].
    - intros [-> | ->]; reflexivity. }
  split; [exact Hinsert|]. split.
  { rewrite register_authorized_ip_run, Hlookup', Hactive'. reflexivity. }
  intros Hdb. specialize (Hwf Hdb). split; [exact Hwf|].
  assert (Hle : forall u a, (List.length (active_entries db' u a) <= 1)%nat).
  { intros u a. apply active_entries_le_1. apply Hwf. }
  split; [|exact Hle].
  specialize (Hle user_id ip_address).
  apply find_some in Hlookup'. destruct Hlookup' as [Hin Hentry].
  assert (Hmem : In r' (active_entries db' user_id ip_address)).
  { apply filter_In. split; [exact Hin|]. now rewrite Hentry, Hactive'. }
  destruct (active_entries db' user_id ip_address); [destruct Hmem|].
  simpl in *. lia.
Qed.

(** The amended claim on [db_ip_inactive]: alice logs in from 10.0.0.5,
    which reactivates her entry under the description of the login. *)
Lemma register_authorized_ip_upsert_witness :
  allow_list_wf db_ip_inactive
  /\ user_service.register_authorized_ip 1 "10.0.0.5"
       (Some "IP used for login") db_ip_inactive
     = (Ok tt,
        set_authorized_ips
          [AuthorizedIP.mk 1 1 "10.0.0.5" (Some "IP used for login") true 900
                           None]
          db_ip_inactive)
  /\ List.length
       (active_entries
          (snd (user_service.register_authorized_ip 1 "10.0.0.5"
                  (Some "IP used for login") db_ip_inactive))
          1 "10.0.0.5") = 1%nat.
Proof.
  assert (Hwf : allow_list_wf db_ip_inactive).
  { unfold allow_list_wf. simpl. repeat split.
    - repeat constructor. intros [].
    - repeat constructor. intros [].
    - intros r [<- | []]. simpl. lia. }
  split; [exact Hwf|]. split; [reflexivity|].
  destruct (register_authorized_ip_upsert 1 "10.0.0.5"
              (Some "IP used for login") db_ip_inactive)
    as (_ & _ & _ & _ & _ & Hinv).
  destruct (Hinv Hwf) as (_ & Hone & _). exact Hone.
Defined.

(** ** C2: the access guard *)

(** C2.  On a route that is not public: when the request carries a bearer
    token, the token resolves to a user, the check of the client address
    for that user returns False and nothing raises, the guard answers 403
    with the client address in the body, whatever the rest of the
    application is (it is not called); without a bearer token the request
    is forwarded on the untouched store; and when anything in the check
    raises (opening the session, resolving the token, the check itself,
    closing the session) the exception is swallowed and the request is
    forwarded.  A check that returns True forwards the request too. *)
Theorem guard_rejects_or_forwards (H : Type)
  (call_next : Request.t -> DB -> H * DB)
  (get_db_next get_db_close : M unit)
  (get_current_user : string -> M User.t)
  (check_ip_authorization : Z -> string -> M bool)
  (request : Request.t) (db : DB) :
  main.is_public request = false ->
  let guard :=
    main.validate_ip H call_next get_db_next get_db_close get_current_user
                     check_ip_authorization request db in
  let check :=
    main.ip_check H get_db_next get_db_close get_current_user
                  check_ip_authorization request db in
  (forall user db1 db2 db3 db4,
      has_bearer request = true ->
      get_db_next db = (Ok tt, db1) ->
      get_current_user (bearer_token request) db1 = (Ok user, db2) ->
      check_ip_authorization (User.id user) (Request.client_host request) db2
      = (Ok false, db3) ->
      get_db_close db3 = (Ok tt, db4) ->
      guard = (rejection (Request.client_host request), db4))
  /\ (has_bearer request = false -> guard = forwarded call_next request db)
  /\ (forall e db', check = (Raise e, db') ->
                    guard = forwarded call_next request db')
  /\ (forall e db1 db2,
        has_bearer request = true ->
        get_db_next db = (Ok tt, db1) ->
        get_current_user (bearer_token request) db1 = (Raise e, db2) ->
        exists db', guard = forwarded call_next request db')
  /\ (forall user e db1 db2 db3,
        has_bearer request = true ->
        get_db_next db = (Ok tt, db1) ->
        get_current_user (bearer_token request) db1 = (Ok user, db2) ->
        check_ip_authorization (User.id user) (Request.client_host request)
                               db2 = (Raise e, db3) ->
        exists db', guard = forwarded call_next request db')
  /\ (forall user db1 db2 db3,
        has_bearer request = true ->
        get_db_next db = (Ok tt, db1) ->
        get_current_user (bearer_token request) db1 = (Ok user, db2) ->
        check_ip_authorization (User.id user) (Request.client_host request)
                               db2 = (Ok true, db3) ->
        exists db', guard = forwarded call_next request db').
Proof.
  intros Hpublic. cbv zeta.
  unfold main.validate_ip, forwarded. rewrite Hpublic.
  assert (Hbearer : has_bearer request = true ->
            main.ip_check H get_db_next get_db_close get_current_user
                          check_ip_authorization request db
            = bind get_db_next (fun _ =>
                try_finally
                  (bind (get_current_user (bearer_token request)) (fun user =>
                     bind (check_ip_authorization (User.id user)
                             (Request.client_host request)) (fun authorized =>
                       if negb authorized
                       then ret (Some (rejection
                                         (Request.client_host request)))
                       else ret None)))
                  get_db_close) db).
  { unfold has_bearer, bearer_token, main.ip_check, bearer_header.
    destruct (Request.authorization request) as [auth|]; [|discriminate].
    now intros ->. }
  assert (Hplain : has_bearer request = false ->
            main.ip_check H get_db_next get_db_close get_current_user
                          check_ip_authorization request db = (Ok None, db)).
  { unfold has_bearer, main.ip_check, bearer_header.
    destruct (Request.authorization request) as [auth|]; [|reflexivity].
    now intros ->. }
  split; [|split; [|split; [|split; [|split]]]].
  - intros user db1 db2 db3 db4 Hb Hnext Huser Hcheck Hclose.
    rewrite (Hbearer Hb). unfold bind at 1. rewrite Hnext.
    unfold try_finally, bind. rewrite Huser, Hcheck. simpl. unfold ret.
    rewrite Hclose. reflexivity.
  - intros Hb. now rewrite (Hplain Hb).
  - intros e db' ->. reflexivity.
  - intros e db1 db2 Hb Hnext Huser.
    rewrite (Hbearer Hb). unfold bind at 1. rewrite Hnext.
    unfold try_finally, bind. rewrite Huser.
    destruct (get_db_close db2) as [[[]|e'] db']; eexists; reflexivity.
  - intros user e db1 db2 db3 Hb Hnext Huser Hcheck.
    rewrite (Hbearer Hb). unfold bind at 1. rewrite Hnext.
    unfold try_finally, bind. rewrite Huser, Hcheck.
    destruct (get_db_close db3) as [[[]|e'] db']; eexists; reflexivity.
  - intros user db1 db2 db3 Hb Hnext Huser Hcheck.
    rewrite (Hbearer Hb). unfold bind at 1. rewrite Hnext.
    unfold try_finally, bind. rewrite Huser, Hcheck. simpl. unfold ret.
    destruct (get_db_close db3) as [[[]|e'] db']; eexists; reflexivity.
Qed.

(** The theorem with the service's own check: alice's token arrives from
    8.8.8.8, for which she has no active entry, and the guard answers 403. *)
Lemma guard_rejects_or_forwards_witness :
  let request := Request.mk "/chats/" "GET" "8.8.8.8" (Some "Bearer tok") in
  main.is_public request = false
  /\ bearer_token request = "tok"
  /\ main.validate_ip unit (fun _ db => (tt, db)) (ret tt) (ret tt)
       (fun _ => ret alice) user_service.check_ip_authorization request
       db_ip_inactive
     = (rejection "8.8.8.8", db_ip_inactive).
Proof.
  intros request.
  assert (Hpublic : main.is_public request = false) by reflexivity.
  split; [exact Hpublic|]. split; [reflexivity|].
  destruct (guard_rejects_or_forwards unit (fun _ db => (tt, db)) (ret tt)
              (ret tt) (fun _ => ret alice)
              user_service.check_ip_authorization request db_ip_inactive
              Hpublic) as (Hreject & _).
  apply (Hreject alice db_ip_inactive db_ip_inactive db_ip_inactive
           db_ip_inactive); reflexivity.
Defined.

(** ** C9: removing an address from the allow-list *)

Lemma deactivate_authorized_ip_run (user_id : Z) (ip_address : string)
  (db : DB) :
  user_service.deactivate_authorized_ip user_id ip_address db =
  match find (fun r => is_entry user_id ip_address r
                       && Bool.eqb (AuthorizedIP.is_active r) true)
             (authorized_ips db) with
  | Some authorized_ip =>
      (Ok true,
       set_authorized_ips
         (update_ip_rows authorized_ip (deactivated authorized_ip)
                         (authorized_ips db)) db)
  | None => (Ok false, db)
  end.
Proof.
  unfold user_service.deactivate_authorized_ip. run.
  unfold is_entry.
  destruct (find _ (authorized_ips db)) as [r|] eqn:Hfind; [|reflexivity].
  apply find_some in Hfind. destruct Hfind as [_ Hp].
  apply andb_true_iff in Hp. destruct Hp as [_ Hactive].
  apply eqb_prop in Hactive.
  unfold commit_authorized_ip. fold (deactivated r).
  destruct (AuthorizedIP_eq_dec r (deactivated r)) as [Heq|_]; [|reflexivity].
  rewrite Heq in Hactive. discriminate.
Qed.

(** The service function behind the endpoint does its part: it switches
    the matching active entry off and returns True, or returns False and
    writes nothing; no row is ever removed. *)
Lemma deactivate_authorized_ip_soft (user_id : Z) (ip_address : string)
  (db : DB) :
  exists found db',
    user_service.deactivate_authorized_ip user_id ip_address db
    = (Ok found, db')
    /\ map AuthorizedIP.id (authorized_ips db')
       = map AuthorizedIP.id (authorized_ips db)
    /\ (found = false ->
        db' = db /\ active_entries db user_id ip_address = [])
    /\ (found = true ->
        exists r, In r (active_entries db user_id ip_address)
                  /\ In (deactivated r) (authorized_ips db')).
Proof.
  rewrite deactivate_authorized_ip_run.
  destruct (find _ (authorized_ips db)) as [r|] eqn:Hfind.
  - exists true. eexists. split; [reflexivity|]. simpl.
    split; [now apply update_ip_rows_ids|]. split; [discriminate|].
    intros _. apply find_some in Hfind. destruct Hfind as [Hin Hp].
    exists r. split.
    + apply filter_In. split; [exact Hin|].
      apply andb_true_iff in Hp. destruct Hp as [He Ha].
      apply eqb_prop in Ha. now rewrite He, Ha.
    + unfold update_ip_rows. apply in_map_iff. exists r.
      now rewrite Z.eqb_refl.
  - exists false, db. split; [reflexivity|]. split; [reflexivity|].
    split; [|discriminate]. intros _. split; [reflexivity|].
    apply filter_all_false. intros x Hx.
    rewrite <- (find_none _ _ Hfind x Hx).
    now destruct (AuthorizedIP.is_active x).
Qed.

(** C9: the endpoint itself never gets that far.  It reads the attribute
    [scope] of the class [Request]; the class has none (it is set on each
    request object when that is built), and a class-level mapping without
    the key "fastapi_aio_request" would not help either: the handler raises
    [AttributeError] before any check and writes nothing.  At alice's
    request to remove 10.0.0.5 her entry stays active. *)
Theorem remove_authorized_ip_raises (ip_address : string)
  (current_user : User.t) (db : DB) :
  users.remove_authorized_ip None ip_address current_user db
  = (Raise (AttributeError "type object 'Request' has no attribute 'scope'"),
     db)
  /\ (forall scope,
        users.scope_get "fastapi_aio_request" scope = None ->
        users.remove_authorized_ip (Some scope) ip_address current_user db
        = (Raise (AttributeError
                    "'NoneType' object has no attribute 'client'"), db))
  /\ List.length
       (active_entries
          (snd (users.remove_authorized_ip None "10.0.0.5" alice db_ip_active))
          1 "10.0.0.5") = 1%nat.
Proof.
  split; [reflexivity|]. split; [|reflexivity].
  intros scope Hnone. unfold users.remove_authorized_ip. now rewrite Hnone.
Qed.

(** Had the handler been given the request, it would do what it attempts:
    400 for the address of the request, otherwise the service's answer. *)
Lemma remove_authorized_ip_intended (request : Request.t)
  (ip_address : string) (current_user : User.t) (db : DB) :
  let run :=
    users.remove_authorized_ip (Some [("fastapi_aio_request", request)])
                               ip_address current_user db in
  (Request.client_host request = ip_address ->
   run = (Raise (HTTPException HTTP_400_BAD_REQUEST
            "Cannot remove the IP address you are currently using"), db))
  /\ (Request.client_host request <> ip_address ->
      active_entries db (User.id current_user) ip_address = [] ->
      run = (Raise (HTTPException HTTP_404_NOT_FOUND
               "IP address not found or already deactivated"), db))
  /\ (Request.client_host request <> ip_address ->
      active_entries db (User.id current_user) ip_address <> [] ->
      exists db', run = (Ok tt, db')).
Proof.
  cbv zeta. unfold users.remove_authorized_ip. simpl. run.
  destruct (deactivate_authorized_ip_soft (User.id current_user) ip_address db)
    as (found & db' & Hrun & _ & Hfalse & Htrue).
  split; [|split].
  - intros ->. now rewrite String.eqb_refl.
  - intros Hne Hnone. apply String.eqb_neq in Hne. rewrite Hne, Hrun.
    destruct found; simpl.
    + destruct (Htrue eq_refl) as (r & Hr & _). rewrite Hnone in Hr.
      destruct Hr.
    + now destruct (Hfalse eq_refl) as [-> _].
  - intros Hne Hsome. apply String.eqb_neq in Hne. rewrite Hne, Hrun.
    destruct found; simpl.
    + eexists. reflexivity.
    + destruct (Hfalse eq_refl) as [_ Hnone]. contradiction.
Qed.

(** ** Fresh ids in reachable stores

    The hypothesis [next_ids_unused] of the unread-count scenario holds in
    every store the handlers lead to. *)

Lemma ids_below_seq_unused (db : DB) : ids_below_seq db -> next_ids_unused db.
Proof.
  intros [Hm _] m Hin. destruct (Hm m Hin). lia.
Qed.

Lemma ids_below_seq_same (db db' : DB) :
  messages db' = messages db -> chats db' = chats db ->
  messages_id_seq db' = messages_id_seq db ->
  chats_id_seq db' = chats_id_seq db ->
  ids_below_seq db -> ids_below_seq db'.
Proof. unfold ids_below_seq. now intros -> -> -> ->. Qed.

Ltac same_ids :=
  run; repeat (break_match; simpl);
  try assumption;
  (eapply ids_below_seq_same; [| | | | eassumption]; reflexivity).

Lemma create_chat_ids_below (chat : ChatCreate.t) (current_user : User.t)
  (db : DB) :
  ids_below_seq db ->
  ids_below_seq (snd (chats.create_chat chat current_user db)).
Proof.
  intros [Hm Hc]. rewrite create_chat_run. cbv zeta.
  destruct (len_ne _ _); simpl; [now split|]. split; simpl.
  - intros m Hin. destruct (Hm m Hin). lia.
  - intros c Hin. apply in_app_iff in Hin.
    destruct Hin as [Hin | [<- | []]]; [apply Hc in Hin; lia | simpl; lia].
Qed.

Lemma update_chat_ids_below (chat_id : Z) (chat_update : ChatUpdate.t)
  (current_user : User.t) (db : DB) :
  ids_below_seq db ->
  ids_below_seq (snd (chats.update_chat chat_id chat_update current_user db)).
Proof.
  intros Hinv. unfold chats.update_chat. run.
  destruct (find _ (users_chats db)); simpl; [|exact Hinv].
  destruct (find _ (chats db)) as [chat|] eqn:Hfind; [|exact Hinv].
  apply find_some in Hfind. destruct Hfind as [Hchat _].
  unfold commit_chat. destruct (Chat_eq_dec _ _); simpl; [exact Hinv|].
  destruct Hinv as [Hm Hc]. split; simpl; [exact Hm|].
  intros c Hin. apply in_map_iff in Hin. destruct Hin as [c0 [Heq Hin0]].
  destruct (Chat.id c0 =? Chat.id chat); subst c; [|now apply Hc].
  simpl. specialize (Hc chat Hchat).
  now destruct (ChatUpdate.name chat_update).
Qed.

Lemma add_users_to_chat_ids_below (chat_id : Z)
  (chat_add_users : ChatAddUsers.t) (current_user : User.t) (db : DB) :
  ids_below_seq db ->
  ids_below_seq
    (snd (chats.add_users_to_chat chat_id chat_add_users current_user db)).
Proof.
  intros Hinv. rewrite add_users_to_chat_run.
  destruct (find _ _); [|exact Hinv].
  destruct (lookup_chat db chat_id); [|exact Hinv].
  destruct (negb _); [exact Hinv|]. cbv zeta.
  destruct (len_ne _ _); [exact Hinv|]. exact Hinv.
Qed.

Lemma remove_user_from_chat_ids_below (chat_id user_id : Z)
  (current_user : User.t) (db : DB) :
  ids_below_seq db ->
  ids_below_seq
    (snd (chats.remove_user_from_chat chat_id user_id current_user db)).
Proof.
  intros Hinv. rewrite remove_user_from_chat_run.
  destruct (_ && _); [exact Hinv|].
  destruct (find _ _); [|exact Hinv]. cbv zeta.
  destruct (Nat.leb _ 1); simpl; [|exact Hinv].
  destruct Hinv as [Hm Hc]. split; simpl.
  - intros m Hin. apply filter_In in Hin. now apply Hm.
  - intros c Hin. apply filter_In in Hin. now apply Hc.
Qed.

Lemma create_message_ids_below (message : MessageCreate.t)
  (current_user : User.t) (db : DB) :
  ids_below_seq db ->
  ids_below_seq (snd (messages.create_message message current_user db)).
Proof.
  intros Hinv. rewrite create_message_run. unfold lookup_chat.
  destruct (find _ (chats db)) as [chat|] eqn:Hfind; [|exact Hinv].
  destruct (find _ (users_chats db)); [|exact Hinv].
  apply find_some in Hfind. destruct Hfind as [Hchat Hid].
  apply Z.eqb_eq in Hid. destruct Hinv as [Hm Hc]. split; simpl; [|exact Hc].
  intros m Hin. apply in_app_iff in Hin. destruct Hin as [Hin | [<- | []]].
  - destruct (Hm m Hin). lia.
  - simpl. specialize (Hc chat Hchat). lia.
Qed.

Lemma commit_message_ids_below (old new : Message.t) (db : DB) :
  In old (messages db) ->
  Message.id new = Message.id old ->
  Message.chat_id new = Message.chat_id old ->
  ids_below_seq db -> ids_below_seq (snd (commit_message old new db)).
Proof.
  intros Hold Hid Hchat Hinv. unfold commit_message.
  destruct (Message_eq_dec old new); simpl; [exact Hinv|].
  destruct Hinv as [Hm Hc]. split; simpl; [|exact Hc].
  intros m Hin. apply in_map_iff in Hin. destruct Hin as [m0 [Heq Hin0]].
  destruct (Message.id m0 =? Message.id old); subst m; [|now apply Hm].
  simpl. rewrite Hid, Hchat. now apply Hm.
Qed.

Lemma update_message_ids_below (message_id : Z)
  (message_update : MessageUpdate.t) (current_user : User.t) (db : DB) :
  ids_below_seq db ->
  ids_below_seq
    (snd (messages.update_message message_id message_update current_user db)).
Proof.
  intros Hinv. rewrite update_message_run. unfold lookup_message.
  destruct (find _ (messages db)) as [m|] eqn:Hfind; [|exact Hinv].
  destruct (negb _); [exact Hinv|]. apply find_some in Hfind.
  apply commit_message_ids_below; try tauto;
    now destruct (MessageUpdate.content message_update).
Qed.

Lemma delete_message_ids_below (message_id : Z) (current_user : User.t)
  (db : DB) :
  ids_below_seq db ->
  ids_below_seq (snd (messages.delete_message message_id current_user db)).
Proof.
  intros Hinv. rewrite delete_message_run.
  destruct (lookup_message db message_id); [|exact Hinv].
  destruct (negb _); [exact Hinv|]. destruct Hinv as [Hm Hc].
  split; simpl; [|exact Hc].
  intros m Hin. apply filter_In in Hin. now apply Hm.
Qed.

Lemma mark_message_as_read_ids_below (message_id : Z) (current_user : User.t)
  (db : DB) :
  ids_below_seq db ->
  ids_below_seq
    (snd (messages.mark_message_as_read message_id current_user db)).
Proof.
  intros Hinv. rewrite mark_message_as_read_run. unfold lookup_message.
  destruct (find _ (messages db)) as [m|] eqn:Hfind; [|exact Hinv].
  destruct (find _ (users_chats db)); [|exact Hinv].
  apply find_some in Hfind. apply commit_message_ids_below; tauto.
Qed.

Lemma handle_ids_below (call : Call) (current_user : User.t) (db : DB) :
  ids_below_seq db -> ids_below_seq (handle call current_user db).
Proof.
  intros Hinv. destruct call; simpl.
  - now apply create_chat_ids_below.
  - now apply update_chat_ids_below.
  - now apply add_users_to_chat_ids_below.
  - now apply remove_user_from_chat_ids_below.
  - now apply create_message_ids_below.
  - now apply update_message_ids_below.
  - now apply delete_message_ids_below.
  - now apply mark_message_as_read_ids_below.
  - unfold user_service.register_authorized_ip, commit_authorized_ip,
      add_authorized_ip_row. same_ids.
  - unfold user_service.check_ip_authorization, commit_authorized_ip.
    same_ids.
  - unfold user_service.deactivate_authorized_ip, commit_authorized_ip.
    same_ids.
Qed.

(** In every reachable store the next chat id and the next message id are
    carried by no message. *)
Lemma reachable_next_ids_unused (db : DB) :
  reachable any_call db -> next_ids_unused db.
Proof.
  intros Hreach. apply ids_below_seq_unused.
  induction Hreach as [db (Hc & _ & Hm) | db call current_user _ IH _
                       | db t _ IH].
  - split; intros x Hin; [rewrite Hm in Hin | rewrite Hc in Hin];
      destruct Hin.
  - now apply handle_ids_below.
  - exact IH.
Qed.

(** * Further properties of the allow-list *)

Lemma lookup_active_ip_none (db : DB) (user_id : Z) (ip_address : string) :
  lookup_active_ip db user_id ip_address = None
  <-> active_entries db user_id ip_address = [].
Proof.
  unfold lookup_active_ip, active_entries. split.
  - intros Hnone. apply filter_all_false. intros x Hx.
    rewrite <- (find_none _ _ Hnone x Hx).
    now destruct (AuthorizedIP.is_active x).
  - intros Hnil. apply find_all_false. intros x Hx.
    destruct (is_entry user_id ip_address x && AuthorizedIP.is_active x)
      eqn:Hp.
    + assert (Hin : In x (filter (fun r => is_entry user_id ip_address r
                                           && AuthorizedIP.is_active r)
                                 (authorized_ips db)))
        by (apply filter_In; auto).
      rewrite Hnil in Hin. destruct Hin.
    + rewrite <- Hp. now destruct (AuthorizedIP.is_active x).
Qed.

Lemma lookup_active_ip_some (db : DB) (user_id : Z) (ip_address : string)
  (r : AuthorizedIP.t) :
  lookup_active_ip db user_id ip_address = Some r ->
  In r (authorized_ips db)
  /\ is_entry user_id ip_address r = true
  /\ AuthorizedIP.is_active r = true.
Proof.
  unfold lookup_active_ip. intros Hfind. apply find_some in Hfind.
  destruct Hfind as [Hin Hp]. apply andb_true_iff in Hp.
  destruct Hp as [He Ha]. apply eqb_prop in Ha. auto.
Qed.

Lemma check_ip_authorization_run (user_id : Z) (ip_address : string)
  (db : DB) :
  user_service.check_ip_authorization user_id ip_address db =
  if bypassed ip_address then (Ok true, db)
  else
    match lookup_active_ip db user_id ip_address with
    | Some r =>
        (Ok true,
         if AuthorizedIP_eq_dec r (touched (now db) r) then db
         else set_authorized_ips
                (update_ip_rows r (touched (now db) r) (authorized_ips db))
                db)
    | None => (Ok false, db)
    end.
Proof.
  unfold user_service.check_ip_authorization, lookup_active_ip, bypassed,
    is_entry.
  destruct (_ || _); [reflexivity|]. run.
  destruct (find _ (authorized_ips db)) as [r|]; [|reflexivity].
  unfold commit_authorized_ip. fold (touched (now db) r).
  destruct (AuthorizedIP_eq_dec r (touched (now db) r)); reflexivity.
Qed.

(** X1.  [check_ip_authorization] never raises.  For 127.0.0.1, ::1 and
    every address starting with 192.168. it returns True without reading or
    writing the allow-list; for any other address it returns True exactly
    when the user has an active entry for it, stamps that entry's
    [last_used_at] with the current time, and on False writes nothing.  No
    entry is inserted or deleted. *)
Theorem check_ip_authorization_decides (user_id : Z) (ip_address : string)
  (db : DB) :
  exists ok db',
    user_service.check_ip_authorization user_id ip_address db = (Ok ok, db')
    /\ (bypassed ip_address = true -> ok = true /\ db' = db)
    /\ (bypassed ip_address = false ->
        (ok = true <-> active_entries db user_id ip_address <> []))
    /\ (ok = false -> db' = db)
    /\ (bypassed ip_address = false -> ok = true ->
        exists r, In r (active_entries db user_id ip_address)
                  /\ In (touched (now db) r) (authorized_ips db'))
    /\ map AuthorizedIP.id (authorized_ips db')
       = map AuthorizedIP.id (authorized_ips db).
Proof.
  rewrite check_ip_authorization_run.
  destruct (bypassed ip_address).
  { exists true, db. repeat split; try discriminate; auto. }
  pose proof (lookup_active_ip_none db user_id ip_address) as Hnone.
  destruct (lookup_active_ip db user_id ip_address) as [r|] eqn:Hlookup.
  - apply lookup_active_ip_some in Hlookup.
    destruct Hlookup as (Hin & Hentry & Hactive).
    assert (Hmem : In r (active_entries db user_id ip_address)).
    { apply filter_In. split; [exact Hin|]. now rewrite Hentry, Hactive. }
    eexists. eexists. split; [reflexivity|].
    split; [discriminate|]. split.
    { intros _. split; [|reflexivity]. intros _ Hnil.
      rewrite Hnil in Hmem. destruct Hmem. }
    split; [discriminate|]. split.
    + intros _ _. exists r. split; [exact Hmem|].
      destruct (AuthorizedIP_eq_dec r (touched (now db) r)) as [<- | _];
        [exact Hin|].
      simpl. unfold update_ip_rows. apply in_map_iff. exists r.
      now rewrite Z.eqb_refl.
    + destruct (AuthorizedIP_eq_dec r (touched (now db) r)); [reflexivity|].
      simpl. now apply update_ip_rows_ids.
  - exists false, db. split; [reflexivity|]. split; [discriminate|].
    split.
    { intros _. split; [discriminate|]. intros Hsome. elim Hsome.
      now apply Hnone. }
    repeat split; try discriminate.
Qed.

Lemma key_unique {Row Key} (key : Row -> Key) (rows : list Row) (a b : Row) :
  NoDup (map key rows) -> In a rows -> In b rows -> key a = key b -> a = b.
Proof.
  induction rows as [|r rows IH]; simpl; [tauto|].
  intros Hnd Ha Hb Hkey. inversion Hnd as [|? ? Hfresh Hnd']; subst.
  destruct Ha as [-> | Ha], Hb as [-> | Hb]; auto.
  - exfalso. apply Hfresh. rewrite Hkey. now apply in_map.
  - exfalso. apply Hfresh. rewrite <- Hkey. now apply in_map.
Qed.

(** The rows a filter keeps after an UPDATE to a row it rejects. *)
Lemma filter_update_ip_rows (p : AuthorizedIP.t -> bool)
  (r r' : AuthorizedIP.t) (rows : list AuthorizedIP.t) :
  p r' = false ->
  filter p (update_ip_rows r r' rows)
  = filter (fun x => p x && negb (AuthorizedIP.id x =? AuthorizedIP.id r))
           rows.
Proof.
  intros Hp. induction rows as [|x rows IH]; simpl; [reflexivity|].
  destruct (AuthorizedIP.id x =? AuthorizedIP.id r); simpl.
  - now rewrite Hp, andb_false_r.
  - rewrite andb_true_r. now rewrite IH.
Qed.

Lemma deactivate_authorized_ip_wf (user_id : Z) (ip_address : string)
  (db : DB) :
  allow_list_wf db ->
  allow_list_wf
    (snd (user_service.deactivate_authorized_ip user_id ip_address db)).
Proof.
  intros (Hids & Hkeys & Hlt). rewrite deactivate_authorized_ip_run.
  fold (lookup_active_ip db user_id ip_address).
  destruct (lookup_active_ip db user_id ip_address) as [r|] eqn:Hlookup;
    simpl; [|now repeat split].
  apply lookup_active_ip_some in Hlookup. destruct Hlookup as (Hin & _ & _).
  unfold allow_list_wf. simpl.
  rewrite update_ip_rows_ids, update_ip_rows_keys by auto.
  repeat split; try assumption.
  intros x Hx. apply update_ip_rows_In in Hx.
  destruct Hx as [-> | Hx]; [apply (Hlt r Hin) | now apply Hlt].
Qed.

(** With one entry per user and address, switching the active entry off
    leaves no active entry for the pair and does not touch the others. *)
Lemma deactivate_authorized_ip_entries (user_id : Z) (ip_address : string)
  (db : DB) (r : AuthorizedIP.t) :
  allow_list_wf db ->
  lookup_active_ip db user_id ip_address = Some r ->
  let db' :=
    set_authorized_ips
      (update_ip_rows r (deactivated r) (authorized_ips db)) db in
  active_entries db' user_id ip_address = []
  /\ forall u a, (u, a) <> (user_id, ip_address) ->
                 active_entries db' u a = active_entries db u a.
Proof.
  intros (Hids & Hkeys & _) Hlookup. cbv zeta.
  apply lookup_active_ip_some in Hlookup.
  destruct Hlookup as (Hin & Hentry & _).
  unfold active_entries. simpl. split.
  - rewrite filter_update_ip_rows by (simpl; apply andb_false_r).
    apply filter_all_false. intros x Hx.
    destruct (is_entry user_id ip_address x) eqn:Hxe; [|reflexivity].
    assert (x = r) as ->.
    { apply (key_unique ip_key (authorized_ips db)); try assumption.
      apply is_entry_key in Hxe, Hentry. congruence. }
    now rewrite Z.eqb_refl, andb_false_r.
  - intros u a Hother.
    rewrite filter_update_ip_rows by (simpl; apply andb_false_r).
    apply filter_ext_in. intros x Hx.
    destruct (AuthorizedIP.id x =? AuthorizedIP.id r) eqn:Hid;
      [|now rewrite andb_true_r].
    apply Z.eqb_eq in Hid.
    apply (pk_unique AuthorizedIP.id _ x r Hids Hx Hin) in Hid. subst x.
    destruct (is_entry u a r) eqn:Hr; [|reflexivity].
    exfalso. apply Hother. apply is_entry_key in Hr, Hentry. congruence.
Qed.

(** What the deactivation returns and writes. *)
Lemma deactivate_authorized_ip_spec (user_id : Z)
  (ip_address : string) (db : DB) :
  exists found db',
    user_service.deactivate_authorized_ip user_id ip_address db
    = (Ok found, db')
    /\ (found = true <-> active_entries db user_id ip_address <> [])
    /\ (found = false -> db' = db)
    /\ map AuthorizedIP.id (authorized_ips db')
       = map AuthorizedIP.id (authorized_ips db)
    /\ (allow_list_wf db ->
        allow_list_wf db'
        /\ active_entries db' user_id ip_address = []
        /\ forall u a, (u, a) <> (user_id, ip_address) ->
                       active_entries db' u a = active_entries db u a).
Proof.
  pose proof (deactivate_authorized_ip_wf user_id ip_address db) as Hwf.
  rewrite deactivate_authorized_ip_run in *.
  fold (lookup_active_ip db user_id ip_address) in *.
  pose proof (lookup_active_ip_none db user_id ip_address) as Hnone.
  destruct (lookup_active_ip db user_id ip_address) as [r|] eqn:Hlookup.
  - eexists. eexists. split; [reflexivity|]. split.
    { split; [|reflexivity]. intros _ Hnil. apply Hnone in Hnil.
      discriminate. }
    split; [discriminate|]. split; [now apply update_ip_rows_ids|].
    intros Hdb. split; [now apply Hwf|].
    now apply deactivate_authorized_ip_entries.
  - exists false, db. split; [reflexivity|]. split.
    { split; [discriminate|]. intros Hsome. elim Hsome. now apply Hnone. }
    split; [reflexivity|]. split; [reflexivity|].
    intros Hdb. split; [exact Hdb|]. split; [now apply Hnone | reflexivity].
Qed.

(** X2.  [deactivate_authorized_ip] never raises and never removes a row:
    it returns True exactly when the user has an active entry for the
    address, and False without writing anything otherwise.  On an
    allow-list with one entry per user and address, after the call the
    pair has no active entry left and the active entries of every other
    pair are what they were. *)
Theorem deactivate_authorized_ip_switches_off (user_id : Z)
  (ip_address : string) (db : DB) :
  exists found db',
    user_service.deactivate_authorized_ip user_id ip_address db
    = (Ok found, db')
    /\ (found = true <-> active_entries db user_id ip_address <> [])
    /\ (found = false -> db' = db)
    /\ map AuthorizedIP.id (authorized_ips db')
       = map AuthorizedIP.id (authorized_ips db)
    /\ (allow_list_wf db ->
        allow_list_wf db'
        /\ active_entries db' user_id ip_address = []
        /\ forall u a, (u, a) <> (user_id, ip_address) ->
                       active_entries db' u a = active_entries db u a).
Proof. exact (deactivate_authorized_ip_spec user_id ip_address db). Qed.

(** X2 on alice's active entry for 10.0.0.5. *)
Lemma deactivate_authorized_ip_switches_off_witness :
  allow_list_wf db_ip_active
  /\ exists db',
       user_service.deactivate_authorized_ip 1 "10.0.0.5" db_ip_active
       = (Ok true, db')
       /\ active_entries db' 1 "10.0.0.5" = [].
Proof.
  assert (Hwf : allow_list_wf db_ip_active).
  { unfold allow_list_wf. simpl. repeat split.
    - repeat constructor. intros [].
    - repeat constructor. intros [].
    - intros r [<- | []]. simpl. lia. }
  split; [exact Hwf|].
  destruct (deactivate_authorized_ip_switches_off 1 "10.0.0.5" db_ip_active)
    as (found & db' & Hrun & _ & _ & _ & Hclear).
  exists db'. destruct (Hclear Hwf) as (_ & Hnil & _).
  split; [|exact Hnil]. rewrite Hrun. f_equal.
  assert (Heq : fst (user_service.deactivate_authorized_ip 1 "10.0.0.5"
                       db_ip_active) = Ok true) by reflexivity.
  rewrite Hrun in Heq. simpl in Heq. congruence.
Defined.

Lemma check_ip_authorization_true (user_id : Z) (ip_address : string)
  (db : DB) :
  active_entries db user_id ip_address <> [] ->
  fst (user_service.check_ip_authorization user_id ip_address db) = Ok true.
Proof.
  intros Hsome. rewrite check_ip_authorization_run.
  destruct (bypassed ip_address); [reflexivity|].
  destruct (lookup_active_ip db user_id ip_address) eqn:Hlookup;
    [reflexivity|].
  apply lookup_active_ip_none in Hlookup. contradiction.
Qed.

Lemma check_ip_authorization_false (user_id : Z) (ip_address : string)
  (db : DB) :
  bypassed ip_address = false ->
  active_entries db user_id ip_address = [] ->
  fst (user_service.check_ip_authorization user_id ip_address db) = Ok false.
Proof.
  intros Hb Hnil. rewrite check_ip_authorization_run, Hb.
  apply lookup_active_ip_none in Hnil. now rewrite Hnil.
Qed.

Lemma register_authorized_ip_entries (user_id : Z) (ip_address : string)
  (description : option string) (db : DB) :
  active_entries
    (snd (user_service.register_authorized_ip user_id ip_address description
            db)) user_id ip_address <> [].
Proof.
  destruct (register_authorized_ip_active user_id ip_address description db)
    as (r & Hlookup & Hactive).
  apply find_some in Hlookup. destruct Hlookup as [Hin Hentry].
  intros Hnil.
  assert (Hmem : In r (active_entries
                         (snd (user_service.register_authorized_ip user_id
                                 ip_address description db))
                         user_id ip_address)).
  { apply filter_In. split; [exact Hin|]. now rewrite Hentry, Hactive. }
  rewrite Hnil in Hmem. destruct Hmem.
Qed.

(** X3.  The allow-list operations compose as a switch.  For an address
    outside the private ranges and an allow-list with one entry per user
    and address: after registering, the check passes and deactivating
    returns True; after that the check fails, deactivating again returns
    False, and registering again makes the check pass.  For a bypassed
    address the check passes even right after a deactivation. *)
Theorem allow_list_round_trip (user_id : Z) (ip_address : string)
  (description : option string) (db : DB) :
  let register :=
    user_service.register_authorized_ip user_id ip_address description in
  let check := user_service.check_ip_authorization user_id ip_address in
  let deactivate := user_service.deactivate_authorized_ip user_id ip_address in
  (bypassed ip_address = false -> allow_list_wf db ->
   let db1 := snd (register db) in
   let db2 := snd (deactivate db1) in
   fst (check db1) = Ok true
   /\ fst (deactivate db1) = Ok true
   /\ fst (check db2) = Ok false
   /\ fst (deactivate db2) = Ok false
   /\ fst (check (snd (register db2))) = Ok true)
  /\ (bypassed ip_address = true ->
      fst (check (snd (deactivate db))) = Ok true).
Proof.
  cbv zeta. split.
  - intros Hb Hwf.
    pose proof (register_authorized_ip_wf user_id ip_address description db
                  Hwf) as Hwf1.
    pose proof (register_authorized_ip_entries user_id ip_address description
                  db) as Hsome1.
    set (db1 := snd (user_service.register_authorized_ip user_id ip_address
                       description db)) in *.
    destruct (deactivate_authorized_ip_spec user_id ip_address db1)
      as (found & db2 & Hrun & Hfound & _ & _ & Hclear).
    destruct (Hclear Hwf1) as (_ & Hnil & _).
    rewrite Hrun. simpl.
    split; [now apply check_ip_authorization_true|].
    split; [f_equal; now apply Hfound|].
    split; [now apply check_ip_authorization_false|].
    split.
    + destruct (deactivate_authorized_ip_spec user_id ip_address db2)
        as (found' & db3 & Hrun' & Hfound' & _).
      rewrite Hrun'. simpl. f_equal. destruct found'; [|reflexivity].
      exfalso. now apply (proj1 Hfound').
    + apply check_ip_authorization_true.
      apply register_authorized_ip_entries.
  - intros Hb. rewrite check_ip_authorization_run, Hb. reflexivity.
Qed.

(** X3 on alice's deactivated entry for 10.0.0.5. *)
Lemma allow_list_round_trip_witness :
  bypassed "10.0.0.5" = false
  /\ allow_list_wf db_ip_inactive
  /\ fst (user_service.check_ip_authorization 1 "10.0.0.5"
            (snd (user_service.register_authorized_ip 1 "10.0.0.5" None
                    db_ip_inactive))) = Ok true.
Proof.
  assert (Hwf : allow_list_wf db_ip_inactive).
  { unfold allow_list_wf. simpl. repeat split.
    - repeat constructor. intros [].
    - repeat constructor. intros [].
    - intros r [<- | []]. simpl. lia. }
  split; [reflexivity|]. split; [exact Hwf|].
  destruct (allow_list_round_trip 1 "10.0.0.5" None db_ip_inactive)
    as [Hswitch _].
  destruct (Hswitch eq_refl Hwf) as (Hcheck & _). exact Hcheck.
Defined.

(** X4.  [get_authorized_ips] writes nothing and lists exactly the user's
    active entries: none of another user, none that is switched off.  An
    address is listed right after it was registered, and, on an allow-list
    with one entry per user and address, no longer after it was
    deactivated. *)
Theorem get_authorized_ips_lists_active (user_id : Z) (db : DB) :
  (exists listed,
      user_service.get_authorized_ips user_id db = (Ok listed, db)
      /\ forall r, In r listed
                   <-> In r (authorized_ips db)
                       /\ AuthorizedIP.user_id r = user_id
                       /\ AuthorizedIP.is_active r = true)
  /\ (forall ip_address description,
        exists r,
          In r (match fst (user_service.get_authorized_ips user_id
                             (snd (user_service.register_authorized_ip
                                     user_id ip_address description db))) with
                | Ok listed => listed
                | Raise _ => []
                end)
          /\ AuthorizedIP.ip_address r = ip_address)
  /\ (allow_list_wf db ->
      forall ip_address r,
        In r (match fst (user_service.get_authorized_ips user_id
                           (snd (user_service.deactivate_authorized_ip
                                   user_id ip_address db))) with
              | Ok listed => listed
              | Raise _ => []
              end) ->
        AuthorizedIP.ip_address r <> ip_address).
Proof.
  assert (Hlisted : forall db0 r,
            In r (filter (fun r => (AuthorizedIP.user_id r =? user_id)
                                   && Bool.eqb (AuthorizedIP.is_active r) true)
                         (authorized_ips db0))
            <-> In r (authorized_ips db0)
                /\ AuthorizedIP.user_id r = user_id
                /\ AuthorizedIP.is_active r = true).
  { intros db0 r. rewrite filter_In, andb_true_iff, Z.eqb_eq.
    destruct (AuthorizedIP.is_active r); simpl; intuition congruence. }
  split; [|split].
  - eexists. split; [reflexivity|]. apply Hlisted.
  - intros ip_address description.
    destruct (register_authorized_ip_active user_id ip_address description db)
      as (r & Hlookup & Hactive).
    apply find_some in Hlookup. destruct Hlookup as [Hin Hentry].
    apply is_entry_key in Hentry. injection Hentry as Hu Ha.
    exists r. split; [|exact Ha]. simpl. apply Hlisted. auto.
  - intros Hwf ip_address r. simpl. intros Hin. apply Hlisted in Hin.
    destruct Hin as (Hin & Hu & Hactive). intros Ha.
    destruct (deactivate_authorized_ip_spec user_id ip_address db)
      as (found & db' & Hrun & _ & _ & _ & Hclear).
    rewrite Hrun in Hin. simpl in Hin.
    destruct (Hclear Hwf) as (_ & Hnil & _).
    assert (Hmem : In r (active_entries db' user_id ip_address)).
    { apply filter_In. split; [exact Hin|]. rewrite Hactive, andb_true_r.
      apply is_entry_key. unfold ip_key. congruence. }
    rewrite Hnil in Hmem. destruct Hmem.
Qed.

(** X4 on alice's active entry for 10.0.0.5. *)
Lemma get_authorized_ips_lists_active_witness :
  allow_list_wf db_ip_active
  /\ fst (user_service.get_authorized_ips 1 db_ip_active)
     = Ok [AuthorizedIP.mk 1 1 "10.0.0.5" (Some "home") true 900 None]
  /\ forall r,
       In r (match fst (user_service.get_authorized_ips 1
                          (snd (user_service.deactivate_authorized_ip 1
                                  "10.0.0.5" db_ip_active))) with
             | Ok listed => listed
             | Raise _ => []
             end) ->
       AuthorizedIP.ip_address r <> "10.0.0.5".
Proof.
  assert (Hwf : allow_list_wf db_ip_active).
  { unfold allow_list_wf. simpl. repeat split.
    - repeat constructor. intros [].
    - repeat constructor. intros [].
    - intros r [<- | []]. simpl. lia. }
  split; [exact Hwf|]. split; [reflexivity|].
  destruct (get_authorized_ips_lists_active 1 db_ip_active)
    as (_ & _ & Hgone).
  exact (Hgone Hwf "10.0.0.5").
Defined.

(** ** The allow-list endpoints *)

Lemma add_authorized_ip_run (ip_data : AuthorizedIPCreate.t)
  (current_user : User.t) (db : DB) :
  users.add_authorized_ip ip_data current_user db =
  match lookup_ip db (User.id current_user)
                  (AuthorizedIPCreate.ip_address ip_data) with
  | Some r =>
      if AuthorizedIP.is_active r then
        (Raise (HTTPException HTTP_400_BAD_REQUEST
                              "IP address already authorized"), db)
      else
        let r' := AuthorizedIP.mk (AuthorizedIP.id r) (AuthorizedIP.user_id r)
                    (AuthorizedIP.ip_address r)
                    (AuthorizedIPCreate.description ip_data) true
                    (AuthorizedIP.created_at r) (AuthorizedIP.last_used_at r) in
        (Ok r', set_authorized_ips (update_ip_rows r r' (authorized_ips db)) db)
  | None =>
      add_authorized_ip_row (User.id current_user)
        (AuthorizedIPCreate.ip_address ip_data)
        (AuthorizedIPCreate.description ip_data) db
  end.
Proof.
  unfold users.add_authorized_ip, lookup_ip. run.
  fold (is_entry (User.id current_user)
                 (AuthorizedIPCreate.ip_address ip_data)).
  destruct (find _ (authorized_ips db)) as [r|]; [|reflexivity].
  destruct (AuthorizedIP.is_active r) eqn:Hactive; [reflexivity|].
  unfold commit_authorized_ip.
  destruct (AuthorizedIP_eq_dec _ _) as [Heq|_]; [|reflexivity].
  rewrite Heq in Hactive. discriminate.
Qed.

(** X5.  The endpoint [add_authorized_ip] refuses an address that is
    already active for the user with 400 and writes nothing; it reactivates
    a deactivated entry and replaces its description by the request's, also
    when the request gives none; and it inserts a new active entry when the
    user has none for the address.  Whenever it succeeds it returns the
    entry, which is then in the store and active, so that the address check
    for the user passes; and it keeps the allow-list at one entry per user
    and address. *)
Theorem add_authorized_ip_branches (ip_data : AuthorizedIPCreate.t)
  (current_user : User.t) (db : DB) :
  let user_id := User.id current_user in
  let ip_address := AuthorizedIPCreate.ip_address ip_data in
  let run := users.add_authorized_ip ip_data current_user db in
  (forall r, lookup_ip db user_id ip_address = Some r ->
             AuthorizedIP.is_active r = true ->
             run = (Raise (HTTPException HTTP_400_BAD_REQUEST
                                         "IP address already authorized"), db))
  /\ (forall r, lookup_ip db user_id ip_address = Some r ->
                AuthorizedIP.is_active r = false ->
                exists row,
                  run = (Ok row,
                         set_authorized_ips
                           (update_ip_rows r row (authorized_ips db)) db)
                  /\ AuthorizedIP.id row = AuthorizedIP.id r
                  /\ AuthorizedIP.description row
                     = AuthorizedIPCreate.description ip_data)
  /\ (lookup_ip db user_id ip_address = None ->
      exists row db',
        run = (Ok row, db')
        /\ authorized_ips db' = authorized_ips db ++ [row]
        /\ AuthorizedIP.id row = authorized_ips_id_seq db
        /\ AuthorizedIP.description row
           = AuthorizedIPCreate.description ip_data)
  /\ (forall row db',
        run = (Ok row, db') ->
        In row (authorized_ips db')
        /\ AuthorizedIP.user_id row = user_id
        /\ AuthorizedIP.ip_address row = ip_address
        /\ AuthorizedIP.is_active row = true
        /\ fst (user_service.check_ip_authorization user_id ip_address db')
           = Ok true)
  /\ (allow_list_wf db -> allow_list_wf (snd run)).
Proof.
  cbv zeta. rewrite add_authorized_ip_run.
  destruct (lookup_ip db (User.id current_user)
              (AuthorizedIPCreate.ip_address ip_data)) as [r|] eqn:Hlookup.
  - pose proof (find_some _ _ Hlookup) as [Hin Hentry].
    pose proof (proj1 (is_entry_key _ _ _) Hentry) as Hkey.
    injection Hkey as Hu Ha.
    destruct (AuthorizedIP.is_active r) eqn:Hactive; cbv zeta.
    + split; [reflexivity|]. split; [intros r0 Heq Hr0; injection Heq as <-; congruence|].
      split; [discriminate|]. split; [discriminate|]. auto.
    + split; [intros r0 Heq Hr0; injection Heq as <-; congruence|].
      split.
      { intros r0 Heq _. injection Heq as <-. eexists.
        split; [reflexivity|]. auto. }
      split; [discriminate|]. split.
      * intros row db' Heq. injection Heq as <- <-. simpl.
        assert (Hrow : In (AuthorizedIP.mk (AuthorizedIP.id r)
                             (AuthorizedIP.user_id r)
                             (AuthorizedIP.ip_address r)
                             (AuthorizedIPCreate.description ip_data) true
                             (AuthorizedIP.created_at r)
                             (AuthorizedIP.last_used_at r))
                          (update_ip_rows r
                             (AuthorizedIP.mk (AuthorizedIP.id r)
                                (AuthorizedIP.user_id r)
                                (AuthorizedIP.ip_address r)
                                (AuthorizedIPCreate.description ip_data) true
                                (AuthorizedIP.created_at r)
                                (AuthorizedIP.last_used_at r))
                             (authorized_ips db))).
        { unfold update_ip_rows. apply in_map_iff. exists r.
          now rewrite Z.eqb_refl. }
        repeat (split; [assumption || reflexivity|]).
        apply check_ip_authorization_true. intros Hnil.
        assert (Hmem : In (AuthorizedIP.mk (AuthorizedIP.id r)
                             (AuthorizedIP.user_id r)
                             (AuthorizedIP.ip_address r)
                             (AuthorizedIPCreate.description ip_data) true
                             (AuthorizedIP.created_at r)
                             (AuthorizedIP.last_used_at r))
                          (active_entries
                             (set_authorized_ips
                                (update_ip_rows r
                                   (AuthorizedIP.mk (AuthorizedIP.id r)
                                      (AuthorizedIP.user_id r)
                                      (AuthorizedIP.ip_address r)
                                      (AuthorizedIPCreate.description ip_data)
                                      true (AuthorizedIP.created_at r)
                                      (AuthorizedIP.last_used_at r))
                                   (authorized_ips db)) db)
                             (User.id current_user)
                             (AuthorizedIPCreate.ip_address ip_data))).
        { apply filter_In. split; [exact Hrow|].
          unfold is_entry. simpl.
          now rewrite Hu, Ha, Z.eqb_refl, String.eqb_refl. }
        rewrite Hnil in Hmem. destruct Hmem.
      * intros (Hids & Hkeys & Hlt). unfold allow_list_wf. simpl.
        rewrite update_ip_rows_ids, update_ip_rows_keys by auto.
        repeat split; try assumption.
        intros x Hx. apply update_ip_rows_In in Hx.
        destruct Hx as [-> | Hx]; [apply (Hlt r Hin) | now apply Hlt].
  - pose proof (find_none _ _ Hlookup) as Hnone.
    split; [discriminate|]. split; [discriminate|]. split.
    { intros _. eexists. eexists. split; [reflexivity|]. simpl. auto. }
    split.
    + intros row db' Heq. injection Heq as <- <-. simpl.
      assert (Hrow : In (AuthorizedIP.mk (authorized_ips_id_seq db)
                           (User.id current_user)
                           (AuthorizedIPCreate.ip_address ip_data)
                           (AuthorizedIPCreate.description ip_data) true
                           (now db) None)
                        (authorized_ips db
                         ++ [AuthorizedIP.mk (authorized_ips_id_seq db)
                               (User.id current_user)
                               (AuthorizedIPCreate.ip_address ip_data)
                               (AuthorizedIPCreate.description ip_data) true
                               (now db) None]))
        by (apply in_app_iff; right; now left).
      repeat (split; [assumption || reflexivity|]).
      apply check_ip_authorization_true. intros Hnil.
      unfold active_entries in Hnil. simpl in Hnil.
      assert (Hmem : In (AuthorizedIP.mk (authorized_ips_id_seq db)
                           (User.id current_user)
                           (AuthorizedIPCreate.ip_address ip_data)
                           (AuthorizedIPCreate.description ip_data) true
                           (now db) None)
                        (filter (fun r =>
                                   is_entry (User.id current_user)
                                     (AuthorizedIPCreate.ip_address ip_data) r
                                   && AuthorizedIP.is_active r)
                                (authorized_ips db
                                 ++ [AuthorizedIP.mk (authorized_ips_id_seq db)
                                       (User.id current_user)
                                       (AuthorizedIPCreate.ip_address ip_data)
                                       (AuthorizedIPCreate.description ip_data)
                                       true (now db) None]))).
      { apply filter_In. split; [exact Hrow|]. unfold is_entry. simpl.
        now rewrite Z.eqb_refl, String.eqb_refl. }
      rewrite Hnil in Hmem. destruct Hmem.
    + intros (Hids & Hkeys & Hlt). unfold allow_list_wf. simpl.
      rewrite !map_app. simpl. repeat split.
      * apply NoDup_app; [assumption | repeat constructor; intros [] |].
        intros k Hk [<- | []]. apply in_map_iff in Hk.
        destruct Hk as [x [Hid Hx]]. apply Hlt in Hx. lia.
      * apply NoDup_app; [assumption | repeat constructor; intros [] |].
        intros k Hk [<- | []]. apply in_map_iff in Hk.
        destruct Hk as [x [Hkey Hx]].
        assert (Hentry : is_entry (User.id current_user)
                           (AuthorizedIPCreate.ip_address ip_data) x = true)
          by (apply is_entry_key; exact Hkey).
        rewrite (Hnone x Hx) in Hentry. discriminate.
      * intros x Hx. apply in_app_iff in Hx.
        destruct Hx as [Hx | [<- | []]]; [apply Hlt in Hx; lia | simpl; lia].
Qed.

(** X5 on alice's deactivated entry: the request without description
    clears the old one. *)
Lemma add_authorized_ip_branches_witness :
  lookup_ip db_ip_inactive 1 "10.0.0.5"
  = Some (AuthorizedIP.mk 1 1 "10.0.0.5" (Some "home") false 900 None)
  /\ exists row,
       users.add_authorized_ip (AuthorizedIPCreate.mk "10.0.0.5" None) alice
                               db_ip_inactive
       = (Ok row,
          set_authorized_ips
            (update_ip_rows
               (AuthorizedIP.mk 1 1 "10.0.0.5" (Some "home") false 900 None)
               row (authorized_ips db_ip_inactive)) db_ip_inactive)
       /\ AuthorizedIP.description row = None.
Proof.
  split; [reflexivity|].
  destruct (add_authorized_ip_branches (AuthorizedIPCreate.mk "10.0.0.5" None)
              alice db_ip_inactive) as (_ & Hreactivate & _).
  destruct (Hreactivate _ eq_refl eq_refl) as (row & Hrun & _ & Hdescription).
  exists row. split; [exact Hrun | exact Hdescription].
Defined.

(** The login endpoint as one expression. *)
Lemma login_for_access_token_run (hashed_password : User.t -> string)
  (verify_password : string -> string -> bool)
  (create_access_token : string -> Z -> string)
  (ACCESS_TOKEN_EXPIRE_MINUTES : Z)
  (user_login : UserLogin.t) (request : Request.t) (db : DB) :
  users.login_for_access_token hashed_password verify_password
    create_access_token ACCESS_TOKEN_EXPIRE_MINUTES user_login request db
  = match user_by_username db (UserLogin.username user_login) with
    | Some user =>
        if verify_password (UserLogin.password user_login)
                           (hashed_password user)
        then (Ok (Token.mk (create_access_token (User.username user)
                              ACCESS_TOKEN_EXPIRE_MINUTES) "bearer"),
              snd (user_service.register_authorized_ip (User.id user)
                     (Request.client_host request)
                     (Some "IP used for login") db))
        else (Raise (HTTPException HTTP_401_UNAUTHORIZED
                                   "Incorrect username or password"), db)
    | None => (Raise (HTTPException HTTP_401_UNAUTHORIZED
                                    "Incorrect username or password"), db)
    end.
Proof.
  unfold users.login_for_access_token, user_by_username.
  unfold bind at 1, query at 1. cbv beta iota.
  destruct (find _ (users db)) as [user|]; [|reflexivity].
  destruct (verify_password _ _); [|reflexivity]. simpl.
  unfold bind. rewrite register_authorized_ip_run.
  destruct (lookup_ip db (User.id user) (Request.client_host request))
    as [r|]; [destruct (AuthorizedIP.is_active r)|]; reflexivity.
Qed.

(** X6.  Login: a user name without row and a wrong password get the same
    401 and leave the store untouched; a correct password returns a bearer
    token for the user name and registers the client's address for the
    user, so that the address check for the user passes from then on.  The
    users table is not written. *)
Theorem login_registers_address (hashed_password : User.t -> string)
  (verify_password : string -> string -> bool)
  (create_access_token : string -> Z -> string)
  (ACCESS_TOKEN_EXPIRE_MINUTES : Z)
  (user_login : UserLogin.t) (request : Request.t) (db : DB) :
  let login :=
    users.login_for_access_token hashed_password verify_password
      create_access_token ACCESS_TOKEN_EXPIRE_MINUTES user_login request db in
  let denied :=
    (Raise (HTTPException HTTP_401_UNAUTHORIZED
                          "Incorrect username or password"), db) in
  (user_by_username db (UserLogin.username user_login) = None ->
   login = denied)
  /\ (forall user,
        user_by_username db (UserLogin.username user_login) = Some user ->
        verify_password (UserLogin.password user_login)
                        (hashed_password user) = false ->
        login = denied)
  /\ (forall user,
        user_by_username db (UserLogin.username user_login) = Some user ->
        verify_password (UserLogin.password user_login)
                        (hashed_password user) = true ->
        let db' :=
          snd (user_service.register_authorized_ip (User.id user)
                 (Request.client_host request) (Some "IP used for login")
                 db) in
        login
        = (Ok (Token.mk (create_access_token (User.username user)
                           ACCESS_TOKEN_EXPIRE_MINUTES) "bearer"), db')
        /\ users db' = users db
        /\ active_entries db' (User.id user) (Request.client_host request)
           <> []
        /\ fst (user_service.check_ip_authorization (User.id user)
                  (Request.client_host request) db') = Ok true).
Proof.
  cbv zeta. rewrite login_for_access_token_run.
  destruct (user_by_username db (UserLogin.username user_login)) as [user|].
  - split; [discriminate|]. split.
    + intros user0 Heq Hwrong. injection Heq as <-. now rewrite Hwrong.
    + intros user0 Heq Hright. injection Heq as <-. rewrite Hright.
      split; [reflexivity|].
      pose proof (register_authorized_ip_entries (User.id user)
                    (Request.client_host request) (Some "IP used for login")
                    db) as Hsome.
      split; [|split; [exact Hsome
                      | now apply check_ip_authorization_true]].
      rewrite register_authorized_ip_run.
      destruct (lookup_ip db (User.id user) (Request.client_host request))
        as [r|]; [destruct (AuthorizedIP.is_active r)|]; reflexivity.
  - split; [reflexivity|]. split; intros user Heq; discriminate.
Qed.

(** X6 for alice, logging in from 8.8.8.8 with the right password. *)
Lemma login_registers_address_witness :
  let verify := fun password digest : string =>
                  String.eqb digest (String.append "digest of " password) in
  let digest_of := fun _ : User.t => "digest of s3cret" in
  user_by_username db_users "alice" = Some alice
  /\ verify "s3cret" (digest_of alice) = true
  /\ fst (user_service.check_ip_authorization 1 "8.8.8.8" db_users) = Ok false
  /\ exists token db',
       users.login_for_access_token digest_of verify
         (fun sub _ => String.append "token for " sub) 30
         (UserLogin.mk "alice" "s3cret")
         (Request.mk "/users/token" "POST" "8.8.8.8" None) db_users
       = (Ok token, db')
       /\ fst (user_service.check_ip_authorization 1 "8.8.8.8" db') = Ok true.
Proof.
  intros verify digest_of.
  split; [reflexivity|]. split; [reflexivity|]. split; [reflexivity|].
  destruct (login_registers_address digest_of verify
              (fun sub _ => String.append "token for " sub) 30
              (UserLogin.mk "alice" "s3cret")
              (Request.mk "/users/token" "POST" "8.8.8.8" None) db_users)
    as (_ & _ & Hok).
  destruct (Hok alice eq_refl eq_refl) as (Hrun & _ & _ & Hcheck).
  eexists. eexists. split; [exact Hrun | exact Hcheck].
Defined.

(** ** The service layer of the messages *)

Lemma get_message_run (message_id : Z) (db : DB) :
  message_service.get_message message_id db =
  match lookup_message db message_id with
  | None => (Raise (HTTPException HTTP_404_NOT_FOUND "Message not found"), db)
  | Some m => (Ok m, db)
  end.
Proof.
  unfold message_service.get_message, lookup_message. run.
  destruct (find _ (messages db)); reflexivity.
Qed.

(** Committing a row on which [is_read] was set to the value it has
    writes nothing. *)
Lemma commit_message_same_flag (m : Message.t) (db : DB) :
  Message.is_read m = true ->
  commit_message m
    (Message.mk (Message.id m) (Message.content m) (Message.sender_id m)
                (Message.chat_id m) true (Message.created_at m)
                (Message.updated_at m)) db
  = (Ok m, db).
Proof.
  intros Hread. destruct m as [i c s ch r ca ua]. simpl in *. subst r.
  unfold commit_message.
  destruct (Message_eq_dec _ _) as [_ | Hne]; [reflexivity|].
  now contradiction Hne.
Qed.

Lemma service_update_message_run (message_id : Z)
  (message_update : MessageUpdate.t) (user_id : Z) (db : DB) :
  message_service.update_message message_id message_update user_id db =
  match lookup_message db message_id with
  | None => (Raise (HTTPException HTTP_404_NOT_FOUND "Message not found"), db)
  | Some m =>
      if negb (Message.sender_id m =? user_id) then
        (Raise (HTTPException HTTP_403_FORBIDDEN
                              "Cannot update messages from other users"), db)
      else
        let content :=
          match MessageUpdate.content message_update with
          | Some content => content
          | None => Message.content m
          end in
        let is_read :=
          match MessageUpdate.is_read message_update with
          | Some is_read => is_read
          | None => Message.is_read m
          end in
        commit_message m
          (Message.mk (Message.id m) content (Message.sender_id m)
                      (Message.chat_id m) is_read (Message.created_at m)
                      (Message.updated_at m)) db
  end.
Proof.
  unfold message_service.update_message. unfold bind at 1.
  rewrite get_message_run.
  destruct (lookup_message db message_id) as [m|]; [|reflexivity].
  run. destruct (Message.sender_id m =? user_id); simpl; [|reflexivity].
  destruct message_update as [[content|] [is_read|]]; destruct m;
    reflexivity.
Qed.

(** X7.  The service functions of the messages and the route handlers do
    the same for a user: creating, deleting and marking as read agree on
    every store, result and error alike (the service's test "if not
    is_read" saves a commit that would write nothing); the route's update
    is the service's update with [is_read] left out, so through the route
    [is_read] is never changed, while the service's update lets the sender
    set it to any value, also back to unread. *)
Theorem message_service_matches_routes (current_user : User.t) (db : DB) :
  let user_id := User.id current_user in
  (forall message,
      message_service.create_message message user_id db
      = messages.create_message message current_user db)
  /\ (forall message_id,
        message_service.delete_message message_id user_id db
        = messages.delete_message message_id current_user db)
  /\ (forall message_id,
        message_service.mark_message_as_read message_id user_id db
        = messages.mark_message_as_read message_id current_user db)
  /\ (forall message_id content is_read,
        messages.update_message message_id
          (MessageUpdate.mk content is_read) current_user db
        = message_service.update_message message_id
            (MessageUpdate.mk content None) user_id db)
  /\ (forall message_id m content is_read,
        lookup_message db message_id = Some m ->
        Message.sender_id m = user_id ->
        (exists row db',
            message_service.update_message message_id
              (MessageUpdate.mk content (Some is_read)) user_id db
            = (Ok row, db')
            /\ Message.is_read row = is_read)
        /\ (exists row db',
               messages.update_message message_id
                 (MessageUpdate.mk content (Some is_read)) current_user db
               = (Ok row, db')
               /\ Message.is_read row = Message.is_read m)).
Proof.
  cbv zeta. split; [|split; [|split; [|split]]].
  - intros message. reflexivity.
  - intros message_id. rewrite delete_message_run.
    unfold message_service.delete_message. unfold bind at 1.
    rewrite get_message_run.
    destruct (lookup_message db message_id) as [m|]; [|reflexivity].
    run. destruct (Message.sender_id m =? User.id current_user);
      reflexivity.
  - intros message_id. rewrite mark_message_as_read_run.
    unfold message_service.mark_message_as_read. unfold bind at 1.
    rewrite get_message_run.
    destruct (lookup_message db message_id) as [m|]; [|reflexivity].
    run. destruct (find _ (users_chats db)); simpl; [|reflexivity].
    destruct (Message.is_read m) eqn:Hread; simpl; [|reflexivity].
    symmetry. now apply commit_message_same_flag.
  - intros message_id content is_read.
    rewrite update_message_run, service_update_message_run.
    destruct (lookup_message db message_id) as [m|]; [|reflexivity].
    destruct (negb _); [reflexivity|]. simpl.
    destruct content; destruct m; reflexivity.
  - intros message_id m content is_read Hfind Hsender.
    rewrite update_message_run, service_update_message_run, Hfind.
    assert (Hmine : (Message.sender_id m =? User.id current_user) = true)
      by (apply Z.eqb_eq; exact Hsender).
    rewrite Hmine. simpl. split.
    + destruct (commit_message_spec m
                 (Message.mk (Message.id m)
                    match content with
                    | Some c => c
                    | None => Message.content m
                    end (Message.sender_id m) (Message.chat_id m) is_read
                    (Message.created_at m) (Message.updated_at m)) db)
        as (row & db' & Hrun & _ & _ & _ & _ & Hflag & _).
      exists row, db'. split; [exact Hrun | exact Hflag].
    + destruct (commit_message_spec m
                 match content with
                 | Some c =>
                     Message.mk (Message.id m) c (Message.sender_id m)
                       (Message.chat_id m) (Message.is_read m)
                       (Message.created_at m) (Message.updated_at m)
                 | None => m
                 end db)
        as (row & db' & Hrun & _ & _ & _ & _ & Hflag & _).
      exists row, db'. split; [exact Hrun|]. rewrite Hflag.
      destruct content; reflexivity.
Qed.

(** ** The content marker *)

(** A string that starts with [p] is [p] followed by its slice from the
    length of [p]. *)
Lemma startswith_slice (p s : string) :
  startswith p s = true -> s = String.append p (slice_from (String.length p) s).
Proof.
  unfold startswith. revert s.
  induction p as [|a p IH]; intros s Hpre; [reflexivity|].
  destruct s as [|b s]; simpl in *; [discriminate|].
  destruct (ascii_dec a b) as [<- | _]; [|discriminate].
  f_equal. now apply IH.
Qed.

Lemma startswith_append (p s : string) :
  startswith p (String.append p s) = true.
Proof.
  unfold startswith. induction p as [|a p IH]; simpl.
  - now destruct s.
  - destruct (ascii_dec a a) as [_ | Hne]; [exact IH | now contradiction Hne].
Qed.

Lemma slice_from_append (p s : string) :
  slice_from (String.length p) (String.append p s) = s.
Proof.
  induction p as [|a p IH]; simpl; [reflexivity | exact IH].
Qed.

(** X8.  The content marker round-trips: decrypting an encrypted content
    gives the content back, for every content, so encrypting loses nothing
    (it is injective and adds ten characters); decrypting removes one
    marker only, leaves a string without the marker as it is, and is undone
    by encrypting exactly on the strings that start with the marker.  A
    plain content that itself starts with "ENCRYPTED:" is therefore
    shortened by decrypting although it was never encrypted. *)
Theorem decrypt_encrypt_round_trip :
  (forall content,
      message_service.decrypt_message_content
        (message_service.encrypt_message_content content) = content)
  /\ (forall a b,
        message_service.encrypt_message_content a
        = message_service.encrypt_message_content b -> a = b)
  /\ (forall content,
        String.length (message_service.encrypt_message_content content)
        = Nat.add 10 (String.length content))
  /\ (forall content,
        message_service.decrypt_message_content
          (message_service.encrypt_message_content
             (message_service.encrypt_message_content content))
        = message_service.encrypt_message_content content)
  /\ (forall s,
        startswith "ENCRYPTED:" s = false ->
        message_service.decrypt_message_content s = s)
  /\ (forall s,
        message_service.encrypt_message_content
          (message_service.decrypt_message_content s) = s
        <-> startswith "ENCRYPTED:" s = true).
Proof.
  assert (Hround : forall content,
             message_service.decrypt_message_content
               (message_service.encrypt_message_content content) = content).
  { intros content.
    unfold message_service.decrypt_message_content,
      message_service.encrypt_message_content.
    rewrite startswith_append.
    exact (slice_from_append "ENCRYPTED:" content). }
  split; [exact Hround|]. split; [|split; [|split; [|split]]].
  - intros a b Heq. rewrite <- (Hround a), <- (Hround b). now rewrite Heq.
  - intros content. reflexivity.
  - intros content. apply Hround.
  - intros s Hplain. unfold message_service.decrypt_message_content.
    now rewrite Hplain.
  - intros s. split.
    + intros Heq. rewrite <- Heq.
      exact (startswith_append "ENCRYPTED:" _).
    + intros Hmarked. unfold message_service.decrypt_message_content.
      rewrite Hmarked. symmetry.
      exact (startswith_slice "ENCRYPTED:" s Hmarked).
Qed.

(** ** What happens to a stored message *)

Lemma commit_message_step (call : Call) (current_user : User.t) (db : DB)
  (old new : Message.t) :
  In old (messages db) ->
  Message.id new = Message.id old ->
  Message.sender_id new = Message.sender_id old ->
  Message.chat_id new = Message.chat_id old ->
  Message.created_at new = Message.created_at old ->
  (Message.content new <> Message.content old ->
   Message.sender_id old = User.id current_user
   /\ exists message_update,
        call = UpdateMessage (Message.id old) message_update
        /\ MessageUpdate.content message_update
           = Some (Message.content new)) ->
  (Message.is_read new <> Message.is_read old ->
   call = MarkRead (Message.id old)
   /\ Message.is_read new = true
   /\ is_member db (User.id current_user) (Message.chat_id old)) ->
  messages_step call current_user db (snd (commit_message old new db)).
Proof.
  intros Hin Hid Hsender Hchat Hcreated Hcontent Hflag.
  unfold commit_message. destruct (Message_eq_dec old new) as [_ | _].
  - now apply step_same.
  - simpl. eapply (step_update _ _ _ _ old); simpl; eauto.
Qed.

Lemma handle_messages_step (call : Call) (current_user : User.t) (db : DB) :
  messages_step call current_user db (handle call current_user db).
Proof.
  destruct call; simpl.
  - rewrite create_chat_run. cbv zeta.
    destruct (len_ne _ _); now apply step_same.
  - unfold chats.update_chat, commit_chat. run.
    repeat (break_match; simpl); now apply step_same.
  - rewrite add_users_to_chat_run. cbv zeta.
    repeat (break_match; simpl); now apply step_same.
  - rewrite remove_user_from_chat_run. cbv zeta.
    repeat (break_match; simpl); try now apply step_same.
    now eapply step_delete.
  - rewrite create_message_run.
    repeat (break_match; simpl); try now apply step_same.
    now eapply step_insert.
  - rewrite update_message_run.
    destruct (lookup_message db message_id) as [m|] eqn:Hfind;
      [|now apply step_same].
    destruct (Message.sender_id m =? User.id current_user) eqn:Hmine; simpl;
      [|now apply step_same].
    apply Z.eqb_eq in Hmine.
    pose proof (lookup_message_id _ _ _ Hfind) as Hid. subst message_id.
    apply find_some in Hfind. destruct Hfind as [Hin _].
    apply commit_message_step; try assumption;
      try (destruct (MessageUpdate.content message_update); reflexivity).
    + intros Hcontent. split; [exact Hmine|]. exists message_update.
      split; [reflexivity|].
      destruct (MessageUpdate.content message_update); [reflexivity|].
      now contradiction Hcontent.
    + intros Hflag. exfalso. apply Hflag.
      destruct (MessageUpdate.content message_update); reflexivity.
  - rewrite delete_message_run.
    repeat (break_match; simpl); try now apply step_same.
    now eapply step_delete.
  - rewrite mark_message_as_read_run.
    destruct (lookup_message db message_id) as [m|] eqn:Hfind;
      [|now apply step_same].
    destruct (find _ (users_chats db)) as [uc|] eqn:Hmember;
      [|now apply step_same].
    pose proof (lookup_message_id _ _ _ Hfind) as Hid. subst message_id.
    apply find_some in Hfind. destruct Hfind as [Hin _].
    apply commit_message_step; try assumption; try reflexivity.
    + intros Hcontent. now contradiction Hcontent.
    + intros _. split; [reflexivity|]. split; [reflexivity|].
      apply is_member_find. now rewrite Hmember.
  - unfold user_service.register_authorized_ip, commit_authorized_ip,
      add_authorized_ip_row. run.
    repeat (break_match; simpl); now apply step_same.
  - unfold user_service.check_ip_authorization, commit_authorized_ip. run.
    repeat (break_match; simpl); now apply step_same.
  - unfold user_service.deactivate_authorized_ip, commit_authorized_ip. run.
    repeat (break_match; simpl); now apply step_same.
Qed.

Lemma map_id_update (old row : Message.t) (rows : list Message.t) :
  Message.id row = Message.id old ->
  map Message.id
      (map (fun x => if Message.id x =? Message.id old then row else x) rows)
  = map Message.id rows.
Proof.
  intros Hid. induction rows as [|x rows IH]; simpl; [reflexivity|].
  rewrite IH. f_equal.
  destruct (Message.id x =? Message.id old) eqn:Hx; [|reflexivity].
  apply Z.eqb_eq in Hx. congruence.
Qed.

Lemma messages_step_pk (call : Call) (current_user : User.t) (db db' : DB) :
  messages_step call current_user db db' ->
  messages_pk db -> messages_pk db'.
Proof.
  intros Hstep [Hnodup Hbelow]. unfold messages_pk.
  destruct Hstep as [Hrows Hseq | keep Hrows Hseq | row Hrows Hid Hseq
                     | old row Hold Hrows Hseq Hid _ _ _ _ _];
    rewrite Hrows, Hseq.
  - split; assumption.
  - split; [now apply NoDup_map_filter|].
    intros m Hin. apply filter_In in Hin. now apply Hbelow.
  - split.
    + rewrite map_app. simpl. apply NoDup_app; [assumption | | ].
      * constructor; [intros [] | constructor].
      * intros i Hi [<- | []]. apply in_map_iff in Hi.
        destruct Hi as (m & Hm & Hin). apply Hbelow in Hin. lia.
    + intros m Hin. apply in_app_iff in Hin.
      destruct Hin as [Hin | [<- | []]]; [apply Hbelow in Hin|]; lia.
  - split; [now rewrite map_id_update|].
    intros m Hin. apply in_map_iff in Hin. destruct Hin as (x & <- & Hx).
    destruct (Message.id x =? Message.id old).
    + rewrite Hid. now apply Hbelow.
    + now apply Hbelow.
Qed.

Lemma reachable_messages_pk (db : DB) :
  reachable any_call db -> messages_pk db.
Proof.
  induction 1 as [db (_ & _ & Hm) | db call current_user _ IH _ | db t _ IH].
  - unfold messages_pk. rewrite Hm. split; [constructor | intros m []].
  - eapply messages_step_pk; [apply handle_messages_step | exact IH].
  - exact IH.
Qed.

(** X9.  In a reachable store, whatever one call does, a stored message
    that is still there afterwards has the sender, the chat and the
    creation time it had; its content differs only after an update by its
    sender that carries the new content; its read flag differs only after
    a marking by a member of its chat, and then it is set: no call makes a
    read message unread again.  The primary key of the messages stays one
    in all reachable stores. *)
Theorem stored_message_changes (call : Call) (current_user : User.t)
  (db : DB) (m m' : Message.t) :
  reachable any_call db ->
  In m (messages db) ->
  In m' (messages (handle call current_user db)) ->
  Message.id m' = Message.id m ->
  messages_pk (handle call current_user db)
  /\ Message.sender_id m' = Message.sender_id m
  /\ Message.chat_id m' = Message.chat_id m
  /\ Message.created_at m' = Message.created_at m
  /\ (Message.is_read m = true -> Message.is_read m' = true)
  /\ (Message.content m' <> Message.content m ->
      Message.sender_id m = User.id current_user
      /\ exists message_update,
           call = UpdateMessage (Message.id m) message_update
           /\ MessageUpdate.content message_update
              = Some (Message.content m'))
  /\ (Message.is_read m' <> Message.is_read m ->
      call = MarkRead (Message.id m)
      /\ Message.is_read m' = true
      /\ is_member db (User.id current_user) (Message.chat_id m)).
Proof.
  intros Hreach Hm Hm' Hid.
  pose proof (reachable_messages_pk db Hreach) as Hpk.
  pose proof (handle_messages_step call current_user db) as Hstep.
  split; [now apply (messages_step_pk call current_user db)|].
  destruct Hpk as [Hnodup Hbelow].
  assert (Hsame : In m' (messages db) ->
                  Message.sender_id m' = Message.sender_id m
                  /\ Message.chat_id m' = Message.chat_id m
                  /\ Message.created_at m' = Message.created_at m
                  /\ (Message.is_read m = true -> Message.is_read m' = true)
                  /\ (Message.content m' <> Message.content m ->
                      Message.sender_id m = User.id current_user
                      /\ exists message_update,
                           call = UpdateMessage (Message.id m) message_update
                           /\ MessageUpdate.content message_update
                              = Some (Message.content m'))
                  /\ (Message.is_read m' <> Message.is_read m ->
                      call = MarkRead (Message.id m)
                      /\ Message.is_read m' = true
                      /\ is_member db (User.id current_user)
                                   (Message.chat_id m))).
  { intros Hold.
    assert (m' = m) as -> by (eapply (pk_unique Message.id); eauto).
    repeat split; try reflexivity; try tauto; intros Hne;
      now contradiction Hne. }
  destruct Hstep as [Hrows Hseq | keep Hrows Hseq | row Hrows Hrow Hseq
                     | old row Hold Hrows Hseq Hrow Hsender Hchat Hcreated
                         Hcontent Hflag];
    rewrite Hrows in Hm'.
  - now apply Hsame.
  - apply filter_In in Hm'. now apply Hsame.
  - apply in_app_iff in Hm'. destruct Hm' as [Hold | [<- | []]];
      [now apply Hsame|].
    apply Hbelow in Hm. lia.
  - apply in_map_iff in Hm'. destruct Hm' as (x & Hx & Hin).
    destruct (Message.id x =? Message.id old) eqn:Hkey.
    + subst m'.
      assert (old = m) as -> by
          (eapply (pk_unique Message.id); eauto; congruence).
      split; [exact Hsender|]. split; [exact Hchat|].
      split; [exact Hcreated|]. split; [|split; [exact Hcontent|exact Hflag]].
      intros Hread.
      destruct (Message.is_read row) eqn:Hrow_read; [reflexivity|].
      destruct Hflag as (_ & Hset & _); [congruence|].
      congruence.
    + subst x. apply Hsame. exact Hin.
Qed.

(** X9 on the chat "trio" after bob's "hi": alice marks the message read;
    the row kept bob as its sender and is read now. *)
Lemma stored_message_changes_witness :
  let hi := Message.mk 1 "hi" 2 1 false 1000 None in
  let seen := Message.mk 1 "hi" 2 1 true 1000 (Some 1000) in
  reachable any_call db_trio_hi
  /\ In hi (messages db_trio_hi)
  /\ In seen (messages (handle (MarkRead 1) alice db_trio_hi))
  /\ Message.sender_id seen = Message.sender_id hi
  /\ is_member db_trio_hi 1 1.
Proof.
  intros hi seen.
  assert (Hreach : reachable any_call db_trio_hi).
  { apply reach_call; [|exact I].
    apply (reach_call _ db_users (CreateChat _) alice); [|exact I].
    apply reach_start. now repeat split. }
  assert (Hhi : In hi (messages db_trio_hi)) by (now left).
  assert (Hseen : In seen (messages (handle (MarkRead 1) alice db_trio_hi)))
    by (now left).
  destruct (stored_message_changes (MarkRead 1) alice db_trio_hi hi seen
              Hreach Hhi Hseen eq_refl)
    as (_ & Hsender & _ & _ & _ & _ & Hflag).
  split; [exact Hreach|]. split; [exact Hhi|]. split; [exact Hseen|].
  split; [exact Hsender|].
  destruct Hflag as (_ & _ & Hmember); [discriminate | exact Hmember].
Defined.

(** ** Listing the messages of a chat *)

Lemma insert_desc_In (r x : Message.t * string)
  (rows : list (Message.t * string)) :
  In x (insert_desc r rows) <-> x = r \/ In x rows.
Proof.
  induction rows as [|y rows IH]; simpl.
  - split; [intros [<- | []]; now left | intros [-> | []]; now left].
  - destruct (Message.created_at (fst r) <? Message.created_at (fst y));
      simpl; [rewrite IH|]; intuition congruence.
Qed.

Lemma order_by_created_at_desc_In (x : Message.t * string)
  (rows : list (Message.t * string)) :
  In x (order_by_created_at_desc rows) <-> In x rows.
Proof.
  unfold order_by_created_at_desc.
  induction rows as [|y rows IH]; simpl; [tauto|].
  rewrite insert_desc_In, IH. intuition congruence.
Qed.

Lemma insert_desc_length (r : Message.t * string)
  (rows : list (Message.t * string)) :
  List.length (insert_desc r rows) = S (List.length rows).
Proof.
  induction rows as [|y rows IH]; simpl; [reflexivity|].
  destruct (_ <? _); simpl; [now rewrite IH | reflexivity].
Qed.

Lemma order_by_created_at_desc_length (rows : list (Message.t * string)) :
  List.length (order_by_created_at_desc rows) = List.length rows.
Proof.
  unfold order_by_created_at_desc.
  induction rows as [|r rows IH]; simpl; [reflexivity|].
  now rewrite insert_desc_length, IH.
Qed.

(** The rows, as the listing shows them, come newest first. *)
Lemma order_by_created_at_desc_sorted (rows : list (Message.t * string)) :
  newest_first
    (map (fun row => msg_dict (fst row) (snd row))
         (order_by_created_at_desc rows)).
Proof.
  unfold order_by_created_at_desc.
  induction rows as [|r rows IH]; simpl; [exact I|].
  induction (fold_right insert_desc [] rows) as [|y sorted IHs]; simpl.
  - split; [intros d' [] | exact I].
  - destruct IH as [Hy Hsorted].
    destruct (Message.created_at (fst r) <? Message.created_at (fst y))
      eqn:Hlt; simpl.
    + apply Z.ltb_lt in Hlt. split.
      * intros d' Hin. apply in_map_iff in Hin.
        destruct Hin as (x & <- & Hx). apply insert_desc_In in Hx.
        destruct Hx as [-> | Hx]; simpl; [lia|].
        apply (Hy (msg_dict (fst x) (snd x))).
        apply in_map_iff. now exists x.
      * now apply IHs.
    + apply Z.ltb_ge in Hlt. split; [|split; assumption].
      intros d' [<- | Hin]; simpl; [lia|].
      specialize (Hy d' Hin). simpl in Hy. lia.
Qed.

Lemma In_firstn_skipn {Row} (limit skip : nat) (rows : list Row) (x : Row) :
  In x (firstn limit (skipn skip rows)) -> In x rows.
Proof.
  intros Hin. rewrite <- (firstn_skipn skip rows). apply in_or_app. right.
  rewrite <- (firstn_skipn limit (skipn skip rows)). apply in_or_app.
  now left.
Qed.

Lemma newest_first_page (limit skip : nat) (rows : list MessageDetail.t) :
  newest_first rows -> newest_first (firstn limit (skipn skip rows)).
Proof.
  revert rows limit. induction skip as [|skip IH]; intros rows limit.
  - simpl. revert limit.
    induction rows as [|d rows IHr]; intros [|limit]; simpl; try tauto.
    intros [Hd Hrest]. split; [|now apply IHr].
    intros d' Hin. apply Hd. now apply (In_firstn_skipn limit O rows).
  - destruct rows as [|d rows]; simpl.
    + now destruct limit.
    + intros [_ Hrest]. now apply IH.
Qed.

Lemma read_chat_messages_run (chat_id skip limit : Z)
  (current_user : User.t) (db : DB) :
  messages.read_chat_messages chat_id skip limit current_user db =
  match find (is_membership (User.id current_user) chat_id)
             (users_chats db) with
  | None =>
      (Raise (HTTPException HTTP_403_FORBIDDEN
                            "User is not a member of this chat"), db)
  | Some _ =>
      if skip <? 0 then
        (Raise (StoreError "OFFSET must not be negative"), db)
      else if limit <? 0 then
        (Raise (StoreError "LIMIT must not be negative"), db)
      else
        (Ok (firstn (Z.to_nat limit)
               (skipn (Z.to_nat skip)
                  (map (fun row => msg_dict (fst row) (snd row))
                       (order_by_created_at_desc
                          (messages_with_sender chat_id db))))), db)
  end.
Proof.
  unfold messages.read_chat_messages, offset_limit. run.
  destruct (find _ (users_chats db)); simpl; [|reflexivity].
  destruct (skip <? 0); [reflexivity|].
  destruct (limit <? 0); [reflexivity|]. simpl.
  now rewrite skipn_map, firstn_map.
Qed.

Lemma listed_iff (db : DB) (chat_id : Z) (d : MessageDetail.t) :
  In d (map (fun row => msg_dict (fst row) (snd row))
            (order_by_created_at_desc (messages_with_sender chat_id db)))
  <-> listed db chat_id d.
Proof.
  unfold listed, messages_with_sender. rewrite in_map_iff. split.
  - intros ([m name] & <- & Hin).
    apply (proj1 (order_by_created_at_desc_In _ _)) in Hin.
    apply in_flat_map in Hin. destruct Hin as (m0 & Hm0 & Hrow).
    apply filter_In in Hm0. destruct Hm0 as [Hm0 Hchat].
    apply in_map_iff in Hrow. destruct Hrow as (u & Heq & Hu).
    apply filter_In in Hu. destruct Hu as [Hu Hsender].
    injection Heq as <- <-. exists m0, u. simpl.
    apply Z.eqb_eq in Hchat, Hsender. auto.
  - intros (m & u & Hm & Hu & Hchat & Hsender & ->).
    exists (m, User.username u). split; [reflexivity|].
    apply order_by_created_at_desc_In. apply in_flat_map. exists m. split.
    + apply filter_In. split; [exact Hm | now apply Z.eqb_eq].
    + apply in_map_iff. exists u. split; [reflexivity|].
      apply filter_In. split; [exact Hu|]. apply Z.eqb_eq. congruence.
Qed.

(** X10.  Listing the messages of a chat.  A requester without membership
    row gets 403, whether or not the chat exists (there is no 404); the
    service function does what the route does.  For a member and
    non-negative [skip] and [limit] the call returns, without writing, at
    most [limit] entries, newest first; every entry is a message of the
    chat together with the user name of a user row that has its sender's
    id, so a message whose sender has no user row is never listed; and
    with [skip = 0] and [limit] no smaller than the number of such pairs
    all of them are listed.  None of this depends on the order among
    messages of equal [created_at], which the query leaves to the store. *)
Theorem read_chat_messages_pages (chat_id : Z) (current_user : User.t)
  (db : DB) :
  let page := fun skip limit =>
                messages.read_chat_messages chat_id skip limit current_user
                                            db in
  (forall skip limit,
      message_service.get_chat_messages chat_id (User.id current_user) skip
                                        limit db
      = page skip limit)
  /\ (forall skip limit,
        ~ is_member db (User.id current_user) chat_id ->
        page skip limit
        = (Raise (HTTPException HTTP_403_FORBIDDEN
                                "User is not a member of this chat"), db))
  /\ (forall skip limit,
        is_member db (User.id current_user) chat_id ->
        0 <= skip -> 0 <= limit ->
        exists rows,
          page skip limit = (Ok rows, db)
          /\ (List.length rows <= Z.to_nat limit)%nat
          /\ newest_first rows
          /\ (forall d, In d rows -> listed db chat_id d)
          /\ (skip = 0 ->
              Z.of_nat (List.length (messages_with_sender chat_id db))
              <= limit ->
              forall d, listed db chat_id d -> In d rows)).
Proof.
  cbv zeta. split; [|split].
  - intros skip limit. reflexivity.
  - intros skip limit Hout. rewrite read_chat_messages_run.
    destruct (find _ (users_chats db)) eqn:Hfind; [|reflexivity].
    exfalso. apply Hout. apply is_member_find. now rewrite Hfind.
  - intros skip limit Hmember Hskip Hlimit. rewrite read_chat_messages_run.
    apply is_member_find in Hmember.
    destruct (find _ (users_chats db)); [|now contradiction Hmember].
    destruct (skip <? 0) eqn:Hs; [apply Z.ltb_lt in Hs; lia|].
    destruct (limit <? 0) eqn:Hl; [apply Z.ltb_lt in Hl; lia|].
    eexists. split; [reflexivity|]. split; [apply firstn_le_length|].
    split; [apply newest_first_page, order_by_created_at_desc_sorted|].
    split.
    + intros d Hin. apply listed_iff.
      now apply (In_firstn_skipn (Z.to_nat limit) (Z.to_nat skip)).
    + intros -> Hall d Hd. simpl. rewrite firstn_all2.
      * now apply listed_iff.
      * rewrite length_map.
        rewrite order_by_created_at_desc_length. lia.
Qed.

(** X10 on the chat "trio" after bob's "hi": alice, a member, sees the one
    message with bob's name; dave, no member, gets 403. *)
Lemma read_chat_messages_pages_witness :
  is_member db_trio_hi 1 1
  /\ messages.read_chat_messages 1 0 100 alice db_trio_hi
     = (Ok [MessageDetail.mk 1 "hi" 2 1 false 1000 None "bob"], db_trio_hi)
  /\ exists rows,
       messages.read_chat_messages 1 0 100 alice db_trio_hi
       = (Ok rows, db_trio_hi)
       /\ newest_first rows
       /\ forall d, In d rows -> listed db_trio_hi 1 d.
Proof.
  assert (Hmember : is_member db_trio_hi (User.id alice) 1).
  { exists (UserChat.mk 3 1 1 true 1000). split; [|split; reflexivity].
    simpl. tauto. }
  split; [exact Hmember|]. split; [reflexivity|].
  destruct (read_chat_messages_pages 1 alice db_trio_hi) as (_ & _ & Hpage).
  destruct (Hpage 0 100 Hmember) as (rows & Hrun & _ & Hsorted & Hlisted & _);
    [lia | lia |].
  exists rows. split; [exact Hrun|]. split; [exact Hsorted | exact Hlisted].
Defined.

(** ** Listing the chats of a user *)

Lemma py_slice_page {Row} (skip limit : Z) (rows : list Row) :
  0 <= skip -> 0 <= limit ->
  py_slice skip (skip + limit) rows
  = firstn (Z.to_nat limit) (skipn (Z.to_nat skip) rows).
Proof.
  intros Hskip Hlimit. unfold py_slice.
  destruct (skip <? 0) eqn:Hs; [apply Z.ltb_lt in Hs; lia|].
  destruct (skip + limit <? 0) eqn:Hsl; [apply Z.ltb_lt in Hsl; lia|].
  destruct (Z.le_gt_cases (Z.of_nat (List.length rows)) skip) as [Hbig | Hin].
  - rewrite !Z.min_r by lia.
    rewrite !(skipn_all2 rows) by lia. now rewrite !firstn_nil.
  - rewrite (Z.min_l skip) by lia.
    destruct (Z.le_gt_cases (skip + limit) (Z.of_nat (List.length rows)))
      as [Hfit | Hover].
    + rewrite Z.min_l by assumption. f_equal. lia.
    + rewrite Z.min_r by lia.
      rewrite !firstn_all2; [reflexivity | |]; rewrite length_skipn; lia.
Qed.

Lemma chat_details_run (chat_ids : list Z) (listed_chats : list ChatDetail.t)
  (db : DB) :
  (forall chat_id, In chat_id chat_ids -> lookup_chat db chat_id <> None) ->
  chats.chat_details chat_ids listed_chats db
  = (Ok (listed_chats ++ chat_details_of db chat_ids), db).
Proof.
  revert listed_chats.
  induction chat_ids as [|chat_id chat_ids IH]; intros listed_chats Hall.
  - simpl. unfold ret. now rewrite app_nil_r.
  - simpl. run. unfold chat_detail.
    pose proof (Hall chat_id (or_introl eq_refl)) as Hsome.
    unfold lookup_chat in *.
    destruct (find _ (chats db)) as [chat|]; [|now contradiction Hsome].
    rewrite IH by (intros i Hi; apply Hall; now right).
    simpl. now rewrite <- app_assoc.
Qed.

Lemma chat_details_missing (chat_ids : list Z)
  (listed_chats : list ChatDetail.t) (db : DB) (chat_id : Z) :
  In chat_id chat_ids -> lookup_chat db chat_id = None ->
  chats.chat_details chat_ids listed_chats db
  = (Raise (AttributeError "'NoneType' object has no attribute 'id'"), db).
Proof.
  revert listed_chats.
  induction chat_ids as [|i chat_ids IH]; intros listed_chats Hin Hnone;
    [destruct Hin|].
  simpl. run. unfold lookup_chat in *.
  destruct (find (fun c => Chat.id c =? i) (chats db)) as [chat|] eqn:Hi;
    [|reflexivity].
  destruct Hin as [-> | Hin]; [congruence|]. now apply IH.
Qed.

Lemma read_user_chats_run (skip limit : Z) (current_user : User.t)
  (db : DB) :
  chats.read_user_chats skip limit current_user db =
  match chats.chat_details (chat_ids_of db (User.id current_user)) [] db with
  | (Ok listed_chats, db') =>
      (Ok (py_slice skip (skip + limit) listed_chats), db')
  | (Raise e, db') => (Raise e, db')
  end.
Proof.
  unfold chats.read_user_chats, chat_ids_of. run.
  destruct (chats.chat_details _ [] db) as [[listed_chats | e] db'];
    reflexivity.
Qed.

Lemma chat_ids_of_In (db : DB) (user_id chat_id : Z) :
  In chat_id (chat_ids_of db user_id) <-> is_member db user_id chat_id.
Proof.
  unfold chat_ids_of, is_member. rewrite in_map_iff. split.
  - intros (uc & Hchat & Hin). apply filter_In in Hin.
    destruct Hin as [Hin Huser]. apply Z.eqb_eq in Huser. now exists uc.
  - intros (uc & Hin & Huser & Hchat). exists uc. split; [exact Hchat|].
    apply filter_In. split; [exact Hin | now apply Z.eqb_eq].
Qed.

Lemma chat_details_of_In (db : DB) (chat_ids : list Z) (d : ChatDetail.t) :
  In d (chat_details_of db chat_ids)
  <-> exists chat_id, In chat_id chat_ids /\ chat_detail db chat_id = Some d.
Proof.
  unfold chat_details_of. rewrite in_flat_map. split.
  - intros (chat_id & Hin & Hd). exists chat_id. split; [exact Hin|].
    destruct (chat_detail db chat_id); [|destruct Hd].
    destruct Hd as [-> | []]. reflexivity.
  - intros (chat_id & Hin & Hd). exists chat_id. split; [exact Hin|].
    rewrite Hd. now left.
Qed.

(** The entry of the listing is what [read_chat] returns to a member. *)
Lemma chat_detail_read_chat (db : DB) (current_user : User.t) (chat_id : Z)
  (d : ChatDetail.t) :
  is_member db (User.id current_user) chat_id ->
  chat_detail db chat_id = Some d ->
  ChatDetail.id d = chat_id
  /\ chats.read_chat (ChatDetail.id d) current_user db = (Ok d, db).
Proof.
  intros Hmember Hd. unfold chat_detail in Hd.
  destruct (lookup_chat db chat_id) as [chat|] eqn:Hchat; [|discriminate].
  injection Hd as <-. simpl.
  assert (Hid : Chat.id chat = chat_id).
  { unfold lookup_chat in Hchat. apply find_some in Hchat.
    now apply Z.eqb_eq. }
  split; [exact Hid|]. rewrite Hid, read_chat_run, Hchat.
  apply is_member_find in Hmember.
  destruct (find _ (users_chats db)); [|now contradiction Hmember].
  now rewrite Hid.
Qed.

Lemma lookup_chat_some (db : DB) (chat_id : Z) :
  In chat_id (map Chat.id (chats db)) <-> lookup_chat db chat_id <> None.
Proof.
  unfold lookup_chat. split.
  - intros Hin Hnone. apply in_map_iff in Hin. destruct Hin as (c & Hid & Hc).
    apply (find_none _ _ Hnone) in Hc. apply Z.eqb_neq in Hc. contradiction.
  - intros Hsome. destruct (find _ (chats db)) as [c|] eqn:Hfind;
      [|now contradiction Hsome].
    apply find_some in Hfind. destruct Hfind as [Hc Hid].
    apply Z.eqb_eq in Hid. apply in_map_iff. now exists c.
Qed.

Lemma membership_rows_chat_id (seq chat_id : Z) (f : Z -> bool) (t : Z)
  (ids : list Z) (uc : UserChat.t) :
  In uc (membership_rows seq chat_id f t ids) -> UserChat.chat_id uc = chat_id.
Proof.
  revert seq. induction ids as [|i ids IH]; intros seq; simpl; [tauto|].
  intros [<- | Hin]; [reflexivity | now apply (IH (seq + 1))].
Qed.

Lemma same_memberships_have_chat (db db' : DB) :
  same_memberships db db' ->
  memberships_have_chat db -> memberships_have_chat db'.
Proof.
  intros (Huc & Hids & _) Hinv uc. rewrite Huc, Hids. apply Hinv.
Qed.

Lemma handle_memberships_have_chat (call : Call) (current_user : User.t)
  (db : DB) :
  memberships_have_chat db ->
  memberships_have_chat (handle call current_user db).
Proof.
  intros Hinv. destruct call; simpl.
  - rewrite create_chat_run. cbv zeta. destruct (len_ne _ _); [exact Hinv|].
    intros uc. simpl. rewrite map_app, !in_app_iff. simpl.
    intros [Hold | Hnew]; [left; now apply Hinv|].
    right. left. symmetry. now apply membership_rows_chat_id in Hnew.
  - eapply same_memberships_have_chat; [apply update_chat_frame | exact Hinv].
  - rewrite add_users_to_chat_run. cbv zeta.
    destruct (find _ (users_chats db)); [|exact Hinv].
    destruct (lookup_chat db chat_id) as [chat|] eqn:Hchat; [|exact Hinv].
    destruct (negb (Chat.is_group chat)); [exact Hinv|].
    destruct (len_ne _ _); [exact Hinv|].
    intros uc. simpl. rewrite in_app_iff.
    intros [Hold | Hnew]; [now apply Hinv|].
    apply membership_rows_chat_id in Hnew. rewrite Hnew.
    apply lookup_chat_some. now rewrite Hchat.
  - rewrite remove_user_from_chat_run. cbv zeta.
    destruct (_ && _); [exact Hinv|].
    destruct (find _ (users_chats db)) as [user_chat|]; [|exact Hinv].
    destruct (Nat.leb _ 1).
    + intros uc. simpl. intros Hin. apply filter_In in Hin.
      destruct Hin as [Hin Hother]. apply filter_In in Hin.
      destruct Hin as [Hin _]. apply Hinv in Hin.
      apply in_map_iff in Hin. destruct Hin as (c & Hid & Hc).
      apply in_map_iff. exists c. split; [exact Hid|].
      apply filter_In. split; [exact Hc | now rewrite Hid].
    + intros uc. simpl. intros Hin. apply filter_In in Hin.
      now apply Hinv.
  - eapply same_memberships_have_chat;
      [apply create_message_frame | exact Hinv].
  - eapply same_memberships_have_chat;
      [apply update_message_frame | exact Hinv].
  - eapply same_memberships_have_chat;
      [apply delete_message_frame | exact Hinv].
  - eapply same_memberships_have_chat;
      [apply mark_message_as_read_frame | exact Hinv].
  - eapply same_memberships_have_chat;
      [apply register_authorized_ip_frame | exact Hinv].
  - eapply same_memberships_have_chat;
      [apply check_ip_authorization_frame | exact Hinv].
  - eapply same_memberships_have_chat;
      [apply deactivate_authorized_ip_frame | exact Hinv].
Qed.

Lemma reachable_memberships_have_chat (db : DB) :
  reachable any_call db -> memberships_have_chat db.
Proof.
  induction 1 as [db (_ & Huc & _) | db call current_user _ IH _ | db t _ IH].
  - intros uc. rewrite Huc. intros [].
  - now apply handle_memberships_have_chat.
  - exact IH.
Qed.

(** X11.  Listing the chats of a user.  When one of the user's membership
    rows has no chat row, the call fails with an attribute error on [None],
    whatever [skip] and [limit] are, also when the slice would leave that
    chat out.  When every membership row has a chat row, which is so in
    every reachable store, the call writes nothing and returns the slice
    [skip : skip + limit] of one entry per membership row of the user;
    every entry returned is what [read_chat] returns to this user for that
    chat; for non-negative [skip] and [limit] there are at most [limit]
    entries, and with [skip = 0] and [limit] no smaller than the number of
    membership rows every chat of the user is listed. *)
Theorem read_user_chats_lists (skip limit : Z) (current_user : User.t)
  (db : DB) :
  let user_id := User.id current_user in
  let run := chats.read_user_chats skip limit current_user db in
  (forall chat_id,
      is_member db user_id chat_id -> lookup_chat db chat_id = None ->
      run = (Raise (AttributeError "'NoneType' object has no attribute 'id'"),
             db))
  /\ (reachable any_call db -> memberships_have_chat db)
  /\ (memberships_have_chat db ->
      run = (Ok (py_slice skip (skip + limit)
                   (chat_details_of db (chat_ids_of db user_id))), db)
      /\ (forall d,
             In d (py_slice skip (skip + limit)
                     (chat_details_of db (chat_ids_of db user_id))) ->
             is_member db user_id (ChatDetail.id d)
             /\ chats.read_chat (ChatDetail.id d) current_user db
                = (Ok d, db))
      /\ (0 <= skip -> 0 <= limit ->
          (List.length (py_slice skip (skip + limit)
                          (chat_details_of db (chat_ids_of db user_id)))
           <= Z.to_nat limit)%nat)
      /\ (skip = 0 ->
          Z.of_nat (List.length (users_chats db)) <= limit ->
          forall chat_id,
            is_member db user_id chat_id ->
            exists d,
              In d (py_slice skip (skip + limit)
                      (chat_details_of db (chat_ids_of db user_id)))
              /\ ChatDetail.id d = chat_id)).
Proof.
  cbv zeta. split; [|split; [exact (reachable_memberships_have_chat db)|]].
  - intros chat_id Hmember Hnone. rewrite read_user_chats_run.
    rewrite (chat_details_missing _ _ _ chat_id); [reflexivity | | exact Hnone].
    now apply chat_ids_of_In.
  - intros Hinv.
    assert (Hall : forall chat_id,
               In chat_id (chat_ids_of db (User.id current_user)) ->
               lookup_chat db chat_id <> None).
    { intros chat_id Hin. apply chat_ids_of_In in Hin.
      destruct Hin as (uc & Huc & _ & <-). apply lookup_chat_some.
      now apply Hinv. }
    assert (Hentry : forall d,
               In d (chat_details_of db (chat_ids_of db (User.id current_user)))
               -> is_member db (User.id current_user) (ChatDetail.id d)
                  /\ chats.read_chat (ChatDetail.id d) current_user db
                     = (Ok d, db)).
    { intros d Hd. apply chat_details_of_In in Hd.
      destruct Hd as (chat_id & Hin & Hd). apply chat_ids_of_In in Hin.
      destruct (chat_detail_read_chat db current_user chat_id d Hin Hd)
        as [Hid Hread].
      split; [now rewrite Hid | exact Hread]. }
    split; [|split; [|split]].
    + rewrite read_user_chats_run, chat_details_run by exact Hall.
      reflexivity.
    + intros d Hd. apply Hentry. unfold py_slice in Hd.
      now apply In_firstn_skipn in Hd.
    + intros Hskip Hlimit. rewrite py_slice_page by assumption.
      apply firstn_le_length.
    + intros -> Hlimit chat_id Hmember.
      assert (Hlen : (List.length
                        (chat_details_of db
                           (chat_ids_of db (User.id current_user)))
                      <= List.length (users_chats db))%nat).
      { unfold chat_details_of, chat_ids_of.
        etransitivity; [|apply (filter_length_le
                                  (fun uc => UserChat.user_id uc
                                             =? User.id current_user))].
        rewrite <- (length_map UserChat.chat_id).
        induction (map UserChat.chat_id _) as [|i ids IH]; simpl; [lia|].
        rewrite length_app. destruct (chat_detail db i); simpl; lia. }
      rewrite py_slice_page by lia. simpl.
      rewrite firstn_all2 by lia.
      pose proof Hmember as Hin. apply chat_ids_of_In in Hin.
      specialize (Hall chat_id Hin).
      destruct (chat_detail db chat_id) as [d|] eqn:Hd.
      * exists d. split.
        -- apply chat_details_of_In. now exists chat_id.
        -- now apply (chat_detail_read_chat db current_user chat_id d).
      * unfold chat_detail in Hd.
        destruct (lookup_chat db chat_id); [discriminate|].
        now contradiction Hall.
Qed.

(** X11 on the chat "trio": it is reachable, and alice's listing is the
    entry that [read_chat] gives her for chat 1. *)
Lemma read_user_chats_lists_witness :
  reachable any_call db_trio
  /\ memberships_have_chat db_trio
  /\ exists d,
       chats.read_user_chats 0 100 alice db_trio = (Ok [d], db_trio)
       /\ chats.read_chat 1 alice db_trio = (Ok d, db_trio).
Proof.
  assert (Hreach : reachable any_call db_trio).
  { apply (reach_call _ db_users (CreateChat _) alice); [|exact I].
    apply reach_start. now repeat split. }
  destruct (read_user_chats_lists 0 100 alice db_trio) as (_ & Hinv & Hlist).
  specialize (Hinv Hreach). destruct (Hlist Hinv) as (Hrun & Hentry & _).
  split; [exact Hreach|]. split; [exact Hinv|].
  eexists. split; [vm_compute; reflexivity|].
  exact (proj2 (Hentry _ (or_introl eq_refl))).
Defined.

(** ** Renaming a chat *)

Lemma update_chat_run (chat_id : Z) (chat_update : ChatUpdate.t)
  (current_user : User.t) (db : DB) :
  chats.update_chat chat_id chat_update current_user db =
  match find (is_admin_membership (User.id current_user) chat_id)
             (users_chats db) with
  | None =>
      (Raise (HTTPException HTTP_403_FORBIDDEN
                            "User is not an admin of this chat"), db)
  | Some _ =>
      match lookup_chat db chat_id with
      | None =>
          (Raise (HTTPException HTTP_404_NOT_FOUND "Chat not found"), db)
      | Some chat =>
          commit_chat chat
            (Chat.mk (Chat.id chat)
               match ChatUpdate.name chat_update with
               | Some name => Some name
               | None => Chat.name chat
               end (Chat.is_group chat) (Chat.created_at chat)
               (Chat.updated_at chat)) db
      end
  end.
Proof.
  unfold chats.update_chat, lookup_chat. run.
  destruct (find _ (users_chats db)); simpl; [|reflexivity].
  destruct (find _ (chats db)) as [chat|]; [|reflexivity].
  destruct (ChatUpdate.name chat_update); destruct chat; reflexivity.
Qed.

Lemma lookup_chat_updated (rows : list Chat.t) (chat row : Chat.t) :
  find (fun c => Chat.id c =? Chat.id chat) rows = Some chat ->
  Chat.id row = Chat.id chat ->
  find (fun c => Chat.id c =? Chat.id chat)
       (map (fun c => if Chat.id c =? Chat.id chat then row else c) rows)
  = Some row.
Proof.
  intros Hfind Hid. induction rows as [|c rows IH]; simpl in *;
    [discriminate|].
  destruct (Chat.id c =? Chat.id chat) eqn:Hc; simpl.
  - now rewrite Hid, Z.eqb_refl.
  - rewrite Hc. now apply IH.
Qed.

(** X12.  Renaming a chat.  Without an admin membership row for the chat
    the requester gets 403, a plain member included, whether or not the
    chat exists; an admin of a chat id without chat row gets 404; in both
    cases nothing is written.  An admin of an existing chat gets the chat
    row back with the requested name, or with the name it had when the
    request carries none (a name cannot be cleared); only the chat row is
    written, and only when the name changes, which stamps [updated_at];
    afterwards every member reads the chat with the returned name. *)
Theorem update_chat_renames (chat_id : Z) (chat_update : ChatUpdate.t)
  (current_user : User.t) (db : DB) :
  let run := chats.update_chat chat_id chat_update current_user db in
  (~ is_admin_member db (User.id current_user) chat_id ->
   run = (Raise (HTTPException HTTP_403_FORBIDDEN
                               "User is not an admin of this chat"), db))
  /\ (is_admin_member db (User.id current_user) chat_id ->
      lookup_chat db chat_id = None ->
      run = (Raise (HTTPException HTTP_404_NOT_FOUND "Chat not found"), db))
  /\ (forall chat,
        is_admin_member db (User.id current_user) chat_id ->
        lookup_chat db chat_id = Some chat ->
        exists row db',
          run = (Ok row, db')
          /\ Chat.id row = chat_id
          /\ Chat.name row
             = match ChatUpdate.name chat_update with
               | Some name => Some name
               | None => Chat.name chat
               end
          /\ Chat.is_group row = Chat.is_group chat
          /\ Chat.created_at row = Chat.created_at chat
          /\ (Chat.name row = Chat.name chat -> row = chat /\ db' = db)
          /\ (Chat.name row <> Chat.name chat ->
              Chat.updated_at row = Some (now db))
          /\ users db' = users db
          /\ users_chats db' = users_chats db
          /\ messages db' = messages db
          /\ authorized_ips db' = authorized_ips db
          /\ lookup_chat db' chat_id = Some row
          /\ forall reader,
               is_member db (User.id reader) chat_id ->
               exists d,
                 chats.read_chat chat_id reader db' = (Ok d, db')
                 /\ ChatDetail.id d = chat_id
                 /\ ChatDetail.name d = Chat.name row).
Proof.
  cbv zeta. pose proof (is_admin_member_find db (User.id current_user)
                          chat_id) as Hadmin.
  rewrite update_chat_run. split; [|split].
  - intros Hno. destruct (find _ (users_chats db)); [|reflexivity].
    exfalso. apply Hno, Hadmin. discriminate.
  - intros Hyes Hnone. apply Hadmin in Hyes.
    destruct (find _ (users_chats db)); [|now contradiction Hyes].
    now rewrite Hnone.
  - intros chat Hyes Hchat. apply Hadmin in Hyes.
    destruct (find _ (users_chats db)); [|now contradiction Hyes].
    rewrite Hchat.
    assert (Hid : Chat.id chat = chat_id).
    { unfold lookup_chat in Hchat. apply find_some in Hchat.
      now apply Z.eqb_eq. }
    set (name := match ChatUpdate.name chat_update with
                 | Some name => Some name
                 | None => Chat.name chat
                 end).
    assert (Hreaders : forall row db',
               users_chats db' = users_chats db ->
               lookup_chat db' chat_id = Some row ->
               Chat.id row = chat_id ->
               forall reader,
                 is_member db (User.id reader) chat_id ->
                 exists d,
                   chats.read_chat chat_id reader db' = (Ok d, db')
                   /\ ChatDetail.id d = chat_id
                   /\ ChatDetail.name d = Chat.name row).
    { intros row db' Huc Hrow Hrow_id reader Hmember.
      rewrite read_chat_run, Huc, Hrow. apply is_member_find in Hmember.
      destruct (find _ (users_chats db)); [|now contradiction Hmember].
      eexists. split; [reflexivity|]. split; [exact Hrow_id | reflexivity]. }
    unfold commit_chat. destruct (Chat_eq_dec _ _) as [Heq | Hne].
    + exists chat, db. unfold ret.
      assert (Hname : Chat.name chat = name) by (now rewrite Heq at 1).
      repeat split; try reflexivity; try assumption; try congruence.
      now apply Hreaders.
    + eexists. eexists. split; [reflexivity|]. simpl.
      assert (Hnew : lookup_chat
                       (set_chats
                          (map (fun c =>
                                  if Chat.id c =? Chat.id chat
                                  then Chat.mk (Chat.id chat) name
                                         (Chat.is_group chat)
                                         (Chat.created_at chat)
                                         (Some (now db))
                                  else c) (chats db)) db) chat_id
                     = Some (Chat.mk (Chat.id chat) name (Chat.is_group chat)
                               (Chat.created_at chat) (Some (now db)))).
      { unfold lookup_chat. simpl. rewrite <- Hid.
        apply lookup_chat_updated; [|reflexivity].
        unfold lookup_chat in Hchat. now rewrite Hid. }
      match type of Hnew with
      | lookup_chat ?db' _ = Some ?row =>
          pose proof (Hreaders row db' eq_refl Hnew Hid) as Hread
      end.
      simpl in Hread.
      repeat split; try reflexivity; try assumption;
        try (now apply Hread);
        exfalso; apply Hne; destruct chat; simpl in *; congruence.
Qed.

(** X12 on the chat "trio": alice, its admin, renames it; bob, a member,
    is refused and then reads the new name. *)
Lemma update_chat_renames_witness :
  is_admin_member db_trio 1 1
  /\ lookup_chat db_trio 1 = Some (Chat.mk 1 (Some "trio") true 1000 None)
  /\ fst (chats.update_chat 1 (ChatUpdate.mk (Some "three")) bob db_trio)
     = Raise (HTTPException HTTP_403_FORBIDDEN
                            "User is not an admin of this chat")
  /\ exists row db' d,
       chats.update_chat 1 (ChatUpdate.mk (Some "three")) alice db_trio
       = (Ok row, db')
       /\ Chat.name row = Some "three"
       /\ chats.read_chat 1 bob db' = (Ok d, db')
       /\ ChatDetail.name d = Chat.name row.
Proof.
  assert (Hadmin : is_admin_member db_trio (User.id alice) 1).
  { exists (UserChat.mk 3 1 1 true 1000). simpl. tauto. }
  assert (Hbob : is_member db_trio (User.id bob) 1).
  { exists (UserChat.mk 1 2 1 false 1000). simpl. tauto. }
  split; [exact Hadmin|]. split; [reflexivity|]. split; [reflexivity|].
  destruct (update_chat_renames 1 (ChatUpdate.mk (Some "three")) alice
              db_trio) as (_ & _ & Hrename).
  destruct (Hrename _ Hadmin eq_refl)
    as (row & db' & Hrun & _ & Hname & _ & _ & _ & _ & _ & _ & _ & _ & _
        & Hread).
  destruct (Hread bob Hbob) as (d & Hd & _ & Hshown).
  exists row, db', d. split; [exact Hrun|]. split; [exact Hname|].
  split; [exact Hd | exact Hshown].
Defined.

(** ** Adding users to a chat *)

(** A successful [add_users_to_chat], taken apart. *)
Lemma add_users_to_chat_ok (chat_id : Z) (chat_add_users : ChatAddUsers.t)
  (current_user : User.t) (db db' : DB) (chat : Chat.t) :
  chats.add_users_to_chat chat_id chat_add_users current_user db
  = (Ok chat, db') ->
  let ids := ChatAddUsers.user_ids chat_add_users in
  find (is_admin_membership (User.id current_user) chat_id) (users_chats db)
  <> None
  /\ lookup_chat db chat_id = Some chat
  /\ Chat.is_group chat = true
  /\ len_ne (users_in ids db) ids = false
  /\ db' = mkDB (users db) (chats db)
                (users_chats db
                 ++ membership_rows (users_chats_id_seq db) chat_id
                      (fun _ => false) (now db)
                      (new_user_ids db chat_id ids))
                (messages db) (authorized_ips db) (chats_id_seq db)
                (users_chats_id_seq db
                 + Z.of_nat (List.length (new_user_ids db chat_id ids)))
                (messages_id_seq db) (authorized_ips_id_seq db) (now db).
Proof.
  rewrite add_users_to_chat_run. cbv zeta.
  destruct (find _ (users_chats db)); [|discriminate].
  destruct (lookup_chat db chat_id) as [c|]; [|discriminate].
  destruct (Chat.is_group c) eqn:Hgroup; simpl; [|discriminate].
  destruct (len_ne _ _); [discriminate|].
  intros Hrun. injection Hrun as <- <-. repeat split; congruence.
Qed.

(** A requested id is new exactly when the chat has no membership row for
    it. *)
Lemma new_user_ids_In (db : DB) (chat_id : Z) (ids : list Z) (u : Z) :
  In u (new_user_ids db chat_id ids)
  <-> In u ids /\ ~ is_member db u chat_id.
Proof.
  unfold new_user_ids. rewrite filter_In, negb_true_iff, mem_false.
  rewrite in_map_iff. unfold is_member. split.
  - intros [Hu Hnew]. split; [exact Hu|]. intros (uc & Hin & Huser & Hchat).
    apply Hnew. exists uc. split; [exact Huser|]. apply filter_In.
    split; [exact Hin|]. rewrite Hchat, Z.eqb_refl. simpl.
    apply mem_In. now rewrite Huser.
  - intros [Hu Hnew]. split; [exact Hu|]. intros (uc & Huser & Hin).
    apply filter_In in Hin. destruct Hin as [Hin Hp].
    apply andb_true_iff in Hp. destruct Hp as [Hchat _].
    apply Z.eqb_eq in Hchat. apply Hnew. now exists uc.
Qed.

Lemma is_member_dec (db : DB) (user_id chat_id : Z) :
  is_member db user_id chat_id \/ ~ is_member db user_id chat_id.
Proof.
  destruct (find (is_membership user_id chat_id) (users_chats db)) eqn:Hfind.
  - left. apply is_member_find. now rewrite Hfind.
  - right. intros Hm. apply is_member_find in Hm. now apply Hm.
Qed.

(** X13.  A successful [add_users_to_chat] returns the chat row, a group,
    and makes the members of the chat the old members together with the
    requested users; the memberships of other chats, the admin rights in
    every chat, the chats and the messages stay as they were; a requested
    user who is a member already gets no second row, so the chat grows by
    the number of requested users who were not members; and repeating the
    request succeeds again and writes nothing. *)
Theorem add_users_to_chat_joins (chat_id : Z)
  (chat_add_users : ChatAddUsers.t) (current_user : User.t) (db db' : DB)
  (chat : Chat.t) :
  chats.add_users_to_chat chat_id chat_add_users current_user db
  = (Ok chat, db') ->
  let ids := ChatAddUsers.user_ids chat_add_users in
  lookup_chat db chat_id = Some chat
  /\ Chat.is_group chat = true
  /\ (forall u, is_member db' u chat_id
                <-> is_member db u chat_id \/ In u ids)
  /\ (forall u c, c <> chat_id -> is_member db' u c <-> is_member db u c)
  /\ (forall u c, is_admin_member db' u c <-> is_admin_member db u c)
  /\ member_count db' chat_id
     = Nat.add (member_count db chat_id)
               (List.length (new_user_ids db chat_id ids))
  /\ (forall u, In u (new_user_ids db chat_id ids)
                <-> In u ids /\ ~ is_member db u chat_id)
  /\ chats db' = chats db
  /\ messages db' = messages db
  /\ chats.add_users_to_chat chat_id chat_add_users current_user db'
     = (Ok chat, db').
Proof.
  intros Hrun ids.
  destruct (add_users_to_chat_ok _ _ _ _ _ _ Hrun)
    as (Hadmin & Hchat & Hgroup & Hlen & Hdb').
  fold ids in Hlen, Hdb'.
  set (rows := membership_rows (users_chats_id_seq db) chat_id
                 (fun _ => false) (now db) (new_user_ids db chat_id ids))
    in Hdb'.
  assert (Huc : users_chats db' = users_chats db ++ rows)
    by (now rewrite Hdb').
  assert (Hrows : forall uc, In uc rows ->
                    UserChat.chat_id uc = chat_id
                    /\ UserChat.is_admin uc = false
                    /\ In (UserChat.user_id uc) ids
                    /\ ~ is_member db (UserChat.user_id uc) chat_id).
  { intros uc Hin. apply membership_rows_In in Hin.
    destruct Hin as (Hc & Ha & Hu & _). apply new_user_ids_In in Hu.
    tauto. }
  assert (Hjoin : forall u, is_member db' u chat_id
                            <-> is_member db u chat_id \/ In u ids).
  { intros u. split.
    - intros (uc & Hin & Huser & Hc). rewrite Huc in Hin.
      apply in_app_iff in Hin. destruct Hin as [Hold | Hnew].
      + left. now exists uc.
      + right. apply Hrows in Hnew. now rewrite <- Huser.
    - intros Hcase.
      destruct (is_member_dec db u chat_id) as [Hold | Hnot].
      + destruct Hold as (uc & Hin & Huser & Hc). exists uc.
        rewrite Huc, in_app_iff. tauto.
      + destruct Hcase as [Hold | Hu]; [contradiction|].
        assert (Hnew : In u (map UserChat.user_id rows)).
        { unfold rows. rewrite membership_rows_user_ids.
          apply new_user_ids_In. tauto. }
        apply in_map_iff in Hnew. destruct Hnew as (uc & Huser & Hin).
        exists uc. rewrite Huc, in_app_iff.
        destruct (Hrows uc Hin) as (Hc & _). tauto. }
  split; [exact Hchat|]. split; [exact Hgroup|]. split; [exact Hjoin|].
  split; [|split; [|split; [|split; [|split; [|split]]]]].
  - intros u c Hc. split.
    + intros (uc & Hin & Huser & Hchat_id). rewrite Huc in Hin.
      apply in_app_iff in Hin. destruct Hin as [Hold | Hnew].
      * now exists uc.
      * apply Hrows in Hnew. destruct Hnew as (Hsame & _). congruence.
    + intros (uc & Hin & Hrest). exists uc. rewrite Huc, in_app_iff. tauto.
  - intros u c. split.
    + intros (uc & Hin & Huser & Hchat_id & Hflag). rewrite Huc in Hin.
      apply in_app_iff in Hin. destruct Hin as [Hold | Hnew].
      * now exists uc.
      * apply Hrows in Hnew. destruct Hnew as (_ & Hplain & _). congruence.
    + now apply is_admin_member_append with (rows := rows).
  - rewrite (member_count_append db db' rows chat_id Huc). f_equal.
    unfold rows. now rewrite membership_rows_same_chat, membership_rows_length.
  - intros u. apply new_user_ids_In.
  - now rewrite Hdb'.
  - now rewrite Hdb'.
  - rewrite add_users_to_chat_run. cbv zeta.
    assert (Hadmin' : find (is_admin_membership (User.id current_user)
                                                chat_id) (users_chats db')
                      <> None).
    { destruct (find _ (users_chats db)) as [uc|] eqn:Hfind;
        [|now contradiction Hadmin].
      apply find_some in Hfind. destruct Hfind as [Hin Hp].
      intros Hnone.
      assert (Hin' : In uc (users_chats db'))
        by (rewrite Huc, in_app_iff; now left).
      rewrite (find_none _ _ Hnone uc Hin') in Hp. discriminate. }
    destruct (find _ (users_chats db')); [|now contradiction Hadmin'].
    assert (Hchat' : lookup_chat db' chat_id = Some chat)
      by (unfold lookup_chat in *; now rewrite Hdb').
    rewrite Hchat', Hgroup. simpl.
    assert (Hlen' : len_ne (users_in (ChatAddUsers.user_ids chat_add_users)
                                     db')
                           (ChatAddUsers.user_ids chat_add_users) = false)
      by (unfold users_in in *; now rewrite Hdb').
    rewrite Hlen'.
    assert (Hnone : new_user_ids db' chat_id
                      (ChatAddUsers.user_ids chat_add_users) = []).
    { destruct (new_user_ids db' chat_id
                  (ChatAddUsers.user_ids chat_add_users)) as [|u l] eqn:Hnew;
        [reflexivity|].
      assert (Hu : In u (new_user_ids db' chat_id
                           (ChatAddUsers.user_ids chat_add_users)))
        by (rewrite Hnew; now left).
      apply new_user_ids_In in Hu. destruct Hu as [Hu Hnot].
      exfalso. apply Hnot, Hjoin. now right. }
    rewrite Hnone. simpl. rewrite app_nil_r, Z.add_0_r. f_equal.
    apply db_eta.
Qed.

(** X13 on the chat "trio": alice adds dave and bob; dave joins, bob, a
    member already, gets no second row. *)
Lemma add_users_to_chat_joins_witness :
  let request := ChatAddUsers.mk [4; 2] in
  let db' := snd (chats.add_users_to_chat 1 request alice db_trio) in
  member_count db_trio 1 = 3%nat
  /\ member_count db' 1 = 4%nat
  /\ (is_member db' 4 1 <-> is_member db_trio 4 1 \/ In 4 [4; 2])
  /\ fst (chats.add_users_to_chat 1 request alice db') 
     = fst (chats.add_users_to_chat 1 request alice db_trio).
Proof.
  intros request db'.
  assert (Hrun : chats.add_users_to_chat 1 request alice db_trio
                 = (Ok (Chat.mk 1 (Some "trio") true 1000 None), db'))
    by reflexivity.
  destruct (add_users_to_chat_joins 1 request alice db_trio db' _ Hrun)
    as (_ & _ & Hjoin & _ & _ & _ & _ & _ & _ & Hagain).
  split; [reflexivity|]. split; [reflexivity|]. split; [exact (Hjoin 4)|].
  now rewrite Hagain, Hrun.
Defined.

(** ** Adding a user and removing them again *)




(** ** Sending a message and the unread counts *)

Lemma get_unread_message_count_keys (user_id : Z) (db : DB) :
  exists result,
    message_service.get_unread_message_count user_id db = (Ok result, db)
    /\ forall chat_id,
         dict_get chat_id result
         = if mem chat_id (chat_ids_of db user_id)
           then Some (message_service.unread_count db user_id chat_id)
           else None.
Proof.
  unfold message_service.get_unread_message_count. run.
  eexists. split; [reflexivity|]. intros chat_id.
  now rewrite (dict_get_fold
                 (fun k => message_service.unread_count db user_id k)).
Qed.

Lemma unread_count_app (db db' : DB) (row : Message.t) (user_id chat_id : Z) :
  messages db' = messages db ++ [row] ->
  message_service.unread_count db' user_id chat_id
  = Nat.add (message_service.unread_count db user_id chat_id)
      (if (Message.chat_id row =? chat_id)
          && Bool.eqb (Message.is_read row) false
          && negb (Message.sender_id row =? user_id)
       then 1%nat else 0%nat).
Proof.
  intros Hrows. unfold message_service.unread_count.
  rewrite Hrows, filter_app, length_app. f_equal. simpl.
  now destruct (_ && _ && _).
Qed.

(** X15.  Sending a message.  A chat id without chat row gives 404, also to
    a requester without membership (the existence of the chat is checked
    first, the other way round than in [read_chat]); an existing chat
    gives 403 to a non-member; both write nothing.  A member's message is
    appended, unread, with the next id, the sender's id and the current
    time; every other table is left alone; the unread count of the chat
    goes up by one for every user but the sender and no other count
    changes; and in the dictionary of unread counts of each user the keys
    stay the chats of that user. *)
Theorem create_message_raises_unread (message : MessageCreate.t)
  (current_user : User.t) (db : DB) :
  let chat_id := MessageCreate.chat_id message in
  let sender := User.id current_user in
  let run := messages.create_message message current_user db in
  (lookup_chat db chat_id = None ->
   run = (Raise (HTTPException HTTP_404_NOT_FOUND "Chat not found"), db))
  /\ (lookup_chat db chat_id <> None -> ~ is_member db sender chat_id ->
      run = (Raise (HTTPException HTTP_403_FORBIDDEN
                                  "User is not a member of this chat"), db))
  /\ (lookup_chat db chat_id <> None -> is_member db sender chat_id ->
      let row := Message.mk (messages_id_seq db)
                            (MessageCreate.content message) sender chat_id
                            false (now db) None in
      exists db',
        run = (Ok row, db')
        /\ messages db' = messages db ++ [row]
        /\ messages_id_seq db' = messages_id_seq db + 1
        /\ users db' = users db
        /\ chats db' = chats db
        /\ users_chats db' = users_chats db
        /\ authorized_ips db' = authorized_ips db
        /\ (forall u k,
               message_service.unread_count db' u k
               = Nat.add (message_service.unread_count db u k)
                   (if (k =? chat_id) && negb (u =? sender)
                    then 1%nat else 0%nat))
        /\ (forall u,
               exists before after,
                 message_service.get_unread_message_count u db
                 = (Ok before, db)
                 /\ message_service.get_unread_message_count u db'
                    = (Ok after, db')
                 /\ forall k,
                      dict_get k after
                      = match dict_get k before with
                        | Some n =>
                            Some (Nat.add n
                                    (if (k =? chat_id) && negb (u =? sender)
                                     then 1%nat else 0%nat))
                        | None => None
                        end)).
Proof.
  cbv zeta. rewrite create_message_run.
  pose proof (is_member_find db (User.id current_user)
                (MessageCreate.chat_id message)) as Hmember.
  split; [|split].
  - intros Hnone. now rewrite Hnone.
  - intros Hsome Hnot.
    destruct (lookup_chat db _); [|now contradiction Hsome].
    destruct (find _ (users_chats db)); [|reflexivity].
    exfalso. apply Hnot, Hmember. discriminate.
  - intros Hsome Hyes. apply Hmember in Hyes.
    destruct (lookup_chat db _); [|now contradiction Hsome].
    destruct (find _ (users_chats db)); [|now contradiction Hyes].
    eexists. split; [reflexivity|]. simpl.
    assert (Hcount : forall u k,
               message_service.unread_count
                 (mkDB (users db) (chats db) (users_chats db)
                    (messages db
                     ++ [Message.mk (messages_id_seq db)
                           (MessageCreate.content message)
                           (User.id current_user)
                           (MessageCreate.chat_id message) false (now db)
                           None])
                    (authorized_ips db) (chats_id_seq db)
                    (users_chats_id_seq db) (messages_id_seq db + 1)
                    (authorized_ips_id_seq db) (now db)) u k
               = Nat.add (message_service.unread_count db u k)
                   (if (k =? MessageCreate.chat_id message)
                       && negb (u =? User.id current_user)
                    then 1%nat else 0%nat)).
    { intros u k. erewrite unread_count_app by reflexivity. simpl.
      rewrite (Z.eqb_sym (MessageCreate.chat_id message) k).
      rewrite (Z.eqb_sym (User.id current_user) u).
      now rewrite andb_true_r. }
    repeat split; try reflexivity; [exact Hcount|].
    intros u.
    destruct (get_unread_message_count_keys u db) as (before & Hb & Hkeys).
    match goal with
    | |- context [message_service.get_unread_message_count u
                    (mkDB ?a ?b ?c ?d ?e ?f ?g ?h ?i ?j)] =>
        destruct (get_unread_message_count_keys u
                    (mkDB a b c d e f g h i j))
          as (after & Ha & Hkeys')
    end.
    exists before, after. split; [exact Hb|]. split; [exact Ha|].
    intros k. rewrite Hkeys', Hkeys. unfold chat_ids_of. simpl.
    destruct (mem k _); [|reflexivity]. now rewrite Hcount.
Qed.

(** X15 on the chat "trio": bob's "hi" counts as unread for alice and not
    for bob; dave, no member, is refused. *)
Lemma create_message_raises_unread_witness :
  lookup_chat db_trio 1 <> None
  /\ is_member db_trio 2 1
  /\ message_service.unread_count db_trio_hi 1 1 = 1%nat
  /\ message_service.unread_count db_trio_hi 2 1 = 0%nat
  /\ fst (messages.create_message (MessageCreate.mk "hi" 1) dave db_trio)
     = Raise (HTTPException HTTP_403_FORBIDDEN
                            "User is not a member of this chat")
  /\ exists db',
       messages.create_message (MessageCreate.mk "hi" 1) bob db_trio
       = (Ok (Message.mk 1 "hi" 2 1 false 1000 None), db')
       /\ message_service.unread_count db' 1 1
          = S (message_service.unread_count db_trio 1 1).
Proof.
  assert (Hchat : lookup_chat db_trio 1 <> None) by discriminate.
  assert (Hbob : is_member db_trio (User.id bob) 1).
  { exists (UserChat.mk 1 2 1 false 1000). simpl. tauto. }
  split; [exact Hchat|]. split; [exact Hbob|]. split; [reflexivity|].
  split; [reflexivity|]. split; [reflexivity|].
  destruct (create_message_raises_unread (MessageCreate.mk "hi" 1) bob
              db_trio) as (_ & _ & Hsend).
  destruct (Hsend Hchat Hbob) as (db' & Hrun & _ & _ & _ & _ & _ & _ & Hcount
                                  & _).
  exists db'. split; [exact Hrun|]. now rewrite Hcount.
Defined.

(** ** The guard on top of the allow-list *)

Section GuardWithService.

Variable H : Type.
Variable call_next : Request.t -> DB -> H * DB.
Variables get_db_next get_db_close : M unit.
Variable get_current_user : string -> M User.t.

(** The session generator yields and closes without touching the store. *)
Hypothesis get_db_next_ok : forall db, get_db_next db = (Ok tt, db).
Hypothesis get_db_close_ok : forall db, get_db_close db = (Ok tt, db).

(** The guard of a protected route for a request with a bearer token that
    resolves to [user], run with the allow-list check of the service. *)
Lemma validate_ip_run (request : Request.t) (user : User.t) (db : DB) :
  main.is_public request = false ->
  has_bearer request = true ->
  get_current_user (bearer_token request) db = (Ok user, db) ->
  main.validate_ip H call_next get_db_next get_db_close get_current_user
                   user_service.check_ip_authorization request db
  = match user_service.check_ip_authorization (User.id user)
            (Request.client_host request) db with
    | (Ok false, db') => (rejection (Request.client_host request), db')
    | (_, db') => forwarded call_next request db'
    end.
Proof.
  intros Hpublic Hbearer Huser.
  unfold main.validate_ip, forwarded. rewrite Hpublic.
  unfold has_bearer, bearer_token, main.ip_check, bearer_header in *.
  destruct (Request.authorization request) as [auth|]; [|discriminate].
  rewrite Hbearer. unfold bind at 1. rewrite get_db_next_ok.
  unfold try_finally, bind. rewrite Huser.
  destruct (user_service.check_ip_authorization _ _ db)
    as [[[|]|e] db']; simpl; unfold ret; rewrite get_db_close_ok;
    reflexivity.
Qed.

End GuardWithService.

(** X16.  The guard and the allow-list together, for a protected route and
    a bearer token that resolves to a user, with a session generator that
    does not write: a request from a local address (127.0.0.1, ::1,
    192.168.x.y) is forwarded on the untouched store; from another address
    it is answered 403, without writing, exactly when the user has no
    active entry for it, and is forwarded otherwise; so a request from the
    address of a login is forwarded, and one from an address that was
    deactivated is answered 403. *)
Theorem guard_follows_allow_list (H : Type)
  (call_next : Request.t -> DB -> H * DB)
  (get_db_next get_db_close : M unit)
  (get_current_user : string -> M User.t)
  (request : Request.t) (user : User.t) (db : DB) :
  (forall d, get_db_next d = (Ok tt, d)) ->
  (forall d, get_db_close d = (Ok tt, d)) ->
  main.is_public request = false ->
  has_bearer request = true ->
  get_current_user (bearer_token request) db = (Ok user, db) ->
  let ip := Request.client_host request in
  let guard :=
    main.validate_ip H call_next get_db_next get_db_close get_current_user
                     user_service.check_ip_authorization request db in
  (bypassed ip = true -> guard = forwarded call_next request db)
  /\ (bypassed ip = false ->
      (guard = (rejection ip, db)
       <-> active_entries db (User.id user) ip = []))
  /\ (active_entries db (User.id user) ip <> [] ->
      exists db', guard = forwarded call_next request db'
                  /\ same_memberships db db')
  /\ (forall description db0,
        db = snd (user_service.register_authorized_ip (User.id user) ip
                    description db0) ->
        exists db', guard = forwarded call_next request db')
  /\ (forall db0,
        allow_list_wf db0 -> bypassed ip = false ->
        db = snd (user_service.deactivate_authorized_ip (User.id user) ip
                    db0) ->
        guard = (rejection ip, db)).
Proof.
  intros Hnext Hclose Hpublic Hbearer Huser. cbv zeta.
  rewrite (validate_ip_run H call_next get_db_next get_db_close
             get_current_user Hnext Hclose request user db Hpublic Hbearer
             Huser).
  assert (Hpass : active_entries db (User.id user)
                                 (Request.client_host request) <> [] ->
                  exists db',
                    match user_service.check_ip_authorization (User.id user)
                            (Request.client_host request) db with
                    | (Ok false, db') =>
                        (rejection (Request.client_host request), db')
                    | (_, db') => forwarded call_next request db'
                    end = forwarded call_next request db'
                    /\ same_memberships db db').
  { intros Hactive.
    pose proof (check_ip_authorization_true _ _ _ Hactive) as Hok.
    pose proof (check_ip_authorization_frame (User.id user)
                  (Request.client_host request) db) as Hframe.
    destruct (user_service.check_ip_authorization _ _ db) as [r db'].
    simpl in Hok, Hframe. subst r. exists db'. now split. }
  assert (Hreject : bypassed (Request.client_host request) = false ->
                    active_entries db (User.id user)
                                   (Request.client_host request) = [] ->
                    match user_service.check_ip_authorization (User.id user)
                            (Request.client_host request) db with
                    | (Ok false, db') =>
                        (rejection (Request.client_host request), db')
                    | (_, db') => forwarded call_next request db'
                    end = (rejection (Request.client_host request), db)).
  { intros Hfar Hnone. rewrite check_ip_authorization_run, Hfar.
    apply lookup_active_ip_none in Hnone. now rewrite Hnone. }
  split; [|split; [|split; [|split]]].
  - intros Hlocal. now rewrite check_ip_authorization_run, Hlocal.
  - intros Hfar. split; [|now apply Hreject].
    intros Hrejected.
    destruct (active_entries db (User.id user) (Request.client_host request))
      as [|r l] eqn:Hactive; [reflexivity|].
    destruct Hpass as (db' & Hforward & _); [discriminate|].
    rewrite Hforward in Hrejected. unfold forwarded, rejection in Hrejected.
    destruct (call_next request db'). discriminate.
  - exact Hpass.
  - intros description db0 ->.
    destruct Hpass as (db' & Hforward & _);
      [apply register_authorized_ip_entries|].
    now exists db'.
  - intros db0 Hwf Hfar Hdb. apply Hreject; [exact Hfar|].
    rewrite Hdb, deactivate_authorized_ip_run.
    fold (lookup_active_ip db0 (User.id user) (Request.client_host request)).
    destruct (lookup_active_ip db0 (User.id user)
                (Request.client_host request)) as [r|] eqn:Hlookup; simpl.
    + exact (proj1 (deactivate_authorized_ip_entries _ _ db0 r Hwf Hlookup)).
    + now apply lookup_active_ip_none.
Qed.

(** X16 for alice's token on a protected route, from 10.0.0.5 while her
    entry for that address is deactivated. *)
Lemma guard_follows_allow_list_witness :
  let request := Request.mk "/chats/" "GET" "10.0.0.5" (Some "Bearer abc") in
  main.is_public request = false
  /\ has_bearer request = true
  /\ bypassed "10.0.0.5" = false
  /\ active_entries db_ip_inactive 1 "10.0.0.5" = []
  /\ main.validate_ip unit (fun _ d => (tt, d)) (ret tt) (ret tt)
       (fun _ => ret alice) user_service.check_ip_authorization request
       db_ip_inactive
     = (rejection "10.0.0.5", db_ip_inactive).
Proof.
  intros request.
  destruct (guard_follows_allow_list unit (fun _ d => (tt, d)) (ret tt)
              (ret tt) (fun _ => ret alice) request alice db_ip_inactive
              (fun d => eq_refl) (fun d => eq_refl) eq_refl eq_refl eq_refl)
    as (_ & Hfar & _).
  split; [reflexivity|]. split; [reflexivity|]. split; [reflexivity|].
  split; [reflexivity|]. apply (Hfar eq_refl). reflexivity.
Defined.

(** ** Credentials *)

(** X17.  [authenticate_user] never raises and never writes; the login
    route, which checks the credentials itself, accepts exactly the
    credentials that [authenticate_user] accepts: it answers 401 when
    [authenticate_user] returns nothing, and otherwise issues the token
    for the user that [authenticate_user] returns, whose user name is the
    one that was asked for and whose stored password verifies. *)
Theorem authenticate_user_matches_login (hashed_password : User.t -> string)
  (verify_password : string -> string -> bool)
  (create_access_token : string -> Z -> string)
  (ACCESS_TOKEN_EXPIRE_MINUTES : Z)
  (user_login : UserLogin.t) (request : Request.t) (db : DB) :
  let login :=
    users.login_for_access_token hashed_password verify_password
      create_access_token ACCESS_TOKEN_EXPIRE_MINUTES user_login request db in
  exists found,
    user_service.authenticate_user hashed_password verify_password
      (UserLogin.username user_login) (UserLogin.password user_login) db
    = (Ok found, db)
    /\ (found = None
        <-> login = (Raise (HTTPException HTTP_401_UNAUTHORIZED
                                          "Incorrect username or password"),
                     db))
    /\ (forall user,
          found = Some user ->
          In user (users db)
          /\ User.username user = UserLogin.username user_login
          /\ verify_password (UserLogin.password user_login)
                             (hashed_password user) = true
          /\ exists db',
               login
               = (Ok (Token.mk (create_access_token
                                  (UserLogin.username user_login)
                                  ACCESS_TOKEN_EXPIRE_MINUTES) "bearer"),
                  db')).
Proof.
  cbv zeta. rewrite login_for_access_token_run.
  unfold user_service.authenticate_user, user_service.get_user_by_username,
    user_by_username.
  run.
  destruct (find _ (users db)) as [user|] eqn:Hfind.
  - destruct (verify_password _ _) eqn:Hverify; simpl.
    + exists (Some user). split; [reflexivity|]. split.
      * split; discriminate.
      * intros user0 Heq. injection Heq as <-.
        apply find_some in Hfind. destruct Hfind as [Hin Hname].
        apply String.eqb_eq in Hname.
        split; [exact Hin|]. split; [exact Hname|]. split; [exact Hverify|].
        rewrite Hname. eexists. reflexivity.
    + exists None. split; [reflexivity|]. split; [tauto | discriminate].
  - exists None. split; [reflexivity|]. split; [tauto | discriminate].
Qed.

(** ** C1: the member count of each chat *)

(** The chat sequence never goes back. *)
Lemma handle_chats_id_seq (call : Call) (current_user : User.t) (db : DB) :
  chats_id_seq db <= chats_id_seq (handle call current_user db).
Proof.
  destruct call; simpl.
  - rewrite create_chat_run. cbv zeta. destruct (len_ne _ _); simpl; lia.
  - unfold chats.update_chat, commit_chat. run.
    repeat (break_match; simpl); lia.
  - rewrite add_users_to_chat_run. cbv zeta.
    repeat (break_match; simpl); lia.
  - rewrite remove_user_from_chat_run. cbv zeta.
    repeat (break_match; simpl); lia.
  - rewrite create_message_run. unfold add_message.
    repeat (break_match; simpl); lia.
  - rewrite update_message_run. unfold commit_message. run.
    repeat (break_match; simpl); lia.
  - rewrite delete_message_run. repeat (break_match; simpl); lia.
  - rewrite mark_message_as_read_run. unfold commit_message. run.
    repeat (break_match; simpl); lia.
  - unfold user_service.register_authorized_ip, commit_authorized_ip,
      add_authorized_ip_row. run.
    repeat (break_match; simpl); lia.
  - unfold user_service.check_ip_authorization, commit_authorized_ip. run.
    repeat (break_match; simpl); lia.
  - unfold user_service.deactivate_authorized_ip, commit_authorized_ip. run.
    repeat (break_match; simpl); lia.
Qed.

(** A successful [create_chat], taken apart. *)
Lemma create_chat_ok (chat : ChatCreate.t) (current_user : User.t)
  (db db' : DB) (row : Chat.t) :
  chats.create_chat chat current_user db = (Ok row, db') ->
  Chat.id row = chats_id_seq db
  /\ chats db' = chats db ++ [row]
  /\ chats_id_seq db' = chats_id_seq db + 1
  /\ (List.length (create_chat_ids chat current_user)
      <= member_count db' (Chat.id row))%nat.
Proof.
  rewrite create_chat_run. cbv zeta.
  destruct (len_ne _ _); [discriminate|].
  intros Hrun. injection Hrun as <- <-. simpl.
  repeat split; try reflexivity.
  erewrite member_count_append by reflexivity.
  rewrite membership_rows_same_chat, membership_rows_length. lia.
Qed.

(** Where the chat rows of the store after a call come from: the row has
    the id of a row that was there, or the call created it. *)
Lemma handle_chat_origin (call : Call) (current_user : User.t) (db : DB)
  (c : Chat.t) :
  In c (chats (handle call current_user db)) ->
  In (Chat.id c) (map Chat.id (chats db))
  \/ exists chat,
       call = CreateChat chat
       /\ chats.create_chat chat current_user db
          = (Ok c, handle call current_user db).
Proof.
  assert (Hsame : forall db',
             same_memberships db db' ->
             In c (chats db') -> In (Chat.id c) (map Chat.id (chats db))).
  { intros db' (_ & Hids & _) Hin. rewrite <- Hids. now apply in_map. }
  destruct call; simpl.
  - destruct (chats.create_chat chat current_user db) as [[row|e] db']
      eqn:Hrun.
    + destruct (create_chat_ok _ _ _ _ _ Hrun) as (_ & Hrows & _).
      simpl. rewrite Hrows, in_app_iff.
      intros [Hold | [<- | []]]; [left; now apply in_map|].
      right. now exists chat.
    + rewrite create_chat_run in Hrun. cbv zeta in Hrun.
      destruct (len_ne _ _); [|discriminate].
      injection Hrun as _ <-. simpl. intros Hin. left. now apply in_map.
  - intros Hin. left. eapply Hsame; [apply update_chat_frame | exact Hin].
  - rewrite add_users_to_chat_run. cbv zeta.
    repeat (break_match; simpl); intros Hin; left; now apply in_map.
  - rewrite remove_user_from_chat_run. cbv zeta.
    repeat (break_match; simpl); intros Hin; left;
      try (apply filter_In in Hin; destruct Hin as [Hin _]);
      now apply in_map.
  - intros Hin. left. eapply Hsame; [apply create_message_frame | exact Hin].
  - intros Hin. left. eapply Hsame; [apply update_message_frame | exact Hin].
  - intros Hin. left. eapply Hsame; [apply delete_message_frame | exact Hin].
  - intros Hin. left.
    eapply Hsame; [apply mark_message_as_read_frame | exact Hin].
  - intros Hin. left.
    eapply Hsame; [apply register_authorized_ip_frame | exact Hin].
  - intros Hin. left.
    eapply Hsame; [apply check_ip_authorization_frame | exact Hin].
  - intros Hin. left.
    eapply Hsame; [apply deactivate_authorized_ip_frame | exact Hin].
Qed.

(** What a call does to the member count of a chat that exists after it:
    the count did not go down, or it is still two or more. *)
Lemma handle_member_count (call : Call) (current_user : User.t) (db : DB)
  (c : Z) :
  users_chats_pk db ->
  chat_exists (handle call current_user db) c ->
  (member_count db c <= member_count (handle call current_user db) c)%nat
  \/ (2 <= member_count (handle call current_user db) c)%nat.
Proof.
  intros Hpk.
  assert (Hsame : forall db',
             same_memberships db db' ->
             (member_count db c <= member_count db' c)%nat
             \/ (2 <= member_count db' c)%nat).
  { intros db' (Huc & _). left. now rewrite (member_count_same db db'). }
  destruct call; simpl.
  - intros _. left. rewrite create_chat_run. cbv zeta.
    destruct (len_ne _ _); simpl; [lia|].
    set (rows := membership_rows _ _ _ _ _).
    set (db' := mkDB _ _ _ _ _ _ _ _ _ _).
    rewrite (member_count_append db db' rows) by reflexivity. lia.
  - intros _. apply Hsame, update_chat_frame.
  - intros _. left. rewrite add_users_to_chat_run. cbv zeta.
    destruct (find _ _); [|simpl; lia].
    destruct (lookup_chat db chat_id); [|simpl; lia].
    destruct (negb _); [simpl; lia|].
    destruct (len_ne _ _); simpl; [lia|].
    set (rows := membership_rows _ _ _ _ _).
    set (db' := mkDB _ _ _ _ _ _ _ _ _ _).
    rewrite (member_count_append db db' rows) by reflexivity. lia.
  - rewrite remove_user_from_chat_run.
    destruct (_ && _); [intros _; left; simpl; lia|].
    destruct (find _ _) as [user_chat|] eqn:Hfind;
      [|intros _; left; simpl; lia].
    apply find_some in Hfind. destruct Hfind as [Hin Hmember].
    apply andb_true_iff in Hmember. destruct Hmember as [_ Hchat].
    apply Z.eqb_eq in Hchat. cbv zeta.
    set (rest := filter _ (users_chats db)).
    assert (Hrest : forall k, k <> chat_id ->
              filter (fun uc => UserChat.chat_id uc =? k) rest
              = memberships_of db k).
    { intros k Hne. apply member_count_other_chat; congruence. }
    destruct (Nat.leb _ 1) eqn:Hcount; simpl.
    + intros (x & Hx & Hid). apply filter_In in Hx. destruct Hx as [_ Hne].
      apply negb_true_iff, Z.eqb_neq in Hne. left.
      unfold member_count at 2. unfold memberships_of. simpl.
      rewrite filter_filter_implied.
      * rewrite Hrest by congruence. unfold member_count. lia.
      * intros r _ Hr. apply Z.eqb_eq in Hr. apply negb_true_iff, Z.eqb_neq.
        congruence.
    + intros _. apply Nat.leb_gt in Hcount.
      unfold member_count at 2 3. unfold memberships_of. simpl.
      destruct (Z.eq_dec c chat_id) as [-> | Hne].
      * right. lia.
      * left. rewrite Hrest by assumption. unfold member_count. lia.
  - intros _. apply Hsame, create_message_frame.
  - intros _. apply Hsame, update_message_frame.
  - intros _. apply Hsame, delete_message_frame.
  - intros _. apply Hsame, mark_message_as_read_frame.
  - intros _. apply Hsame, register_authorized_ip_frame.
  - intros _. apply Hsame, check_ip_authorization_frame.
  - intros _. apply Hsame, deactivate_authorized_ip_frame.
Qed.

(** Chat ids stay unique: a new chat takes the next value of the sequence,
    which is above every id in use. *)
Lemma handle_chats_pk (call : Call) (current_user : User.t) (db : DB) :
  ids_below_seq db ->
  NoDup (map Chat.id (chats db)) ->
  NoDup (map Chat.id (chats (handle call current_user db))).
Proof.
  intros [_ Hbelow] Hnodup.
  assert (Hsame : forall db',
             same_memberships db db' -> NoDup (map Chat.id (chats db'))).
  { intros db' (_ & Hids & _). now rewrite Hids. }
  destruct call; simpl.
  - destruct (chats.create_chat chat current_user db) as [[row|e] db']
      eqn:Hrun.
    + destruct (create_chat_ok _ _ _ _ _ Hrun) as (Hid & Hrows & _).
      simpl. rewrite Hrows, map_app. simpl.
      apply NoDup_app; [assumption | |].
      * constructor; [intros [] | constructor].
      * intros i Hi [<- | []]. apply in_map_iff in Hi.
        destruct Hi as (x & Hx & Hin). apply Hbelow in Hin. lia.
    + rewrite create_chat_run in Hrun. cbv zeta in Hrun.
      destruct (len_ne _ _); [|discriminate].
      injection Hrun as _ <-. exact Hnodup.
  - apply Hsame, update_chat_frame.
  - rewrite add_users_to_chat_run. cbv zeta.
    repeat (break_match; simpl); assumption.
  - rewrite remove_user_from_chat_run. cbv zeta.
    repeat (break_match; simpl); try assumption.
    now apply NoDup_map_filter.
  - apply Hsame, create_message_frame.
  - apply Hsame, update_message_frame.
  - apply Hsame, delete_message_frame.
  - apply Hsame, mark_message_as_read_frame.
  - apply Hsame, register_authorized_ip_frame.
  - apply Hsame, check_ip_authorization_frame.
  - apply Hsame, deactivate_authorized_ip_frame.
Qed.

Lemma created_alone_spec (call : Call) (current_user : User.t) (db : DB)
  (i : Z) :
  In i (created_alone call current_user db) ->
  i = chats_id_seq db
  /\ chats_id_seq (handle call current_user db) = chats_id_seq db + 1.
Proof.
  destruct call; simpl; try tauto.
  destruct (chats.create_chat chat current_user db) as [[row|e] db'] eqn:Hrun;
    [|intros []].
  destruct (create_chat_ok _ _ _ _ _ Hrun) as (Hid & _ & Hseq & _).
  destruct (Nat.ltb _ 2); [|intros []].
  intros [<- | []]. now split.
Qed.

(** The invariant of the runs: ids are handed out by the sequences and
    unique, and a chat has two members or more unless the run created it
    with its creator alone. *)
Lemma reachable_solo_inv (solo : list Z) (db : DB) :
  reachable_solo solo db ->
  users_chats_pk db
  /\ ids_below_seq db
  /\ NoDup (map Chat.id (chats db))
  /\ (forall i, In i solo -> i < chats_id_seq db)
  /\ forall c, In c (chats db) ->
               (2 <= member_count db (Chat.id c))%nat
               \/ In (Chat.id c) solo.
Proof.
  induction 1 as [db (Hc & Huc & Hm) | solo db call current_user _ IH
                  | solo db t _ IH].
  - unfold users_chats_pk, ids_below_seq. rewrite Hc, Huc, Hm. simpl.
    split; [split; [constructor | intros uc []]|].
    split; [split; intros x []|].
    split; [constructor|]. split; intros x [].
  - destruct IH as (Hpk & Hbelow & Hnodup & Hsolo & Hcount).
    split; [|split; [|split; [|split]]].
    + apply (handle_paired 0 call current_user db); [lia | |].
      * destruct call; simpl; trivial. lia.
      * split; [|exact Hpk]. intros c _. lia.
    + now apply handle_ids_below.
    + now apply handle_chats_pk.
    + intros i Hi. apply in_app_iff in Hi. destruct Hi as [Hnew | Hold].
      * apply created_alone_spec in Hnew. lia.
      * pose proof (handle_chats_id_seq call current_user db).
        apply Hsolo in Hold. lia.
    + intros c Hin.
      destruct (handle_chat_origin call current_user db c Hin)
        as [Hold | (chat & -> & Hrun)].
      * apply in_map_iff in Hold. destruct Hold as (c0 & Hid & Hin0).
        destruct (Hcount c0 Hin0) as [Htwo | Hsolo0].
        -- left.
           destruct (handle_member_count call current_user db (Chat.id c)
                       Hpk) as [Hkept | Hstill].
           ++ now exists c.
           ++ rewrite <- Hid in *. lia.
           ++ exact Hstill.
        -- right. apply in_app_iff. right. now rewrite <- Hid.
      * destruct (create_chat_ok _ _ _ _ _ Hrun) as (_ & _ & _ & Hlen).
        destruct (Nat.ltb (List.length (create_chat_ids chat current_user))
                          2) eqn:Hsmall.
        -- right. apply in_app_iff. left. simpl. rewrite Hrun, Hsmall.
           now left.
        -- left. apply Nat.ltb_ge in Hsmall. simpl in *. lia.
  - exact IH.
Qed.

Lemma reachable_solo_exists (db : DB) :
  reachable any_call db -> exists solo, reachable_solo solo db.
Proof.
  induction 1 as [db Hstart | db call current_user _ [solo IH] _
                  | db t _ [solo IH]].
  - exists []. now apply solo_start.
  - eexists. apply solo_call. exact IH.
  - exists solo. now apply solo_tick.
Qed.

Lemma reachable_solo_reachable (solo : list Z) (db : DB) :
  reachable_solo solo db -> reachable any_call db.
Proof.
  induction 1 as [db Hstart | solo db call current_user _ IH
                  | solo db t _ IH].
  - now apply reach_start.
  - apply reach_call; [exact IH | exact I].
  - now apply reach_tick.
Qed.

(** C1 as stated fails: a chat whose only member is its creator is
    reachable, by one [create_chat] that names nobody else. *)
Lemma create_chat_alone_reachable :
  reachable any_call db_alone
  /\ chat_exists db_alone 1
  /\ member_count db_alone 1 = 1%nat.
Proof.
  split; [|split].
  - apply reach_call; [|exact I]. apply reach_start. now repeat split.
  - exists (Chat.mk 1 None false 1000 None). split; [now left | reflexivity].
  - reflexivity.
Qed.

(** C1, amended.  A removal that succeeds leaves the chat with two
    memberships or more, or deletes the chat row, its messages and its
    memberships in the same operation.  Chat by chat: a chat that
    [create_chat] creates has as many members as the request names, the
    creator included; whatever a call does in a reachable store, a chat
    that has two members or more and still exists afterwards has two or
    more; so in every reachable store every chat has two members or more,
    except the chats that the run created with their creator alone, which
    have at least one (ids are unique and handed out by the sequence, so
    the id tells which chat that is).  In particular every chat has two or
    more when chats are only created with two members or more, and every
    chat has one or more in any case. *)
Theorem chat_member_counts :
  (forall chat_id user_id current_user db db',
      chats.remove_user_from_chat chat_id user_id current_user db
      = (Ok tt, db') ->
      (2 <= member_count db' chat_id)%nat
      \/ (~ chat_exists db' chat_id
          /\ messages_of db' chat_id = []
          /\ memberships_of db' chat_id = []))
  /\ (forall db, reachable (creates_at_least 2) db -> chats_have 2 db)
  /\ (forall db, reachable any_call db -> chats_have 1 db)
  /\ (forall chat current_user db row db',
        chats.create_chat chat current_user db = (Ok row, db') ->
        Chat.id row = chats_id_seq db
        /\ (List.length (create_chat_ids chat current_user)
            <= member_count db' (Chat.id row))%nat)
  /\ (forall call current_user db c,
        reachable any_call db ->
        (2 <= member_count db c)%nat ->
        chat_exists (handle call current_user db) c ->
        (2 <= member_count (handle call current_user db) c)%nat)
  /\ (forall db, reachable any_call db -> exists solo, reachable_solo solo db)
  /\ (forall solo db,
        reachable_solo solo db ->
        reachable any_call db
        /\ NoDup (map Chat.id (chats db))
        /\ (forall i, In i solo -> i < chats_id_seq db)
        /\ forall c, In c (chats db) ->
                     (2 <= member_count db (Chat.id c))%nat
                     \/ In (Chat.id c) solo).
Proof.
  split; [|split; [|split; [|split; [|split; [|split]]]]].
  - intros chat_id user_id current_user db db'.
    apply remove_user_from_chat_cascade.
  - intros db Hreach. now apply (reachable_paired 2 db).
  - intros db Hreach. apply (reachable_paired 1 db); [lia|].
    apply (reachable_mono any_call); [|assumption].
    intros call current_user _. apply creates_at_least_one.
  - intros chat current_user db row db' Hrun.
    destruct (create_chat_ok _ _ _ _ _ Hrun) as (Hid & _ & _ & Hlen).
    now split.
  - intros call current_user db c Hreach Htwo Hexists.
    destruct (reachable_solo_exists db Hreach) as [solo Hsolo].
    destruct (reachable_solo_inv solo db Hsolo) as (Hpk & _).
    destruct (handle_member_count call current_user db c Hpk Hexists); lia.
  - exact reachable_solo_exists.
  - intros solo db Hsolo.
    destruct (reachable_solo_inv solo db Hsolo)
      as (_ & _ & Hnodup & Hids & Hcount).
    split; [now apply (reachable_solo_reachable solo)|].
    split; [exact Hnodup|]. split; [exact Hids | exact Hcount].
Qed.

(** The amended claim on the chat "trio": alice removes bob and the chat
    still has two members; she then removes carol and the chat is gone.
    And on the store where alice created a chat alone before the group
    chat: the group chat, which is not one of those created alone, has two
    members or more. *)
Lemma chat_member_counts_witness :
  let db1 := handle (RemoveUser 1 2) alice db_trio in
  let db2 := handle (RemoveUser 1 3) alice db1 in
  reachable (creates_at_least 2) db2
  /\ chats_have 2 db1
  /\ member_count db1 1 = 2%nat
  /\ chats.remove_user_from_chat 1 3 alice db1 = (Ok tt, db2)
  /\ ((2 <= member_count db2 1)%nat
      \/ (~ chat_exists db2 1
          /\ messages_of db2 1 = [] /\ memberships_of db2 1 = []))
  /\ reachable_solo [1] db_mixed
  /\ In (Chat.mk 2 (Some "trio") true 1000 None) (chats db_mixed)
  /\ (2 <= member_count db_mixed 2)%nat.
Proof.
  intros db1 db2.
  destruct chat_member_counts as (Hremove & Hpaired & _ & _ & _ & _ & Heach).
  assert (Htrio : reachable (creates_at_least 2) db_trio).
  { apply (reach_call _ db_users (CreateChat _) alice).
    - apply reach_start. now repeat split.
    - simpl. lia. }
  assert (H1 : reachable (creates_at_least 2) db1)
    by (apply reach_call; [exact Htrio | exact I]).
  assert (Hrun : chats.remove_user_from_chat 1 3 alice db1 = (Ok tt, db2))
    by reflexivity.
  assert (Hmixed : reachable_solo [1] db_mixed).
  { exact (solo_call _ _ (CreateChat (ChatCreate.mk (Some "trio") true [2; 3]))
             alice
             (solo_call _ _ (CreateChat (ChatCreate.mk None false [])) alice
                (solo_start db_users
                   (conj eq_refl (conj eq_refl eq_refl))))). }
  assert (Hgroup : In (Chat.mk 2 (Some "trio") true 1000 None)
                      (chats db_mixed)) by (right; now left).
  split; [apply reach_call; [exact H1 | exact I]|].
  split; [exact (Hpaired db1 H1)|].
  split; [reflexivity|].
  split; [exact Hrun|].
  split; [exact (Hremove 1 3 alice db1 db2 Hrun)|].
  split; [exact Hmixed|]. split; [exact Hgroup|].
  destruct (Heach [1] db_mixed Hmixed) as (_ & _ & _ & Hcount).
  destruct (Hcount _ Hgroup) as [Htwo | [Habs | []]];
    [exact Htwo | discriminate].
Defined.
